(** * zeta-skills-ollama: skill selection, code extraction, execution and
      turn handling, embedded from [local_skills.py] and
      [enhanced_ollama_agent.py]. *)

From Stdlib Require Import Ascii String DecimalString.
From Stdlib Require Import List Bool Arith NArith ZArith QArith.
From Stdlib Require Import Lia Permutation Sorted.
Import ListNotations.
Close Scope Q_scope.

Set Implicit Arguments.

(** ** Text: Python [str] values

    A [str] is a sequence of code points.  The development keeps to the
    code points 0..255 (Latin-1), on which [str.lower], [str.split] and
    the regular-expression class [\s] are the finite tables below. *)

Module Text.

Definition str := list ascii.

Definition lit (s : string) : str := list_ascii_of_string s.

Definition code (c : ascii) : N := N_of_ascii c.

(** Code points with a lower-case mapping: A-Z, and U+00C0..U+00DE
    except the multiplication sign U+00D7. *)
Definition is_upper (c : ascii) : bool :=
  let n := code c in
  ((65 <=? n) && (n <=? 90) || (192 <=? n) && (n <=? 222) && negb (n =? 215))%N.

Definition lower_char (c : ascii) : ascii :=
  if is_upper c then ascii_of_N (code c + 32) else c.

(** [s.lower()] *)
Definition lower (s : str) : str := map lower_char s.

(** [c.isspace()], which is also what [str.split()] and [\s] use:
    U+0009..U+000D, U+001C..U+0020, U+0085, U+00A0. *)
Definition is_space (c : ascii) : bool :=
  let n := code c in
  ((9 <=? n) && (n <=? 13) || (28 <=? n) && (n <=? 32) || (n =? 133) || (n =? 160))%N.

(** [s.split()]: maximal runs of non-whitespace, in order. *)
Fixpoint split (s : str) : list str :=
  match s with
  | [] => []
  | c :: s' =>
      if is_space c then split s'
      else match s' with
           | [] => [[c]]
           | d :: _ =>
               if is_space d then [c] :: split s'
               else match split s' with
                    | t :: ts => (c :: t) :: ts
                    | [] => [[c]]
                    end
           end
  end.

Definition ascii_eqb (a b : ascii) : bool := Ascii.eqb a b.

(** [s.startswith(p)] *)
Fixpoint startswith (p s : str) : bool :=
  match p, s with
  | [], _ => true
  | _ :: _, [] => false
  | a :: p', b :: s' => ascii_eqb a b && startswith p' s'
  end.

(** [p in s] *)
Fixpoint contains (p s : str) : bool :=
  startswith p s ||
  match s with
  | [] => false
  | _ :: s' => contains p s'
  end.

Definition str_eqb (a b : str) : bool :=
  (length a =? length b) && startswith a b.

(** [sep.join(parts)] *)
Fixpoint join (sep : str) (parts : list str) : str :=
  match parts with
  | [] => []
  | [p] => p
  | p :: ps => p ++ sep ++ join sep ps
  end.

(** [s.lstrip()] and [s.strip()] *)
Fixpoint lstrip (s : str) : str :=
  match s with
  | [] => []
  | c :: s' => if is_space c then lstrip s' else s
  end.

Definition strip (s : str) : str := rev (lstrip (rev (lstrip s))).

(** [str(n)] for a natural number *)
Definition str_of_nat (n : nat) : str :=
  lit (NilEmpty.string_of_uint (Nat.to_uint n)).

End Text.

Import Text.

(** ** Exceptions and results

    The handlers of the program tell exceptions apart by class only, and
    report them through [str(e)].  The text of an exception that the
    operating system, a codec or the interpreter raises is theirs and is
    not modelled: where the definitions below build such an exception, a
    path or a short phrase stands in for the text, and no statement
    depends on it. *)

Inductive exn_class :=
| TimeoutExpired
| FileNotFoundError
| IsADirectoryError
| NotADirectoryError
| FileExistsError
| UnicodeDecodeError
| AttributeError
| OtherException.

Record exn := Exn { exn_cls : exn_class; exn_str : str }.

Inductive res (A : Type) :=
| Ok (a : A)
| Raise (e : exn).
Arguments Ok {A} a.
Arguments Raise {A} e.

Definition res_bind {A B} (r : res A) (k : A -> res B) : res B :=
  match r with
  | Ok a => k a
  | Raise e => Raise e
  end.

Definition opt_bind {A B} (o : option A) (k : A -> option B) : option B :=
  match o with
  | Some a => k a
  | None => None
  end.

Declare Scope res_scope.
Declare Scope opt_scope.
Delimit Scope res_scope with res.
Delimit Scope opt_scope with opt.
Notation "x <- r ;; k" := (res_bind r (fun x => k))
  (at level 61, r at next level, right associativity) : res_scope.
Notation "x <- r ;; k" := (opt_bind r (fun x => k))
  (at level 61, r at next level, right associativity) : opt_scope.

Definition nl : ascii := ascii_of_N 10.

(** ** Regular expressions

    The two patterns of the program are written with the combinators
    below, which follow the backtracking order of Python's [re]: a greedy
    star tries the longest repetition first, a lazy one the shortest. *)

Module Re.

Local Open Scope opt_scope.

(** A literal: the rest of the subject after it. *)
Fixpoint literal (p s : str) : option str :=
  match p, s with
  | [], _ => Some s
  | _ :: _, [] => None
  | a :: p', b :: s' => if ascii_eqb a b then literal p' s' else None
  end.

(** A literal under [re.IGNORECASE]. *)
Fixpoint literal_ci (p s : str) : option str :=
  match p, s with
  | [], _ => Some s
  | _ :: _, [] => None
  | a :: p', b :: s' =>
      if ascii_eqb (lower_char a) (lower_char b) then literal_ci p' s' else None
  end.

(** [cls*] followed by the continuation [k]. *)
Fixpoint star_greedy {A} (cls : ascii -> bool) (s : str)
    (k : str -> option A) : option A :=
  match s with
  | c :: s' =>
      if cls c then
        match star_greedy cls s' k with
        | Some r => Some r
        | None => k s
        end
      else k s
  | [] => k []
  end.

(** [(cls*?)] followed by the continuation [k], which receives the
    captured text and the rest. *)
Fixpoint star_lazy {A} (cls : ascii -> bool) (s : str)
    (k : str -> str -> option A) : option A :=
  match k [] s with
  | Some r => Some r
  | None =>
      match s with
      | c :: s' =>
          if cls c then star_lazy cls s' (fun cap rest => k (c :: cap) rest)
          else None
      | [] => None
      end
  end.

(** [.] under [re.DOTALL] *)
Definition any (_ : ascii) : bool := true.

(** [re.findall] for a pattern with one group that matches no empty
    text: [at_ s] is the match starting exactly at [s], as the group and
    the rest after the match.  The search resumes after each match and
    moves on by one character where there is none. *)
Fixpoint findall_fuel (fuel : nat) (at_ : str -> option (str * str))
    (s : str) : list str :=
  match fuel with
  | O => []
  | S fuel' =>
      match at_ s with
      | Some (g, rest) => g :: findall_fuel fuel' at_ rest
      | None =>
          match s with
          | [] => []
          | _ :: s' => findall_fuel fuel' at_ s'
          end
      end
  end.

Definition findall (at_ : str -> option (str * str)) (s : str) : list str :=
  findall_fuel (S (length s)) at_ s.

End Re.

(** ** local_skills.py *)

Module LocalSkills.

(** *** The file system as the program sees it *)

Definition Path := list str.

(** [str(path)] *)
Definition str_of_path (p : Path) : str := join (lit "/") p.

(** [path.name] *)
Definition path_name (p : Path) : str := last p [].

(** What [open(p, 'r', encoding='utf-8').read()] gives for a regular
    file: its text, or [UnicodeDecodeError]. *)
Inductive file_data :=
| Text (s : str)
| Undecodable.

#[warnings="-register-all"] Inductive node :=
| File (d : file_data)
| Dir (entries : list (str * node)).

Definition is_file (n : node) : bool :=
  match n with File _ => true | Dir _ => false end.

Definition is_dir (n : node) : bool :=
  match n with File _ => false | Dir _ => true end.

Fixpoint child (nm : str) (entries : list (str * node)) : option node :=
  match entries with
  | [] => None
  | (k, n) :: rest => if str_eqb k nm then Some n else child nm rest
  end.

Fixpoint resolve (n : node) (p : Path) : option node :=
  match p with
  | [] => Some n
  | c :: p' =>
      match n with
      | File _ => None
      | Dir entries =>
          match child c entries with
          | Some n' => resolve n' p'
          | None => None
          end
      end
  end.

(** [open(p, 'r', encoding='utf-8').read()] below the directory [n] *)
Definition read_text (n : node) (p : Path) : res str :=
  match resolve n p with
  | None => Raise (Exn FileNotFoundError (str_of_path p))
  | Some (Dir _) => Raise (Exn IsADirectoryError (str_of_path p))
  | Some (File Undecodable) => Raise (Exn UnicodeDecodeError (str_of_path p))
  | Some (File (Text s)) => Ok s
  end.

(** [dir.rglob('*')]: every entry below the directory, with its path
    relative to it.  The order of the walk is the library's and differs
    between its versions; here an entry comes before the entries below
    it, and the statements about the walk are about membership only. *)
Fixpoint rglob_from (here : Path) (n : node) : list (Path * node) :=
  match n with
  | File _ => []
  | Dir entries =>
      flat_map (fun e => (here ++ [fst e], snd e)
                         :: rglob_from (here ++ [fst e]) (snd e)) entries
  end.

Definition rglob (entries : list (str * node)) : list (Path * node) :=
  rglob_from [] (Dir entries).

(** *** Python [dict] with [str] keys, in insertion order *)

Definition dict (V : Type) := list (str * V).

Fixpoint dict_get {V} (k : str) (d : dict V) : option V :=
  match d with
  | [] => None
  | (k', v) :: d' => if str_eqb k' k then Some v else dict_get k d'
  end.

Fixpoint dict_set {V} (k : str) (v : V) (d : dict V) : dict V :=
  match d with
  | [] => [(k, v)]
  | (k', v') :: d' =>
      if str_eqb k' k then (k', v) :: d' else (k', v') :: dict_set k v d'
  end.

(** *** class Skill *)

Record Skill := {
  path : Path;
  name : str;
  description : str;
  content : str;
  reference_files : dict Path
}.

(** The result of [yaml.safe_load] on a frontmatter block, as far as
    [_load_skill] uses it: a mapping (here with string values), or any
    other document ([None], a scalar, a sequence), on which [.get] raises
    [AttributeError]. *)
Inductive yaml_doc :=
| YMapping (fields : dict str)
| YOther.

Definition SKILL_md : str := lit "SKILL.md".

(** The frontmatter pattern of [_load_skill], matched by [re.match] under
    [re.DOTALL]: three dashes at the very start, white space up to a line
    break, a lazy group 1, a line break and three dashes, white space up to
    a line break, and the rest of the text as group 2.  The result is
    groups 1 and 2. *)
Definition frontmatter_match (content : str) : option (str * str) :=
  (s1 <- Re.literal (lit "---") content ;;
   Re.star_greedy is_space s1 (fun s2 =>
   s3 <- Re.literal [nl] s2 ;;
   Re.star_lazy Re.any s3 (fun g1 s4 =>
   s5 <- Re.literal (nl :: lit "---") s4 ;;
   Re.star_greedy is_space s5 (fun s6 =>
   s7 <- Re.literal [nl] s6 ;;
   Some (g1, s7)))))%opt.

Section Loading.

(** [yaml.safe_load] is the PyYAML parser. *)
Variable yaml_safe_load : str -> res yaml_doc.

(** The loop [for file_path in self.path.rglob('*')] of [_load_skill]. *)
Definition index_reference_files (skill_path : Path)
    (entries : list (str * node)) : dict Path :=
  fold_left
    (fun refs e =>
       let '(rel_path, file) := e in
       if is_file file && negb (str_eqb (path_name rel_path) SKILL_md)
       then dict_set (str_of_path rel_path) (skill_path ++ rel_path) refs
       else refs)
    (rglob entries) [].

(** [Skill(skill_path)], that is [__init__] and [_load_skill], for the
    directory [skill_path] with the given entries. *)
Definition _load_skill (skill_path : Path) (entries : list (str * node))
    : res Skill :=
  (match child SKILL_md entries with
   | None =>
       Raise (Exn FileNotFoundError
                (lit "SKILL.md not found in " ++ str_of_path skill_path))
   | Some _ =>
       content <- read_text (Dir entries) [SKILL_md] ;;
       parsed <-
         match frontmatter_match content with
         | Some (frontmatter_str, body) =>
             metadata <- yaml_safe_load frontmatter_str ;;
             match metadata with
             | YMapping fields =>
                 Ok (body,
                     match dict_get (lit "name") fields with
                     | Some n => n
                     | None => path_name skill_path
                     end,
                     match dict_get (lit "description") fields with
                     | Some d => d
                     | None => []
                     end)
             | YOther =>
                 Raise (Exn AttributeError
                          (lit "object has no attribute 'get'"))
             end
         | None => Ok (content, path_name skill_path, [])
         end ;;
       let '(body, nm, descr) := parsed in
       Ok {| path := skill_path;
             name := nm;
             description := descr;
             content := body;
             reference_files := index_reference_files skill_path entries |}
   end)%res.

(** [Skill.read_reference_file]; [cwd] is the directory the paths are
    relative to. *)
Definition read_reference_file (cwd : node) (self : Skill) (filename : str)
    : res (option str) :=
  match dict_get filename (reference_files self) with
  | Some file_path =>
      match read_text cwd file_path with
      | Ok s => Ok (Some s)
      | Raise e =>
          match exn_cls e with
          | UnicodeDecodeError =>
              Ok (Some (lit "[Binary file: " ++ filename ++ lit "]"))
          | _ => Raise e
          end
      end
  | None => Ok None
  end.

(** *** class SkillManager *)

(** The entries with the one called [nm] replaced. *)
Fixpoint set_child (nm : str) (n : node) (entries : list (str * node))
    : list (str * node) :=
  match entries with
  | [] => []
  | (k, m) :: rest =>
      if str_eqb k nm then (k, n) :: rest else (k, m) :: set_child nm n rest
  end.

(** A chain of new directories, one in the other. *)
Fixpoint fresh (p : Path) : node :=
  match p with
  | [] => Dir []
  | c :: p' => Dir [(c, fresh p')]
  end.

(** [path.mkdir(parents=True)] for the path [p] below [n]: the tree with
    the missing directories made.  It raises where the path exists
    already and where a regular file stands in its way. *)
Fixpoint mkdir (shown : Path) (n : node) (p : Path) : res node :=
  match p with
  | [] => Raise (Exn FileExistsError (str_of_path shown))
  | c :: p' =>
      match n with
      | File _ => Raise (Exn NotADirectoryError (str_of_path shown))
      | Dir entries =>
          match child c entries with
          | Some n' =>
              match mkdir shown n' p' with
              | Ok m => Ok (Dir (set_child c m entries))
              | Raise e => Raise e
              end
          | None => Ok (Dir (entries ++ [(c, fresh p')]))
          end
      end
  end.

(** What [_discover_skills] leaves behind: the skills, the lines it
    printed, and the file system. *)
Record Discovery := {
  skills : list Skill;
  printed : list str;
  tree : node
}.

(** The body of the loop over [self.skills_directory.iterdir()]. *)
Definition discover_one (skills_directory : Path) (acc : list Skill * list str)
    (e : str * node) : list Skill * list str :=
  let '(nm, n) := e in
  let skill_dir := skills_directory ++ [nm] in
  match n with
  | Dir entries =>
      match child SKILL_md entries with
      | Some _ =>
          match _load_skill skill_dir entries with
          | Ok skill =>
              (fst acc ++ [skill],
               snd acc ++ [lit "Loaded skill: " ++ name skill])
          | Raise e =>
              (fst acc,
               snd acc ++ [lit "Error loading skill from "
                           ++ str_of_path skill_dir ++ lit ": " ++ exn_str e])
          end
      | None => acc
      end
  | File _ => acc
  end.

(** [SkillManager(skills_directory)], that is [__init__] and
    [_discover_skills], in the directory [cwd].  A path that does not
    exist is made, which raises where a regular file stands in the way;
    listing a path that is a regular file raises.  Failures for want of
    permission are left out. *)
Definition _discover_skills (cwd : node) (skills_directory : Path)
    : res Discovery :=
  match resolve cwd skills_directory with
  | None =>
      match mkdir skills_directory cwd skills_directory with
      | Ok made =>
          Ok {| skills := [];
                printed := [lit "Creating skills directory: "
                            ++ str_of_path skills_directory];
                tree := made |}
      | Raise e => Raise e
      end
  | Some (File _) =>
      Raise (Exn NotADirectoryError (str_of_path skills_directory))
  | Some (Dir entries) =>
      let '(found, out) :=
        fold_left (discover_one skills_directory) entries ([], []) in
      Ok {| skills := found; printed := out; tree := cwd |}
  end.

End Loading.

(** The score [select_relevant_skills] gives a skill. *)
Definition skill_score (query_lower : str) (skill : Skill) : nat :=
  let skill_text := lower (name skill ++ lit " " ++ description skill) in
  let words := split query_lower in
  fold_left
    (fun score word =>
       if (3 <? length word)%nat && contains word skill_text
       then S score else score)
    words 0%nat.

(** [l.sort(reverse=True, key=lambda x: x[0])]: a stable sort, so equal
    scores keep their order also when reversed. *)
Fixpoint insert_desc {A} (x : nat * A) (l : list (nat * A)) : list (nat * A) :=
  match l with
  | [] => [x]
  | y :: l' =>
      if (fst x <? fst y)%nat then y :: insert_desc x l' else x :: l
  end.

Definition sort_reverse {A} (l : list (nat * A)) : list (nat * A) :=
  fold_right insert_desc [] l.

(** [l[:k]] *)
Definition slice_to {A} (k : Z) (l : list A) : list A :=
  let len := Z.of_nat (length l) in
  let stop := if (k <? 0)%Z then Z.max 0 (len + k) else Z.min k len in
  firstn (Z.to_nat stop) l.

Definition select_relevant_skills (self_skills : list Skill)
    (user_query : str) (max_skills : Z) : list Skill :=
  match self_skills with
  | [] => []
  | _ =>
      let query_lower := lower user_query in
      let scored_skills :=
        fold_left
          (fun scored skill =>
             let score := skill_score query_lower skill in
             if (0 <? score)%nat then scored ++ [(score, skill)] else scored)
          self_skills [] in
      map snd (slice_to max_skills (sort_reverse scored_skills))
  end.

(** [Skill.get_summary] *)
Definition get_summary (self : Skill) : str :=
  lit "**" ++ name self ++ lit "**: " ++ description self.

(** [Skill.get_full_context] *)
Definition get_full_context (self : Skill) : str :=
  let context :=
    (lit "# Skill: " ++ name self ++ [nl; nl])
    ++ (lit "Description: " ++ description self ++ [nl; nl])
    ++ content self in
  match reference_files self with
  | _ :: _ =>
      fold_left
        (fun context kv => context ++ (lit "- " ++ fst kv ++ [nl]))
        (reference_files self)
        (context ++ ([nl; nl] ++ lit "## Reference Files" ++ [nl]))
  | [] => context
  end.

(** The loop of [get_all_skills_summary], numbering from [i]. *)
Fixpoint summary_lines (i : nat) (self_skills : list Skill) (summary : str)
    : str :=
  match self_skills with
  | [] => summary
  | skill :: rest =>
      summary_lines (S i) rest
        (summary ++ (str_of_nat i ++ lit ". " ++ get_summary skill ++ [nl]))
  end.

Definition get_all_skills_summary (self_skills : list Skill) : str :=
  match self_skills with
  | [] => lit "No skills available."
  | _ :: _ => summary_lines 1 self_skills (lit "Available Skills:" ++ [nl; nl])
  end.

(** [SkillManager.get_skill_by_name] *)
Fixpoint get_skill_by_name (self_skills : list Skill) (nm : str)
    : option Skill :=
  match self_skills with
  | [] => None
  | skill :: rest =>
      if str_eqb (lower (name skill)) (lower nm) then Some skill
      else get_skill_by_name rest nm
  end.

(** *** class LocalLLMSkillsAgent *)

Record HistoryEntry := { entry_role : str; entry_content : str }.

Record LocalLLMSkillsAgent := {
  agent_skills : list Skill;
  agent_history : list HistoryEntry
}.

Record ChatReply := {
  reply_response : str;
  reply_skills_used : list str;
  reply_system_prompt : str
}.

Definition build_system_prompt (relevant_skills : list Skill) : str :=
  let system_prompt :=
    lit "You are a helpful AI assistant with access to specialized skills."
    ++ [nl; nl]
    ++ lit "When a user's request matches one of your available skills, you should reference and follow the instructions in that skill."
    ++ [nl; nl] in
  let system_prompt :=
    match relevant_skills with
    | _ :: _ =>
        fold_left
          (fun system_prompt skill =>
             system_prompt ++ (get_full_context skill ++ [nl; nl]))
          relevant_skills
          (system_prompt ++ (lit "## Active Skills" ++ [nl; nl]))
        ++ (lit "---" ++ [nl; nl])
    | [] => system_prompt
    end in
  system_prompt
  ++ (lit "Respond to the user's query using the skills above when relevant."
      ++ [nl]).

(** [LocalLLMSkillsAgent.chat], with its placeholder answer. *)
Definition local_chat (self : LocalLLMSkillsAgent) (user_message : str)
    (use_skills : bool) : ChatReply * LocalLLMSkillsAgent :=
  let relevant_skills :=
    if use_skills
    then select_relevant_skills (agent_skills self) user_message 3
    else [] in
  let system_prompt := build_system_prompt relevant_skills in
  let assistant_message :=
    lit "[This is where the LLM response would go]" ++ [nl; nl]
    ++ lit "System prompt would include:" ++ [nl]
    ++ slice_to 500 system_prompt ++ lit "..." in
  ({| reply_response := assistant_message;
      reply_skills_used := map name relevant_skills;
      reply_system_prompt := system_prompt |},
   {| agent_skills := agent_skills self;
      agent_history :=
        (agent_history self
         ++ [{| entry_role := lit "user"; entry_content := user_message |}])
        ++ [{| entry_role := lit "assistant";
               entry_content := assistant_message |}] |}).

(** [LocalLLMSkillsAgent.reset_conversation] *)
Definition reset_conversation (self : LocalLLMSkillsAgent)
    : LocalLLMSkillsAgent :=
  {| agent_skills := agent_skills self; agent_history := [] |}.

End LocalSkills.

(** ** enhanced_ollama_agent.py *)

Module Agent.

Import LocalSkills.

(** *** What the agent asks of its surroundings

    [W] is the state of everything outside the interpreter: the plots
    directory, the R installation, the Ollama server, the desktop.  Each
    operation is one call of the program; it answers with a value or
    raises.  Time stamps are seconds as rationals.  What the program
    prints and logs is left out. *)

Record CompletedProcess := {
  returncode : Z;
  stdout : str;
  stderr : str
}.

Record Message := { role : str; msg_content : str }.

Class OS (W : Type) := {
  (** [self.save_plots_to.mkdir(parents=True, exist_ok=True)], then
      [open(script_path, 'w')] and [f.write(r_code)] *)
  write_script : str -> W -> res unit * W;
  (** [subprocess.run(['Rscript', script_name], capture_output=True,
      text=True, timeout=60, cwd=...)] *)
  run_rscript : W -> res CompletedProcess * W;
  (** [self.save_plots_to.iterdir()] *)
  iterdir : W -> res (list Path);
  (** [file.is_file()] *)
  path_is_file : Path -> W -> bool;
  (** [file.stat().st_mtime] *)
  stat_mtime : Path -> W -> res Q;
  (** [os.path.getmtime(script_path)] *)
  getmtime_script : W -> res Q;
  (** [self._display_plot(plot_file)], which handles its own failures *)
  display_plot : Path -> W -> W;
  (** [ollama.chat(model=..., messages=..., options=...)] and the lookup
      [response['message']['content']] *)
  ollama_chat : str -> list Message -> Q -> W -> res str * W;
  (** [ollama.chat(..., stream=True)] and the iteration over the stream:
      the fragments received, and the exception that ended the iteration
      if one did *)
  ollama_chat_stream : str -> list Message -> Q -> W
                       -> (list str * option exn) * W
}.

(** The dictionary [_execute_r_code] returns. *)
Record ExecResult := {
  success : bool;
  error : option str;
  output : str;
  plot_files : list Path
}.

(** The dictionary [chat] and [stream_chat] return; ['r_error'] is a key
    only after a failed block. *)
Record TurnResult := {
  response : str;
  skills_used : list str;
  r_executed : bool;
  turn_plot_files : list Path;
  r_error : option (option str)
}.

Record EnhancedOllamaAgent := {
  skill_manager : option (list Skill);
  model : str;
  conversation_history : list Message;
  auto_execute_r : bool;
  auto_display_plots : bool
}.

(** [s.rfind(c)] *)
Fixpoint rfind (c : ascii) (s : str) : option nat :=
  match s with
  | [] => None
  | a :: s' =>
      match rfind c s' with
      | Some i => Some (S i)
      | None => if ascii_eqb a c then Some O else None
      end
  end.

(** [path.suffix]: the name from its last dot on, unless that dot is its
    first or its last character. *)
Definition suffix (p : Path) : str :=
  let nm := path_name p in
  match rfind "."%char nm with
  | Some i => if (0 <? i)%nat && (i <? length nm - 1)%nat then skipn i nm else []
  | None => []
  end.

(** [a < b] on time stamps *)
Definition Qltb (a b : Q) : bool := negb (Qle_bool b a).

Definition fence : str := lit "```".

(** *** The language inside the pattern

    [_extract_code_blocks] pastes [language] into its pattern as it is,
    so [re] reads the language as a piece of pattern.  A [Language] is
    that piece as [re] reads it: a sequence of characters, each standing
    for itself or, the dot, for any character, and each followed by at
    most one of the repetitions [?], [*], [+] or of their possessive forms
    [?+], [*+], [++] of Python 3.11.  [language_text] is the string the
    caller passes.  Languages with groups, sets, alternatives, anchors,
    character classes, counted or lazy repetitions, and the strings that
    [re] refuses, are not values of this type. *)
Inductive atom :=
| Lit (c : ascii)
| Dot.

Inductive repetition :=
| Once
| Optional
| ZeroOrMore
| OneOrMore
| OptionalPossessive
| ZeroOrMorePossessive
| OneOrMorePossessive.

Definition Language := list (atom * repetition).

(** The characters a pattern does not take literally. *)
Definition special (c : ascii) : bool :=
  existsb (ascii_eqb c) (lit ".^$*+?{}[]\|()").

Definition atom_text (a : atom) : str :=
  match a with
  | Lit c => if special c then ["\"%char; c] else [c]
  | Dot => lit "."
  end.

Definition repetition_text (r : repetition) : str :=
  match r with
  | Once => []
  | Optional => lit "?"
  | ZeroOrMore => lit "*"
  | OneOrMore => lit "+"
  | OptionalPossessive => lit "?+"
  | ZeroOrMorePossessive => lit "*+"
  | OneOrMorePossessive => lit "++"
  end.

Definition language_text (language : Language) : str :=
  flat_map (fun p => atom_text (fst p) ++ repetition_text (snd p)) language.

(** A language whose characters all stand for themselves, as ['r'] and
    ['python'] do. *)
Definition verbatim (t : str) : Language := map (fun c => (Lit c, Once)) t.

(** One character against an atom, under [re.IGNORECASE] and
    [re.DOTALL]. *)
Definition atom_matches (a : atom) (x : ascii) : bool :=
  match a with
  | Lit c => ascii_eqb (lower_char c) (lower_char x)
  | Dot => true
  end.

(** What is left after the longest run of [cls]: a possessive repetition
    takes the run and gives nothing back. *)
Fixpoint past_run (cls : ascii -> bool) (s : str) : str :=
  match s with
  | c :: s' => if cls c then past_run cls s' else s
  | [] => []
  end.

(** The language followed by the continuation [k], in the backtracking
    order of [re]: a repetition tries the longest run first. *)
Fixpoint language_match {A} (language : Language) (s : str)
    (k : str -> option A) : option A :=
  match language with
  | [] => k s
  | (a, r) :: language' =>
      match r with
      | Once =>
          match s with
          | x :: s' =>
              if atom_matches a x then language_match language' s' k else None
          | [] => None
          end
      | Optional =>
          match s with
          | x :: s' =>
              if atom_matches a x then
                match language_match language' s' k with
                | Some m => Some m
                | None => language_match language' s k
                end
              else language_match language' s k
          | [] => language_match language' s k
          end
      | ZeroOrMore =>
          Re.star_greedy (atom_matches a) s
            (fun rest => language_match language' rest k)
      | OneOrMore =>
          match s with
          | x :: s' =>
              if atom_matches a x then
                Re.star_greedy (atom_matches a) s'
                  (fun rest => language_match language' rest k)
              else None
          | [] => None
          end
      | OptionalPossessive =>
          match s with
          | x :: s' =>
              if atom_matches a x then language_match language' s' k
              else language_match language' s k
          | [] => language_match language' s k
          end
      | ZeroOrMorePossessive =>
          language_match language' (past_run (atom_matches a) s) k
      | OneOrMorePossessive =>
          match s with
          | x :: s' =>
              if atom_matches a x
              then language_match language' (past_run (atom_matches a) s') k
              else None
          | [] => None
          end
      end
  end.

(** The pattern of [_extract_code_blocks] at one position: the fence, the
    language and a line break, a lazy group, the fence. *)
Definition code_block_at (language : Language) (s : str)
    : option (str * str) :=
  (s1 <- Re.literal_ci fence s ;;
   language_match language s1 (fun s2 =>
   s3 <- Re.literal_ci [nl] s2 ;;
   Re.star_lazy Re.any s3 (fun body s4 =>
   s5 <- Re.literal_ci fence s4 ;;
   Some (body, s5))))%opt.

Definition _extract_code_blocks (text : str) (language : Language)
    : list str :=
  Re.findall (code_block_at language) text.

Definition plot_extensions : list str :=
  [lit ".png"; lit ".pdf"; lit ".jpg"; lit ".jpeg"; lit ".svg"].

Definition _build_system_prompt (relevant_skills : list Skill) : str :=
  let prompt := lit "You are a helpful AI assistant" in
  match relevant_skills with
  | _ :: _ =>
      fold_left
        (fun prompt skill =>
           prompt ++ (lit "### " ++ name skill ++ [nl; nl])
                  ++ (content skill ++ [nl; nl] ++ lit "---" ++ [nl; nl]))
        relevant_skills
        (prompt ++ (lit " with access to specialized skills." ++ [nl; nl])
                ++ (lit "## Active Skills" ++ [nl; nl]))
  | [] => prompt ++ lit "." ++ [nl; nl]
  end.

Section WithOS.

Context {W : Type} {os : OS W}.

(** Computations that change [W] and may raise. *)
Definition M (A : Type) := W -> res A * W.

Definition ret {A} (a : A) : M A := fun w => (Ok a, w).

Definition bind {A B} (m : M A) (k : A -> M B) : M B :=
  fun w =>
    match m w with
    | (Ok a, w') => k a w'
    | (Raise e, w') => (Raise e, w')
    end.

Definition look {A} (f : W -> res A) : M A := fun w => (f w, w).

Definition total {A} (f : W -> A * W) : M A :=
  fun w => let (a, w') := f w in (Ok a, w').

(** [try: body / except Exception as e: handler], where the handler
    returns. *)
Definition try_except {A} (body : M A) (handler : exn -> A) : W -> A * W :=
  fun w =>
    match body w with
    | (Ok a, w') => (a, w')
    | (Raise e, w') => (handler e, w')
    end.

Local Notation "x <- m ;; k" := (bind m (fun x => k))
  (at level 61, m at next level, right associativity).
Local Notation "m ;;; k" := (bind m (fun _ => k))
  (at level 61, right associativity).

(** The body of [for file in self.save_plots_to.iterdir()]. *)
Definition collect_step (plot_files : list Path) (file : Path)
    : M (list Path) :=
  fun w =>
    if path_is_file file w
       && existsb (str_eqb (lower (suffix file))) plot_extensions
    then
      (mtime <- look (stat_mtime file) ;;
       script_mtime <- look getmtime_script ;;
       if Qltb (script_mtime - 5) mtime
       then ret (plot_files ++ [file])
       else ret plot_files) w
    else ret plot_files w.

Fixpoint collect_plots (files : list Path) (plot_files : list Path)
    : M (list Path) :=
  match files with
  | [] => ret plot_files
  | file :: files' =>
      plot_files' <- collect_step plot_files file ;;
      collect_plots files' plot_files'
  end.

Definition _execute_r_code (r_code : str) : W -> ExecResult * W :=
  try_except
    (write_script r_code ;;;
     result <- run_rscript ;;
     if negb (returncode result =? 0)%Z then
       let error_message := stderr result ++ stdout result in
       ret {| success := false;
              error := Some error_message;
              output := lit "None";
              plot_files := [] |}
     else
       files <- look iterdir ;;
       plot_files <- collect_plots files [] ;;
       ret {| success := true;
              output := stdout result;
              error := None;
              plot_files := plot_files |})
    (fun e =>
       match exn_cls e with
       | TimeoutExpired =>
           {| success := false;
              error := Some (lit "R script execution timed out (60s limit)");
              output := [];
              plot_files := [] |}
       | FileNotFoundError =>
           {| success := false;
              error := Some (lit "Rscript not found. Make sure R is installed and in PATH.");
              output := [];
              plot_files := [] |}
       | _ =>
           {| success := false;
              error := Some (exn_str e);
              output := [];
              plot_files := [] |}
       end).

(** [if exec_result['plot_files'] and self.auto_display_plots:] and the
    loop that opens each plot. *)
Definition show_plots (self : EnhancedOllamaAgent) (exec_result : ExecResult)
    (w : W) : W :=
  match plot_files exec_result with
  | _ :: _ =>
      if auto_display_plots self
      then fold_left (fun w plot_file => display_plot plot_file w)
                     (plot_files exec_result) w
      else w
  | [] => w
  end.

(** The loop over [r_code_blocks] in [chat] ([record_error = true]) and in
    [stream_chat] ([record_error = false]). *)
Fixpoint run_blocks (self : EnhancedOllamaAgent) (record_error : bool)
    (r_code_blocks : list str) (result : TurnResult) (w : W)
    : TurnResult * W :=
  match r_code_blocks with
  | [] => (result, w)
  | r_code :: rest =>
      let (exec_result, w1) := _execute_r_code r_code w in
      if success exec_result then
        let result' :=
          {| response := response result;
             skills_used := skills_used result;
             r_executed := true;
             turn_plot_files := turn_plot_files result ++ plot_files exec_result;
             r_error := r_error result |} in
        run_blocks self record_error rest result' (show_plots self exec_result w1)
      else
        let result' :=
          if record_error then
            {| response := response result;
               skills_used := skills_used result;
               r_executed := r_executed result;
               turn_plot_files := turn_plot_files result;
               r_error := Some (error exec_result) |}
          else result in
        run_blocks self record_error rest result' w1
  end.

Definition select_for (self : EnhancedOllamaAgent) (user_message : str)
    : list Skill :=
  match skill_manager self with
  | Some self_skills => select_relevant_skills self_skills user_message 2
  | None => []
  end.

Definition build_messages (self : EnhancedOllamaAgent)
    (relevant_skills : list Skill) (user_message : str) : list Message :=
  {| role := lit "system";
     msg_content := _build_system_prompt relevant_skills |}
  :: conversation_history self
  ++ [{| role := lit "user"; msg_content := user_message |}].

(** [self.conversation_history.append(user); ...append(assistant)] *)
Definition record_turn (self : EnhancedOllamaAgent)
    (user_message assistant_message : str) : EnhancedOllamaAgent :=
  {| skill_manager := skill_manager self;
     model := model self;
     conversation_history :=
       (conversation_history self
        ++ [{| role := lit "user"; msg_content := user_message |}])
       ++ [{| role := lit "assistant"; msg_content := assistant_message |}];
     auto_execute_r := auto_execute_r self;
     auto_display_plots := auto_display_plots self |}.

(** What follows the model's answer in [chat] and [stream_chat]. *)
Definition after_answer (self : EnhancedOllamaAgent) (record_error : bool)
    (relevant_skills : list Skill) (user_message assistant_message : str)
    (w : W) : (TurnResult * EnhancedOllamaAgent) * W :=
  let self' := record_turn self user_message assistant_message in
  let r_code_blocks :=
    _extract_code_blocks assistant_message (verbatim (lit "r")) in
  let result :=
    {| response := assistant_message;
       skills_used := map name relevant_skills;
       r_executed := false;
       turn_plot_files := [];
       r_error := None |} in
  match r_code_blocks with
  | _ :: _ =>
      if auto_execute_r self then
        let (result', w') := run_blocks self record_error r_code_blocks result w in
        ((result', self'), w')
      else ((result, self'), w)
  | [] => ((result, self'), w)
  end.

Definition failed_turn (self : EnhancedOllamaAgent) (text : str)
    : TurnResult * EnhancedOllamaAgent :=
  ({| response := text;
      skills_used := [];
      r_executed := false;
      turn_plot_files := [];
      r_error := None |}, self).

(** [chat]: the result, and the agent with its history as the call
    leaves it.  Nothing after the model's answer raises, so the history
    the handler sees is the one the call started with. *)
Definition chat (self : EnhancedOllamaAgent) (user_message : str)
    (temperature : Q) : W -> (TurnResult * EnhancedOllamaAgent) * W :=
  let relevant_skills := select_for self user_message in
  let messages := build_messages self relevant_skills user_message in
  try_except
    (assistant_message <- ollama_chat (model self) messages temperature ;;
     total (after_answer self true relevant_skills user_message
              assistant_message))
    (fun e => failed_turn self (lit "Error: " ++ exn_str e)).

(** [stream_chat]; [full_response] is what had been received when the
    stream ended or failed. *)
Definition stream_chat (self : EnhancedOllamaAgent) (user_message : str)
    (temperature : Q) (w : W) : (TurnResult * EnhancedOllamaAgent) * W :=
  let relevant_skills := select_for self user_message in
  let messages := build_messages self relevant_skills user_message in
  let '((chunks, failure), w1) :=
    ollama_chat_stream (model self) messages temperature w in
  let full_response := concat chunks in
  match failure with
  | None =>
      after_answer self false relevant_skills user_message full_response w1
  | Some e =>
      (failed_turn self
         (match full_response with
          | _ :: _ => full_response
          | [] => lit "Error: " ++ exn_str e
          end), w1)
  end.

(** [reset] *)
Definition reset (self : EnhancedOllamaAgent) : EnhancedOllamaAgent :=
  {| skill_manager := skill_manager self;
     model := model self;
     conversation_history := [];
     auto_execute_r := auto_execute_r self;
     auto_display_plots := auto_display_plots self |}.

(** The [/toggle] command of [interactive_mode]. *)
Definition toggle (self : EnhancedOllamaAgent) : EnhancedOllamaAgent :=
  {| skill_manager := skill_manager self;
     model := model self;
     conversation_history := conversation_history self;
     auto_execute_r := negb (auto_execute_r self);
     auto_display_plots := auto_display_plots self |}.

(** One round of the loop of [interactive_mode] on the line [input()]
    returned: whether the loop goes on, the agent and the world.  The
    temperature is the default of [stream_chat]. *)
Definition interactive_round (agent : EnhancedOllamaAgent) (line : str)
    (w : W) : (bool * EnhancedOllamaAgent) * W :=
  let user_input := strip line in
  match user_input with
  | [] => ((true, agent), w)
  | _ :: _ =>
      if str_eqb user_input (lit "/quit") then ((false, agent), w)
      else if str_eqb user_input (lit "/reset") then ((true, reset agent), w)
      else if str_eqb user_input (lit "/skills") then ((true, agent), w)
      else if str_eqb user_input (lit "/plots") then ((true, agent), w)
      else if str_eqb user_input (lit "/toggle") then ((true, toggle agent), w)
      else
        let '((_, agent'), w') := stream_chat agent user_input 0.7 w in
        ((true, agent'), w')
  end.

(** The loop of [interactive_mode] over the lines read, up to [/quit] or
    the last line given. *)
Fixpoint interactive_rounds (agent : EnhancedOllamaAgent) (lines : list str)
    (w : W) : (bool * EnhancedOllamaAgent) * W :=
  match lines with
  | [] => ((true, agent), w)
  | line :: rest =>
      let '((go_on, agent'), w') := interactive_round agent line w in
      if go_on then interactive_rounds agent' rest w'
      else ((false, agent'), w')
  end.

End WithOS.

End Agent.

(** ** A small simulated machine

    An instance of [Agent.OS] to run the agent on: a plots directory, a
    toy [Rscript] that understands three kinds of script, and a canned
    model answer. *)

Module Sim.

Import LocalSkills Agent.

Record world := {
  script : option (str * Q);          (** [temp_script.R] and its mtime *)
  files : list (Path * (bool * Q));   (** other entries: regular?, mtime *)
  clock : Q;
  r_installed : bool;
  ran : list str;                     (** scripts run so far, oldest first *)
  shown : list Path;                  (** plots opened in a viewer *)
  answers : res str;                  (** what [ollama.chat] does *)
  streams : list str * option exn     (** what the stream does *)
}.

Definition script_path : Path := [lit "plots"; lit "temp_script.R"].

Definition sim_write_script (r_code : str) (w : world) : res unit * world :=
  (Ok tt,
   {| script := Some (r_code, clock w);
      files := files w;
      clock := clock w;
      r_installed := r_installed w;
      ran := ran w;
      shown := shown w;
      answers := answers w;
      streams := streams w |}).

Definition after_run (w : world) (r_code : str)
    (new_script : option (str * Q)) (new_files : list (Path * (bool * Q)))
    : world :=
  {| script := new_script;
     files := files w ++ new_files;
     clock := clock w + 1;
     r_installed := r_installed w;
     ran := ran w ++ [r_code];
     shown := shown w;
     answers := answers w;
     streams := streams w |}.

(** The toy interpreter: [stop(] fails, [Sys.sleep(] never ends, [png(]
    writes [plot.png]. *)
Definition sim_run_rscript (w : world) : res CompletedProcess * world :=
  if negb (r_installed w) then
    (Raise (Exn FileNotFoundError (lit "No such file or directory: 'Rscript'")), w)
  else
    match script w with
    | None =>
        (Ok {| returncode := 2; stdout := [];
               stderr := lit "Fatal error: cannot open file 'temp_script.R'" |}, w)
    | Some (r_code, mtime) =>
        if contains (lit "Sys.sleep(") r_code then
          (Raise (Exn TimeoutExpired (lit "Command timed out after 60 seconds")),
           after_run w r_code (script w) [])
        else if contains (lit "stop(") r_code then
          (Ok {| returncode := 1; stdout := lit "Loading. ";
                 stderr := lit "Error: execution halted" |},
           after_run w r_code (script w) [])
        else
          (Ok {| returncode := 0; stdout := lit "[1] done"; stderr := [] |},
           after_run w r_code (script w)
             (if contains (lit "png(") r_code
              then [([lit "plots"; lit "plot.png"], (true, (clock w + 1)%Q))]
              else []))
    end.

Definition sim_entries (w : world) : list (Path * (bool * Q)) :=
  match script w with
  | Some (_, mtime) => (script_path, (true, mtime)) :: files w
  | None => files w
  end.

Fixpoint lookup_path (p : Path) (l : list (Path * (bool * Q)))
    : option (bool * Q) :=
  match l with
  | [] => None
  | (q, v) :: l' =>
      if str_eqb (str_of_path q) (str_of_path p) then Some v
      else lookup_path p l'
  end.

Definition sim_stat (p : Path) (w : world) : res Q :=
  match lookup_path p (sim_entries w) with
  | Some (_, mtime) => Ok mtime
  | None => Raise (Exn FileNotFoundError (str_of_path p))
  end.

#[export] Instance sim_os : OS world := {
  write_script := sim_write_script;
  run_rscript := sim_run_rscript;
  iterdir := fun w => Ok (map fst (sim_entries w));
  path_is_file := fun p w =>
    match lookup_path p (sim_entries w) with
    | Some (regular, _) => regular
    | None => false
    end;
  stat_mtime := sim_stat;
  getmtime_script := sim_stat script_path;
  display_plot := fun p w =>
    {| script := script w; files := files w; clock := clock w;
       r_installed := r_installed w; ran := ran w;
       shown := shown w ++ [p];
       answers := answers w; streams := streams w |};
  ollama_chat := fun _ _ _ w => (answers w, w);
  ollama_chat_stream := fun _ _ _ w => (streams w, w)
}.

Definition boot (reply : res str) (stream : list str * option exn) : world :=
  {| script := None; files := []; clock := 100; r_installed := true;
     ran := []; shown := []; answers := reply; streams := stream |}.

Definition agent0 (skills : list Skill) (execute : bool)
    : EnhancedOllamaAgent :=
  {| skill_manager := Some skills;
     model := lit "llama3";
     conversation_history := [];
     auto_execute_r := execute;
     auto_display_plots := true |}.

End Sim.

(** ** Surroundings with fixed answers

    A second instance of [Agent.OS]: every call gets the answer written
    down for it, and nothing changes. *)

Module Canned.

Import LocalSkills Agent.

Record answers := {
  on_write : res unit;
  on_run : res CompletedProcess;
  on_iterdir : res (list Path);
  regular_files : list (Path * res Q);   (** regular files, with [st_mtime] *)
  on_getmtime_script : res Q;
  on_chat : res str;
  on_stream : list str * option exn
}.

Fixpoint file_mtime (p : Path) (l : list (Path * res Q)) : option (res Q) :=
  match l with
  | [] => None
  | (q, m) :: l' =>
      if str_eqb (str_of_path q) (str_of_path p) then Some m
      else file_mtime p l'
  end.

#[export] Instance canned_os : OS answers := {
  write_script := fun _ w => (on_write w, w);
  run_rscript := fun w => (on_run w, w);
  iterdir := on_iterdir;
  path_is_file := fun p w =>
    match file_mtime p (regular_files w) with
    | Some _ => true
    | None => false
    end;
  stat_mtime := fun p w =>
    match file_mtime p (regular_files w) with
    | Some m => m
    | None => Raise (Exn FileNotFoundError (str_of_path p))
    end;
  getmtime_script := on_getmtime_script;
  display_plot := fun _ w => w;
  ollama_chat := fun _ _ _ w => (on_chat w, w);
  ollama_chat_stream := fun _ _ _ w => (on_stream w, w)
}.

End Canned.

(** ** Notions used in the statements *)

Module Notions.

Import LocalSkills Agent.

(** Ranked by score, highest first. *)
Definition desc {A} (a b : nat * A) : Prop := fst b <= fst a.




(** A tree with the content of every file made unreadable. *)
Fixpoint blank (n : node) : node :=
  match n with
  | File _ => File Undecodable
  | Dir entries => Dir (map (fun e => (fst e, blank (snd e))) entries)
  end.

(** The entries of a skill directory with the content of every file but
    the manifest made unreadable. *)
Definition blank_references (entries : list (str * node))
    : list (str * node) :=
  map (fun e => if str_eqb (fst e) SKILL_md then e else (fst e, blank (snd e)))
      entries.

(** A reference file the walk of [_load_skill] indexes. *)
Definition indexed (e : Path * node) : bool :=
  is_file (snd e) && negb (str_eqb (path_name (fst e)) SKILL_md).

(** The key and the value it is indexed under. *)
Definition entry_of (skill_path : Path) (e : Path * node) : str * Path :=
  (str_of_path (fst e), skill_path ++ fst e).

(** The path of an entry and whether it is a regular file. *)
Definition kind_of (e : Path * node) : Path * bool := (fst e, is_file (snd e)).

(** No two of the strings are equal: in a directory tree, different
    entries have different paths. *)
Fixpoint distinct (l : list str) : bool :=
  match l with
  | [] => true
  | x :: l' => negb (existsb (str_eqb x) l') && distinct l'
  end.

Definition distinct_paths (entries : list (str * node)) : bool :=
  distinct (map (fun e => str_of_path (fst e)) (rglob entries)).

(** *** Texts with fenced code blocks *)

(** The opening fence of a block in [language]. *)
Definition opener (language : str) : str := fence ++ language ++ [nl].

(** A block and the text between it and the next. *)
Record Block := { tag : str; body : str; after : str }.

Fixpoint blocks_text (blocks : list Block) : str :=
  match blocks with
  | [] => []
  | b :: blocks' =>
      fence ++ tag b ++ [nl] ++ body b ++ fence ++ after b ++ blocks_text blocks'
  end.

Definition document (before : str) (blocks : list Block) : str :=
  before ++ blocks_text blocks.








(** A language in which every character stands for itself: the pattern
    reads it as it is written. *)
Definition plain (language : str) : bool :=
  forallb (fun c => negb (special c)) language.

(** The pattern at one position for such a language: the opening fence
    as one literal, a lazy group, the fence. *)
Definition block_at (language : str) (s : str) : option (str * str) :=
  (s1 <- Re.literal_ci (opener language) s ;;
   Re.star_lazy Re.any s1 (fun body s2 =>
   s3 <- Re.literal_ci fence s2 ;;
   Some (body, s3)))%opt.

(** *** Running scripts *)

Section WithOS.

Context {W : Type} {os : OS W}.

(** A directory entry that the scan after a run collects. *)
Definition collected (w : W) (file : Path) : bool :=
  path_is_file file w
  && existsb (str_eqb (lower (suffix file))) plot_extensions
  && match stat_mtime file w, getmtime_script w with
     | Ok mtime, Ok script_mtime => Qltb (script_mtime - 5) mtime
     | _, _ => false
     end.

(** Every block run in turn, whatever the outcome of the ones before: the
    results in order, and the world after the last. *)
Fixpoint executions (self : EnhancedOllamaAgent) (r_code_blocks : list str)
    (w : W) : list ExecResult * W :=
  match r_code_blocks with
  | [] => ([], w)
  | r_code :: rest =>
      let (exec_result, w1) := _execute_r_code r_code w in
      let w2 := if success exec_result
                then show_plots self exec_result w1 else w1 in
      let (results, w') := executions self rest w2 in
      (exec_result :: results, w')
  end.

(** The error of the last failed run, as [chat] keeps it. *)
Definition last_error (results : list ExecResult) : option (option str) :=
  match rev (filter (fun r => negb (success r)) results) with
  | r :: _ => Some (error r)
  | [] => None
  end.

End WithOS.

(** *** Manifests *)

(** A manifest with the frontmatter [fm] and the body [text]. *)
Definition render_manifest (fm text : str) : str :=
  lit "---" ++ [nl] ++ fm ++ [nl] ++ lit "---" ++ [nl] ++ text.

(** The text does not begin with white space. *)
Definition starts_plain (s : str) : bool :=
  match s with
  | [] => true
  | c :: _ => negb (is_space c)
  end.

(** A frontmatter that begins with a visible character and in which no
    line begins with three dashes. *)
Definition plain_frontmatter (fm : str) : bool :=
  match fm with
  | [] => false
  | c :: _ => negb (is_space c)
  end
  && negb (contains (nl :: lit "---") (fm ++ nl :: lit "--")).

(** *** Failures, prompts and histories *)

(** The result [_execute_r_code] builds for an exception raised inside
    its [try]. *)
Definition failure_of (e : exn) : ExecResult :=
  {| success := false;
     error := Some (match exn_cls e with
                    | TimeoutExpired =>
                        lit "R script execution timed out (60s limit)"
                    | FileNotFoundError =>
                        lit "Rscript not found. Make sure R is installed and in PATH."
                    | _ => exn_str e
                    end);
     output := [];
     plot_files := [] |}.

(** An entry that the scan after a run has to date. *)
Definition candidate {W : Type} {os : OS W} (w : W) (file : Path) : bool :=
  path_is_file file w
  && existsb (str_eqb (lower (suffix file))) plot_extensions.

(** The scan after a run can be carried out: the directory can be
    listed, and whenever the scan has to date an entry, the entry and the
    script file have a time stamp. *)
Definition datable {W : Type} {os : OS W} (w : W) (file : Path) : Prop :=
  candidate w file = true ->
  (exists mtime, stat_mtime file w = Ok mtime)
  /\ (exists script_mtime, getmtime_script w = Ok script_mtime).

Definition scannable {W : Type} {os : OS W} (w : W) : Prop :=
  exists files,
    iterdir w = Ok files /\ forall file, In file files -> datable w file.

(** The part of the system prompt for one skill. *)
Definition skill_section (skill : Skill) : str :=
  (lit "### " ++ name skill ++ [nl; nl])
  ++ (content skill ++ [nl; nl] ++ lit "---" ++ [nl; nl]).

Definition user_says (text : str) : Message :=
  {| role := lit "user"; msg_content := text |}.

Definition assistant_says (text : str) : Message :=
  {| role := lit "assistant"; msg_content := text |}.

(** A history of whole turns: a user message, the answer to it, and so
    on. *)
Fixpoint paired (history : list Message) : bool :=
  match history with
  | [] => true
  | u :: a :: rest =>
      str_eqb (role u) (lit "user") && str_eqb (role a) (lit "assistant")
      && paired rest
  | [_] => false
  end.

(** What a caller can do with an agent. *)
Inductive command :=
| DoChat (user_message : str) (temperature : Q)
| DoStreamChat (user_message : str) (temperature : Q)
| DoReset.

Definition run_command {W : Type} {os : OS W} (self : EnhancedOllamaAgent)
    (c : command) (w : W) : EnhancedOllamaAgent * W :=
  match c with
  | DoChat m t => let '((_, self'), w') := chat self m t w in (self', w')
  | DoStreamChat m t =>
      let '((_, self'), w') := stream_chat self m t w in (self', w')
  | DoReset => (reset self, w)
  end.

Fixpoint run_commands {W : Type} {os : OS W} (self : EnhancedOllamaAgent)
    (cs : list command) (w : W) : EnhancedOllamaAgent * W :=
  match cs with
  | [] => (self, w)
  | c :: cs' =>
      let (self', w') := run_command self c w in run_commands self' cs' w'
  end.

(** One line of [get_all_skills_summary], and the lines for a run of
    skills numbered from [i]. *)
Definition summary_line (i : nat) (skill : Skill) : str :=
  str_of_nat i ++ lit ". " ++ lit "**" ++ name skill ++ lit "**: "
  ++ description skill ++ [nl].

Fixpoint numbered (i : nat) (skills : list Skill) : str :=
  match skills with
  | [] => []
  | skill :: rest => summary_line i skill ++ numbered (S i) rest
  end.

(** The entries [LocalLLMSkillsAgent.chat] appends to the history. *)
Definition user_entry (text : str) : HistoryEntry :=
  {| entry_role := lit "user"; entry_content := text |}.

Definition assistant_entry (text : str) : HistoryEntry :=
  {| entry_role := lit "assistant"; entry_content := text |}.

(** A line on which the loop of [interactive_mode] only prints: nothing
    but whitespace, [/skills] or [/plots]. *)
Definition idle_line (line : str) : bool :=
  match strip line with
  | [] => true
  | _ :: _ =>
      str_eqb (strip line) (lit "/skills") || str_eqb (strip line) (lit "/plots")
  end.

End Notions.

(** ** Sample data *)

Module Demo.

Import LocalSkills Agent.

Definition skill (dir nm descr : string) : Skill :=
  {| path := [lit "skills"; lit dir];
     name := lit nm;
     description := lit descr;
     content := lit "Follow the steps.";
     reference_files := [] |}.

Definition sales_report : Skill :=
  skill "sales-report" "sales-report" "Quarterly sales figures as a report".

Definition plotting : Skill :=
  skill "plotting" "Plotting" "Create a plot or chart in R".

Definition sales_chart : Skill :=
  skill "sales-chart" "sales-chart" "Chart of sales".

Definition registry : list Skill := [plotting; sales_report; sales_chart].

Definition query : str := lit "Create a SALES report  for Q4".

(** A name and a description that only together spell a word. *)
Definition split_word : Skill := skill "split" "sales" "report".

(** A stand-in for PyYAML: [key: value] lines make a mapping, an empty
    text is [None], anything else is a syntax error. *)
Fixpoint lines (cur : str) (s : str) : list str :=
  match s with
  | [] => [rev cur]
  | c :: s' => if ascii_eqb c nl then rev cur :: lines [] s' else lines (c :: cur) s'
  end.

Fixpoint key_value (key : str) (s : str) : option (str * str) :=
  match s with
  | [] => None
  | c :: s' =>
      if ascii_eqb c ":"%char then
        match s' with
        | d :: v => if ascii_eqb d " "%char then Some (rev key, v) else None
        | [] => None
        end
      else key_value (c :: key) s'
  end.

Fixpoint fields_of (ls : list str) : option (dict str) :=
  match ls with
  | [] => Some []
  | l :: ls' =>
      match key_value [] l, fields_of ls' with
      | Some kv, Some d => Some (kv :: d)
      | _, _ => None
      end
  end.

Definition toy_yaml (s : str) : res yaml_doc :=
  match s with
  | [] => Ok YOther
  | _ =>
      match fields_of (lines [] s) with
      | Some d => Ok (YMapping d)
      | None => Raise (Exn OtherException (lit "could not find expected ':'"))
      end
  end.

Definition manifest : str :=
  lit "---" ++ [nl] ++ lit "name: Plotting" ++ [nl]
  ++ lit "description: Create a plot in R" ++ [nl] ++ lit "---" ++ [nl]
  ++ lit "Use ggplot2.".

Definition plotting_dir : list (str * node) :=
  [(lit "SKILL.md", File (Text manifest));
   (lit "refs",
    Dir [(lit "palette.txt", File (Text (lit "viridis")));
         (lit "logo.png", File Undecodable);
         (lit "SKILL.md", File (Text (lit "a second manifest")))])].

Definition broken_dir : list (str * node) :=
  [(lit "SKILL.md", File Undecodable)].

Definition plain_dir : list (str * node) :=
  [(lit "SKILL.md", File (Text (lit "Just a body.")));
   (lit "notes.md", File (Text (lit "remember")))].

Definition skills_root : list (str * node) :=
  [(lit "plotting", Dir plotting_dir);
   (lit "broken", Dir broken_dir);
   (lit "README.txt", File (Text (lit "skills live here")));
   (lit "empty", Dir []);
   (lit "plain", Dir plain_dir)].

Definition cwd : node := Dir [(lit "skills", Dir skills_root)].

(** A directory without a skills directory, and one where [skills] is a
    regular file. *)
Definition bare : node := Dir [(lit "README.md", File (Text (lit "hello")))].


(** An answer of the model with two R blocks and a Python block. *)
Definition r_blocks : list Notions.Block :=
  [{| Notions.tag := lit "r";
      Notions.body := lit "png('a.png'); plot(1)" ++ [nl];
      Notions.after := [nl] ++ lit "or in Python:" ++ [nl] ++ lit "```python" ++ [nl]
                       ++ lit "plt.plot(x)" ++ [nl] ++ lit "```" ++ [nl] |};
   {| Notions.tag := lit "R";
      Notions.body := lit "stop('no data')" ++ [nl];
      Notions.after := [nl] ++ lit "Done." |}].

Definition answer : str :=
  Notions.document (lit "Here is the plot:" ++ [nl]) r_blocks.



(** The machine when the model answers, and when the server is down. *)
Definition machine : Sim.world := Sim.boot (Ok answer) ([answer], None).

Definition refused : exn := Exn OtherException (lit "connection refused").

Definition offline : Sim.world := Sim.boot (Raise refused) ([], Some refused).

(** A stream that breaks after two fragments. *)
Definition broken_stream : Sim.world :=
  Sim.boot (Raise refused) ([lit "Here is "; lit "the pl"], Some refused).

Definition plot_script : str := lit "png('a.png'); plot(1)".

(** An agent with the sample registry, one that runs R code and one that
    does not. *)
Definition agent : EnhancedOllamaAgent := Sim.agent0 registry true.

Definition idle_agent : EnhancedOllamaAgent := Sim.agent0 registry false.

Definition temperature : Q := 0.7.

(** An answer with one block that plots, and one with a block that
    stops. *)
Definition plot_answer : str :=
  lit "Sure:" ++ [nl] ++ lit "```r" ++ [nl] ++ lit "png('plot.png'); plot(x, x^2)"
  ++ [nl] ++ lit "```" ++ [nl].

Definition stop_answer : str :=
  lit "```r" ++ [nl] ++ lit "stop('no such column')" ++ [nl] ++ lit "```".


Definition endless_script : str := lit "Sys.sleep(3600)".

Definition plotting_path : Path := [lit "skills"; lit "plotting"].

Definition loaded_plotting : Skill :=
  {| path := plotting_path;
     name := lit "Plotting";
     description := lit "Create a plot in R";
     content := lit "Use ggplot2.";
     reference_files :=
       [(lit "refs/palette.txt", plotting_path ++ [lit "refs"; lit "palette.txt"]);
        (lit "refs/logo.png", plotting_path ++ [lit "refs"; lit "logo.png"])] |}.

(** Surroundings in which the plots directory cannot be made, and ones
    in which a script has removed itself after drawing a plot. *)
Definition no_such_directory : exn :=
  Exn FileNotFoundError (lit "No such file or directory: 'plots/temp_script.R'").

Definition unwritable : Canned.answers :=
  {| Canned.on_write := Raise no_such_directory;
     Canned.on_run := Raise refused;
     Canned.on_iterdir := Ok [];
     Canned.regular_files := [];
     Canned.on_getmtime_script := Raise no_such_directory;
     Canned.on_chat := Ok plot_answer;
     Canned.on_stream := ([plot_answer], None) |}.

Definition script_gone : Canned.answers :=
  {| Canned.on_write := Ok tt;
     Canned.on_run := Ok {| returncode := 0; stdout := lit "null device"; stderr := [] |};
     Canned.on_iterdir := Ok [[lit "plots"; lit "notes.txt"];
                              [lit "plots"; lit "plot.png"]];
     Canned.regular_files := [([lit "plots"; lit "notes.txt"], Ok 90%Q);
                              ([lit "plots"; lit "plot.png"], Ok 101%Q)];
     Canned.on_getmtime_script := Raise no_such_directory;
     Canned.on_chat := Ok plot_answer;
     Canned.on_stream := ([plot_answer], None) |}.

End Demo.

(** * Properties *)

(** ** Text *)

Lemma ascii_eqb_eq (a b : ascii) : ascii_eqb a b = true <-> a = b.
Proof. apply Ascii.eqb_eq. Qed.

Lemma startswith_app (p s : str) : startswith p (p ++ s) = true.
Proof.
  induction p as [|a p IH]; simpl; [reflexivity|].
  rewrite IH, andb_true_r. now apply ascii_eqb_eq.
Qed.

Lemma startswith_inv (p s : str) :
  startswith p s = true -> exists t, s = p ++ t.
Proof.
  revert s; induction p as [|a p IH]; intros s H.
  - now exists s.
  - destruct s as [|b s]; simpl in H; [discriminate|].
    apply andb_true_iff in H as [Hab Hps].
    apply ascii_eqb_eq in Hab; subst b.
    destruct (IH _ Hps) as [t ->]. now exists t.
Qed.

Lemma str_eqb_eq (a b : str) : str_eqb a b = true <-> a = b.
Proof.
  unfold str_eqb; split.
  - intros H. apply andb_true_iff in H as [Hlen Hpre].
    apply Nat.eqb_eq in Hlen.
    destruct (startswith_inv _ _ Hpre) as [t ->].
    rewrite length_app in Hlen.
    destruct t; [now rewrite app_nil_r | simpl in Hlen; lia].
  - intros ->. rewrite Nat.eqb_refl. simpl.
    rewrite <- (app_nil_r b) at 2. apply startswith_app.
Qed.

Lemma str_eqb_refl (a : str) : str_eqb a a = true.
Proof. now apply str_eqb_eq. Qed.

Lemma str_eqb_neq (a b : str) : str_eqb a b = false <-> a <> b.
Proof.
  split.
  - intros H E. apply str_eqb_eq in E. congruence.
  - intros H. destruct (str_eqb a b) eqn:E; [|reflexivity].
    apply str_eqb_eq in E. contradiction.
Qed.

Lemma contains_startswith (p s : str) :
  startswith p s = true -> contains p s = true.
Proof. intros H. destruct s; simpl; now rewrite H. Qed.

Lemma contains_spec (p s : str) :
  contains p s = true <-> exists a b, s = a ++ p ++ b.
Proof.
  split.
  - induction s as [|c s IH]; simpl; intros H.
    + rewrite orb_false_r in H.
      destruct (startswith_inv _ _ H) as [t Ht]. now exists [], t.
    + apply orb_true_iff in H as [H|H].
      * destruct (startswith_inv _ _ H) as [t Ht]. now exists [], t.
      * destruct (IH H) as (a & b & ->). now exists (c :: a), b.
  - intros (a & b & ->). induction a as [|c a IH]; simpl.
    + apply contains_startswith, startswith_app.
    + rewrite IH. apply orb_true_r.
Qed.

Lemma is_space_lower_char (c : ascii) : is_space (lower_char c) = is_space c.
Proof. destruct c as [[] [] [] [] [] [] [] []]; reflexivity. Qed.

Lemma length_lower (s : str) : length (lower s) = length s.
Proof. apply length_map. Qed.

(** Lower-casing and splitting commute: the program lower-cases the query
    and then splits it. *)
Lemma split_lower (s : str) : split (lower s) = map lower (split s).
Proof.
  induction s as [|c s IH]; [reflexivity|].
  cbn [lower map split]. fold (lower s).
  rewrite is_space_lower_char.
  destruct (is_space c); [exact IH|].
  destruct s as [|d s]; [reflexivity|].
  cbn [lower map]. fold (lower s). rewrite is_space_lower_char.
  cbn [lower map] in IH. fold (lower s) in IH.
  destruct (is_space d).
  - cbn [map]. now rewrite <- IH.
  - rewrite IH. now destruct (split (d :: s)).
Qed.

(** The words of [split] are non-empty and free of white space, and
    together they are the non-white characters of the text. *)
Lemma split_words (s : str) :
  Forall (fun t => t <> [] /\ forallb (fun c => negb (is_space c)) t = true)
         (split s).
Proof.
  induction s as [|c s IH]; [constructor|].
  cbn [split]. destruct (is_space c) eqn:Hc; [exact IH|].
  destruct s as [|d s].
  - constructor; [|constructor]. split; [discriminate|]. simpl. now rewrite Hc.
  - destruct (is_space d) eqn:Hd.
    + constructor; [|exact IH]. split; [discriminate|]. simpl. now rewrite Hc.
    + destruct (split (d :: s)) as [|t ts].
      * constructor; [|constructor]. split; [discriminate|]. simpl. now rewrite Hc.
      * inversion IH as [|? ? [Ht1 Ht2] Hts]; subst.
        constructor; [|exact Hts]. split; [discriminate|].
        simpl. now rewrite Hc, Ht2.
Qed.

Lemma split_concat (s : str) :
  concat (split s) = filter (fun c => negb (is_space c)) s.
Proof.
  induction s as [|c s IH]; [reflexivity|].
  cbn [split filter]. destruct (is_space c) eqn:Hc; [exact IH|].
  cbn [negb]. destruct s as [|d s]; [reflexivity|].
  destruct (is_space d) eqn:Hd.
  - cbn [concat app]. now rewrite IH.
  - rewrite <- IH. destruct (split (d :: s)) as [|t ts] eqn:E; [|reflexivity].
    exfalso. cbn [split] in E. rewrite Hd in E.
    destruct s as [|e s]; [discriminate|].
    destruct (is_space e); [discriminate|].
    now destruct (split (e :: s)).
Qed.

(** ** local_skills.py: select_relevant_skills *)

Section Selection.

Import LocalSkills Notions.

Lemma count_fold {A} (P : A -> bool) (l : list A) (n : nat) :
  fold_left (fun score x => if P x then S score else score) l n
  = n + length (filter P l).
Proof.
  revert n; induction l as [|x l IH]; intros n; simpl; [lia|].
  rewrite IH. destruct (P x); simpl; lia.
Qed.

Lemma length_filter_map {A B} (f : A -> B) (P : B -> bool) (l : list A) :
  length (filter P (map f l)) = length (filter (fun x => P (f x)) l).
Proof.
  induction l as [|x l IH]; simpl; [reflexivity|].
  destruct (P (f x)); simpl; now rewrite IH.
Qed.

(** The score in the order the words of the query are read: split, drop
    the words of at most three characters, lower-case, and count those
    found in the lower-cased text of the skill. *)
Lemma skill_score_spec (q : str) (sk : Skill) :
  skill_score (lower q) sk
  = length (filter
              (fun t => (3 <? length t)
                        && contains (lower t)
                             (lower (name sk ++ lit " " ++ description sk)))
              (split q)).
Proof.
  unfold skill_score. rewrite count_fold, split_lower, length_filter_map.
  simpl. f_equal. apply filter_ext. intros t. now rewrite length_lower.
Qed.

Lemma scored_fold (sc : Skill -> nat) (l : list Skill) (acc : list (nat * Skill)) :
  fold_left
    (fun scored skill =>
       let score := sc skill in
       if 0 <? score then scored ++ [(score, skill)] else scored) l acc
  = acc ++ map (fun sk => (sc sk, sk)) (filter (fun sk => 0 <? sc sk) l).
Proof.
  revert acc; induction l as [|x l IH]; intros acc; simpl.
  - now rewrite app_nil_r.
  - rewrite IH. destruct (0 <? sc x); simpl; [|reflexivity].
    now rewrite <- app_assoc.
Qed.

Lemma insert_desc_perm {A} (x : nat * A) (l : list (nat * A)) :
  Permutation (insert_desc x l) (x :: l).
Proof.
  induction l as [|y l IH]; simpl; [reflexivity|].
  destruct (fst x <? fst y); [|reflexivity].
  rewrite IH. apply perm_swap.
Qed.

Lemma sort_reverse_perm {A} (l : list (nat * A)) :
  Permutation (sort_reverse l) l.
Proof.
  induction l as [|x l IH]; simpl; [reflexivity|].
  rewrite insert_desc_perm. now constructor.
Qed.

Lemma insert_desc_sorted {A} (x : nat * A) (l : list (nat * A)) :
  StronglySorted desc l -> StronglySorted desc (insert_desc x l).
Proof.
  induction 1 as [|y l Hl IH Hy]; simpl.
  - repeat constructor.
  - destruct (fst x <? fst y) eqn:E.
    + apply Nat.ltb_lt in E. constructor; [exact IH|].
      eapply Permutation_Forall; [symmetry; apply insert_desc_perm|].
      constructor; [unfold desc; lia | exact Hy].
    + apply Nat.ltb_ge in E. constructor.
      * now constructor.
      * constructor; [exact E|].
        eapply Forall_impl; [|exact Hy]. unfold desc. intros; lia.
Qed.

Lemma sort_reverse_sorted {A} (l : list (nat * A)) :
  StronglySorted desc (sort_reverse l).
Proof.
  induction l as [|x l IH]; simpl; [constructor|].
  now apply insert_desc_sorted.
Qed.

(** Stability: the elements of one score keep their order. *)
Lemma insert_desc_stable {A} (k : nat) (x : nat * A) (l : list (nat * A)) :
  filter (fun p => fst p =? k) (insert_desc x l)
  = filter (fun p => fst p =? k) (x :: l).
Proof.
  induction l as [|y l IH]; [reflexivity|].
  cbn [insert_desc]. destruct (fst x <? fst y) eqn:E; [|reflexivity].
  apply Nat.ltb_lt in E. cbn [filter] in *. rewrite IH.
  destruct (fst x =? k) eqn:Ex, (fst y =? k) eqn:Ey; try reflexivity.
  apply Nat.eqb_eq in Ex, Ey. lia.
Qed.

Lemma sort_reverse_stable {A} (k : nat) (l : list (nat * A)) :
  filter (fun p => fst p =? k) (sort_reverse l)
  = filter (fun p => fst p =? k) l.
Proof.
  induction l as [|x l IH]; [reflexivity|].
  cbn [sort_reverse fold_right]. fold (sort_reverse l).
  rewrite insert_desc_stable. cbn [filter]. now rewrite IH.
Qed.

Lemma slice_to_nonneg {A} (k : Z) (l : list A) :
  (0 <= k)%Z -> slice_to k l = firstn (Z.to_nat k) l.
Proof.
  intros Hk. unfold slice_to.
  destruct (k <? 0)%Z eqn:E; [apply Z.ltb_lt in E; lia|].
  destruct (Z.le_gt_cases k (Z.of_nat (length l))) as [H|H].
  - now rewrite Z.min_l.
  - rewrite Z.min_r, Nat2Z.id by lia.
    rewrite firstn_all. symmetry. apply firstn_all2. lia.
Qed.

Lemma In_firstn {A} (x : A) (n : nat) (l : list A) :
  In x (firstn n l) -> In x l.
Proof.
  intros H. rewrite <- (firstn_skipn n l). apply in_or_app. now left.
Qed.

Lemma keyed_sorted (sc : Skill -> nat) (l : list (nat * Skill)) :
  Forall (fun p => fst p = sc (snd p)) l ->
  StronglySorted desc l ->
  StronglySorted (fun a b => sc b <= sc a) (map snd l).
Proof.
  intros Hkey Hs. induction Hs as [|p l Hl IH Hp]; simpl; [constructor|].
  inversion Hkey as [|? ? Hk Hkl]; subst.
  constructor; [now apply IH|].
  apply Forall_map. rewrite Forall_forall in *.
  intros q Hq. unfold desc in Hp.
  specialize (Hp q Hq). specialize (Hkl q Hq). lia.
Qed.

Lemma keyed_filter (sc : Skill -> nat) (n : nat) (l : list (nat * Skill)) :
  Forall (fun p => fst p = sc (snd p)) l ->
  filter (fun sk => sc sk =? n) (map snd l)
  = map snd (filter (fun p => fst p =? n) l).
Proof.
  induction 1 as [|p l Hp Hl IH]; simpl; [reflexivity|].
  rewrite <- Hp, IH. now destruct (fst p =? n).
Qed.

Lemma keyed_pairs (sc : Skill -> nat) (l : list Skill) :
  Forall (fun p => fst p = sc (snd p)) (map (fun sk => (sc sk, sk)) l).
Proof. apply Forall_map, Forall_forall. reflexivity. Qed.

Lemma select_relevant_skills_eq (self_skills : list Skill) (q : str) (k : Z) :
  select_relevant_skills self_skills q k
  = map snd
      (slice_to k
         (sort_reverse
            (map (fun sk => (skill_score (lower q) sk, sk))
               (filter (fun sk => 0 <? skill_score (lower q) sk) self_skills)))).
Proof.
  unfold select_relevant_skills. destruct self_skills as [|s l].
  - unfold slice_to. cbn [filter map sort_reverse fold_right].
    now rewrite firstn_nil.
  - now rewrite (scored_fold (skill_score (lower q))).
Qed.

End Selection.

Section SelectionClaims.

Import LocalSkills Notions.

(** C1 (as amended).  For every registry, query and non-negative
    [max_skills], [select_relevant_skills] scores a skill by the words of
    the query, split on white space, longer than three characters and,
    lower-cased, found in the lower-cased name and description joined by
    one space, each occurrence of a word counting; the skills of positive
    score are ranked by non-increasing score, those of equal score in
    registry order; the result is the first [max_skills] of the ranking,
    so it holds no skill of score 0 and at most [max_skills] skills. *)
Theorem select_relevant_skills_ranked
    (self_skills : list Skill) (q : str) (max_skills : Z) :
  (0 <= max_skills)%Z ->
  let sc := skill_score (lower q) in
  let matching := filter (fun sk => 0 <? sc sk) self_skills in
  let res := select_relevant_skills self_skills q max_skills in
  (forall sk,
      sc sk = length (filter
                        (fun t => (3 <? length t)
                                  && contains (lower t)
                                       (lower (name sk ++ lit " " ++ description sk)))
                        (split q)))
  /\ (exists ranked,
         Permutation ranked matching
         /\ StronglySorted (fun a b => sc b <= sc a) ranked
         /\ (forall n, filter (fun sk => sc sk =? n) ranked
                       = filter (fun sk => sc sk =? n) matching)
         /\ res = firstn (Z.to_nat max_skills) ranked)
  /\ Forall (fun sk => 0 < sc sk) res
  /\ (Z.of_nat (length res) <= max_skills)%Z.
Proof.
  intros Hk sc matching res.
  set (scored := map (fun sk => (sc sk, sk)) matching).
  assert (Hres : res = firstn (Z.to_nat max_skills) (map snd (sort_reverse scored))).
  { unfold res. rewrite select_relevant_skills_eq, slice_to_nonneg by exact Hk.
    now rewrite firstn_map. }
  assert (Hkey : Forall (fun p => fst p = sc (snd p)) (sort_reverse scored)).
  { eapply Permutation_Forall; [symmetry; apply sort_reverse_perm|].
    apply keyed_pairs. }
  assert (Hperm : Permutation (map snd (sort_reverse scored)) matching).
  { rewrite (Permutation_map snd (sort_reverse_perm scored)).
    unfold scored. rewrite map_map. simpl. now rewrite map_id. }
  split; [intros sk; apply skill_score_spec|].
  split.
  - exists (map snd (sort_reverse scored)).
    split; [exact Hperm|].
    split; [apply keyed_sorted; [exact Hkey | apply sort_reverse_sorted]|].
    split; [|exact Hres].
    intros n. rewrite (keyed_filter sc n Hkey), sort_reverse_stable.
    unfold scored.
    rewrite <- (keyed_filter sc n (keyed_pairs sc matching)).
    rewrite map_map. simpl. now rewrite map_id.
  - split.
    + rewrite Hres. apply Forall_forall. intros sk Hin.
      apply In_firstn in Hin.
      apply (Permutation_in _ Hperm) in Hin.
      apply filter_In in Hin as [_ Hpos]. now apply Nat.ltb_lt.
    + rewrite Hres, length_firstn. lia.
Qed.

Lemma select_relevant_skills_ranked_witness :
  (Z.of_nat (length (select_relevant_skills Demo.registry Demo.query 2)) <= 2)%Z.
Proof.
  exact (proj2 (proj2 (proj2
    (select_relevant_skills_ranked Demo.registry Demo.query (max_skills := 2)
       ltac:(lia))))).
Defined.

(** C1 as stated fails twice.  A word that only the name and the
    description run together contain does not count, because the program
    puts a space between them; and a negative [max_skills] cuts the
    ranking from its end, leaving more than [max_skills] skills. *)
Lemma select_relevant_skills_counterexample :
  (3 <? length (lit "salesreport")) = true
  /\ contains (lower (lit "salesreport"))
       (lower (name Demo.split_word ++ description Demo.split_word)) = true
  /\ select_relevant_skills [Demo.split_word] (lit "salesreport") 3 = []
  /\ ~ (Z.of_nat (length (select_relevant_skills Demo.registry Demo.query (-1)))
        <= -1)%Z.
Proof.
  repeat split; try reflexivity.
  vm_compute. intros H. apply H. reflexivity.
Qed.

End SelectionClaims.

(** ** local_skills.py: discovery *)

Section Discovery.

Import LocalSkills Notions.

Variable yaml_safe_load : str -> res yaml_doc.
Variable skills_directory : Path.







Variable cwd : node.



End Discovery.



(** ** local_skills.py: reference files *)

Section ReferenceFiles.

Import LocalSkills Notions.

Lemma node_induction (P : node -> Prop) :
  (forall d, P (File d)) ->
  (forall entries, Forall (fun e => P (snd e)) entries -> P (Dir entries)) ->
  forall n, P n.
Proof.
  intros HFile HDir. fix IH 1. intros [d|entries].
  - apply HFile.
  - apply HDir. induction entries as [|e entries IHentries].
    + constructor.
    + constructor; [apply IH | exact IHentries].
Qed.

Lemma distinct_NoDup (l : list str) : distinct l = true -> NoDup l.
Proof.
  induction l as [|x l IH]; simpl; intros H; constructor.
  - apply andb_true_iff in H as [H _]. apply negb_true_iff in H.
    intros Hin. assert (existsb (str_eqb x) l = true); [|congruence].
    apply existsb_exists. exists x. split; [exact Hin | apply str_eqb_refl].
  - apply IH. now apply andb_true_iff in H as [_ H].
Qed.

Lemma dict_get_absent {V} (k : str) (d : dict V) :
  ~ In k (map fst d) -> dict_get k d = None.
Proof.
  induction d as [|[k' v] d IH]; simpl; intros H; [reflexivity|].
  destruct (str_eqb k' k) eqn:E.
  - apply str_eqb_eq in E. tauto.
  - apply IH. tauto.
Qed.

Lemma dict_get_In {V} (k : str) (v : V) (d : dict V) :
  NoDup (map fst d) -> (dict_get k d = Some v <-> In (k, v) d).
Proof.
  induction d as [|[k' v'] d IH]; simpl; intros Hnd.
  - split; [discriminate | contradiction].
  - inversion Hnd as [|? ? Hk' Hd]; subst.
    destruct (str_eqb k' k) eqn:E.
    + apply str_eqb_eq in E; subst k'. split.
      * intros [= ->]. now left.
      * intros [[= ->]|Hin]; [reflexivity|].
        exfalso. apply Hk'. apply in_map_iff. now exists (k, v).
    + apply str_eqb_neq in E. rewrite (IH Hd). split.
      * now right.
      * intros [[= -> ->]|Hin]; [contradiction | exact Hin].
Qed.

Lemma dict_set_fresh {V} (k : str) (v : V) (d : dict V) :
  ~ In k (map fst d) -> dict_set k v d = d ++ [(k, v)].
Proof.
  induction d as [|[k' v'] d IH]; simpl; intros H; [reflexivity|].
  destruct (str_eqb k' k) eqn:E.
  - apply str_eqb_eq in E. tauto.
  - rewrite IH; tauto.
Qed.

Lemma fold_dict_set {V} (kvs : list (str * V)) (acc : dict V) :
  NoDup (map fst (acc ++ kvs)) ->
  fold_left (fun refs kv => dict_set (fst kv) (snd kv) refs) kvs acc
  = acc ++ kvs.
Proof.
  revert acc; induction kvs as [|[k v] kvs IH]; intros acc Hnd; simpl.
  - now rewrite app_nil_r.
  - rewrite dict_set_fresh.
    + rewrite IH; rewrite <- app_assoc; [reflexivity | exact Hnd].
    + rewrite map_app in Hnd. simpl in Hnd.
      apply NoDup_remove_2 in Hnd. intros Hin. apply Hnd.
      apply in_or_app. now left.
Qed.

Lemma index_fold (skill_path : Path) (l : list (Path * node)) (acc : dict Path) :
  fold_left
    (fun refs e =>
       let '(rel_path, file) := e in
       if is_file file && negb (str_eqb (path_name rel_path) SKILL_md)
       then dict_set (str_of_path rel_path) (skill_path ++ rel_path) refs
       else refs) l acc
  = fold_left (fun refs kv => dict_set (fst kv) (snd kv) refs)
      (map (entry_of skill_path) (filter indexed l)) acc.
Proof.
  revert acc; induction l as [|[rel file] l IH]; intros acc; [reflexivity|].
  cbn [fold_left filter]. unfold indexed at 1. cbn [fst snd].
  destruct (is_file file && negb (str_eqb (path_name rel) SKILL_md));
    cbn [map fold_left]; apply IH.
Qed.

Lemma NoDup_map_filter {A B} (f : A -> B) (P : A -> bool) (l : list A) :
  NoDup (map f l) -> NoDup (map f (filter P l)).
Proof.
  induction l as [|x l IH]; simpl; intros H; [constructor|].
  inversion H as [|? ? Hx Hl]; subst.
  destruct (P x); simpl; [constructor|]; auto.
  intros Hin. apply Hx. apply in_map_iff in Hin as (y & Hy & Hin).
  apply filter_In in Hin as [Hin _]. apply in_map_iff. now exists y.
Qed.

Lemma index_reference_files_eq (skill_path : Path) (entries : list (str * node)) :
  distinct_paths entries = true ->
  index_reference_files skill_path entries
  = map (entry_of skill_path) (filter indexed (rglob entries)).
Proof.
  intros Hd. unfold index_reference_files. rewrite index_fold.
  rewrite fold_dict_set; [reflexivity|]. cbn [app].
  rewrite map_map. cbn [entry_of fst].
  apply NoDup_map_filter. now apply distinct_NoDup.
Qed.

Lemma index_keys_NoDup (skill_path : Path) (entries : list (str * node)) :
  distinct_paths entries = true ->
  NoDup (map fst (map (entry_of skill_path) (filter indexed (rglob entries)))).
Proof.
  intros Hd. rewrite map_map. cbn [entry_of fst].
  apply NoDup_map_filter. now apply distinct_NoDup.
Qed.

(** The walk sees the same paths and the same kinds of entry whatever
    the files hold. *)
Lemma rglob_from_blank (n : node) :
  forall here,
    map kind_of (rglob_from here (blank n)) = map kind_of (rglob_from here n).
Proof.
  induction n as [d|entries IH] using node_induction; intros here; [reflexivity|].
  cbn [blank rglob_from].
  induction IH as [|e entries He Hentries IHentries]; [reflexivity|].
  cbn [map flat_map]. rewrite !map_app. cbn [map fst snd].
  f_equal; [|exact IHentries].
  f_equal; [|apply He].
  unfold kind_of. cbn [fst snd]. now destruct (snd e).
Qed.

Lemma rglob_blank_references (entries : list (str * node)) :
  map kind_of (rglob (blank_references entries)) = map kind_of (rglob entries).
Proof.
  unfold rglob. cbn [rglob_from]. unfold blank_references.
  induction entries as [|e entries IH]; [reflexivity|].
  cbn [map flat_map]. rewrite !map_app.
  f_equal; [|exact IH].
  destruct (str_eqb (fst e) SKILL_md); [reflexivity|].
  cbn [map fst snd].
  f_equal; [|apply rglob_from_blank].
  unfold kind_of. cbn [fst snd]. now destruct (snd e).
Qed.

Lemma index_by_kind (skill_path : Path) (l1 l2 : list (Path * node)) :
  map kind_of l1 = map kind_of l2 ->
  map (entry_of skill_path) (filter indexed l1)
  = map (entry_of skill_path) (filter indexed l2).
Proof.
  revert l2; induction l1 as [|[r1 n1] l1 IH]; intros [|[r2 n2] l2] H;
    try discriminate; [reflexivity|].
  cbn [map] in H. unfold kind_of at 1 3 in H. cbn [fst snd] in H.
  injection H as -> Hf Hl.
  cbn [filter].
  assert (E : indexed (r2, n1) = indexed (r2, n2)).
  { unfold indexed. cbn [fst snd]. now rewrite Hf. }
  rewrite E. destruct (indexed (r2, n2)); cbn [map]; [f_equal|]; now apply IH.
Qed.

Lemma index_blank_references (skill_path : Path) (entries : list (str * node)) :
  index_reference_files skill_path (blank_references entries)
  = index_reference_files skill_path entries.
Proof.
  unfold index_reference_files. rewrite !index_fold.
  f_equal. apply index_by_kind, rglob_blank_references.
Qed.

Lemma child_blank_references (entries : list (str * node)) :
  child SKILL_md (blank_references entries) = child SKILL_md entries.
Proof.
  unfold blank_references.
  induction entries as [|[k n] entries IH]; [reflexivity|].
  cbn [map fst snd]. destruct (str_eqb k SKILL_md) eqn:E.
  - cbn [child]. now rewrite E.
  - cbn [child]. now rewrite E.
Qed.

Variable yaml_safe_load : str -> res yaml_doc.

(** Loading a skill never looks into its reference files. *)
Lemma load_skill_blank (skill_path : Path) (entries : list (str * node)) :
  _load_skill yaml_safe_load skill_path (blank_references entries)
  = _load_skill yaml_safe_load skill_path entries.
Proof.
  unfold _load_skill, read_text. cbn [resolve].
  rewrite child_blank_references, index_blank_references. reflexivity.
Qed.

Lemma load_skill_reference_files (skill_path : Path)
    (entries : list (str * node)) (skill : Skill) :
  _load_skill yaml_safe_load skill_path entries = Ok skill ->
  reference_files skill = index_reference_files skill_path entries.
Proof.
  unfold _load_skill. destruct (child SKILL_md entries); [|discriminate].
  destruct (read_text (Dir entries) [SKILL_md]) as [text|]; [|discriminate].
  cbn [res_bind].
  destruct (frontmatter_match text) as [[fm body]|].
  - destruct (yaml_safe_load fm) as [[fields|]|]; cbn [res_bind];
      try discriminate.
    now intros [= <-].
  - cbn [res_bind]. now intros [= <-].
Qed.

End ReferenceFiles.

Section ReferenceFileClaims.

Import LocalSkills Notions.

Variable yaml_safe_load : str -> res yaml_doc.

(** C9 (as amended).  For a skill directory whose entries have distinct
    paths, a skill that loads has in [reference_files] exactly the regular
    files found by the recursive walk whose name is not [SKILL.md], at any
    depth, each under its path relative to the directory and with the
    directory's path put before it.  Loading does not depend on what the
    files other than the manifest hold; [read_reference_file] returns the
    text of an indexed file, the marker [[Binary file: name]] for one
    that does not decode, and [None] for a name that is not indexed. *)
Theorem reference_files_indexed
    (skill_path : Path) (entries : list (str * node)) (skill : Skill) :
  distinct_paths entries = true ->
  _load_skill yaml_safe_load skill_path entries = Ok skill ->
  (forall key file_path,
      dict_get key (reference_files skill) = Some file_path
      <-> exists rel_path file,
            In (rel_path, file) (rglob entries)
            /\ is_file file = true
            /\ path_name rel_path <> SKILL_md
            /\ key = str_of_path rel_path
            /\ file_path = skill_path ++ rel_path)
  /\ _load_skill yaml_safe_load skill_path (blank_references entries) = Ok skill
  /\ (forall cwd filename file_path,
         dict_get filename (reference_files skill) = Some file_path ->
         (forall text,
             resolve cwd file_path = Some (File (Text text)) ->
             read_reference_file cwd skill filename = Ok (Some text))
         /\ (resolve cwd file_path = Some (File Undecodable) ->
             read_reference_file cwd skill filename
             = Ok (Some (lit "[Binary file: " ++ filename ++ lit "]"))))
  /\ (forall cwd filename,
         dict_get filename (reference_files skill) = None ->
         read_reference_file cwd skill filename = Ok None).
Proof.
  intros Hdistinct Hload.
  pose proof (load_skill_reference_files _ _ _ Hload) as Hrefs.
  rewrite index_reference_files_eq in Hrefs by exact Hdistinct.
  split; [|split; [|split]].
  - intros key file_path. rewrite Hrefs.
    rewrite dict_get_In by now apply index_keys_NoDup.
    rewrite in_map_iff. split.
    + intros ([rel_path file] & Heq & Hin).
      apply filter_In in Hin as [Hin Hidx].
      unfold entry_of in Heq. cbn [fst snd] in Heq. injection Heq as <- <-.
      unfold indexed in Hidx. cbn [fst snd] in Hidx.
      apply andb_true_iff in Hidx as [Hfile Hname].
      apply negb_true_iff, str_eqb_neq in Hname.
      now exists rel_path, file.
    + intros (rel_path & file & Hin & Hfile & Hname & -> & ->).
      exists (rel_path, file). split; [reflexivity|].
      apply filter_In. split; [exact Hin|].
      unfold indexed. cbn [fst snd]. rewrite Hfile.
      apply str_eqb_neq in Hname. now rewrite Hname.
  - now rewrite load_skill_blank.
  - intros cwd filename file_path Hget. unfold read_reference_file, read_text.
    rewrite Hget. split.
    + intros text ->. reflexivity.
    + intros ->. reflexivity.
  - intros cwd filename Hget. unfold read_reference_file. now rewrite Hget.
Qed.

End ReferenceFileClaims.

Lemma reference_files_indexed_witness :
  LocalSkills.read_reference_file Demo.cwd Demo.loaded_plotting (lit "refs/logo.png")
  = Ok (Some (lit "[Binary file: refs/logo.png]"))
  /\ LocalSkills._load_skill Demo.toy_yaml Demo.plotting_path
       (Notions.blank_references Demo.plotting_dir)
     = Ok Demo.loaded_plotting.
Proof.
  destruct (reference_files_indexed Demo.toy_yaml Demo.plotting_path
              Demo.plotting_dir (skill := Demo.loaded_plotting)
              ltac:(reflexivity) ltac:(reflexivity)) as (_ & Hblank & Hread & _).
  split; [|exact Hblank].
  apply (Hread Demo.cwd (lit "refs/logo.png")
           (Demo.plotting_path ++ [lit "refs"; lit "logo.png"]));
    reflexivity.
Defined.

(** C9 as stated fails: a regular file named [SKILL.md] below the top of
    the skill directory is not the manifest, and it is not indexed. *)
Lemma reference_files_counterexample :
  LocalSkills._load_skill Demo.toy_yaml Demo.plotting_path Demo.plotting_dir
  = Ok Demo.loaded_plotting
  /\ In ([lit "refs"; lit "SKILL.md"],
         LocalSkills.File (LocalSkills.Text (lit "a second manifest")))
        (LocalSkills.rglob Demo.plotting_dir)
  /\ [lit "refs"; lit "SKILL.md"] <> [LocalSkills.SKILL_md]
  /\ LocalSkills.dict_get (lit "refs/SKILL.md")
       (LocalSkills.reference_files Demo.loaded_plotting) = None.
Proof.
  split; [reflexivity|]. split; [|split; [discriminate | reflexivity]].
  vm_compute. right. right. right. right. now left.
Qed.

(** ** enhanced_ollama_agent.py: _extract_code_blocks *)

Section Extraction.

Import LocalSkills Agent Notions.

Lemma literal_ci_app (p q s : str) :
  Re.literal_ci (p ++ q) s = opt_bind (Re.literal_ci p s) (Re.literal_ci q).
Proof.
  revert s; induction p as [|a p IH]; intros s; [reflexivity|].
  destruct s as [|b s]; [reflexivity|]. cbn [app Re.literal_ci].
  destruct (ascii_eqb (lower_char a) (lower_char b)); [apply IH | reflexivity].
Qed.

(** A language whose characters stand for themselves is matched as a
    literal. *)
Lemma language_match_verbatim {A} (t s : str) (k : str -> option A) :
  language_match (verbatim t) s k = opt_bind (Re.literal_ci t s) k.
Proof.
  revert s; induction t as [|c t IH]; intros s; [reflexivity|].
  cbn [verbatim map language_match Re.literal_ci atom_matches].
  destruct s as [|x s]; [reflexivity|].
  destruct (ascii_eqb (lower_char c) (lower_char x)); [apply IH | reflexivity].
Qed.

Lemma code_block_at_verbatim (t s : str) :
  code_block_at (verbatim t) s = block_at t s.
Proof.
  unfold code_block_at, block_at, opener.
  rewrite literal_ci_app. destruct (Re.literal_ci fence s) as [s1|];
    [|reflexivity].
  cbn [opt_bind]. rewrite language_match_verbatim, literal_ci_app.
  now destruct (Re.literal_ci t s1).
Qed.

Lemma findall_fuel_ext (at1 at2 : str -> option (str * str)) :
  (forall s, at1 s = at2 s) ->
  forall fuel s, Re.findall_fuel fuel at1 s = Re.findall_fuel fuel at2 s.
Proof.
  intros H. induction fuel as [|fuel IH]; intros s; [reflexivity|].
  cbn. rewrite H. destruct (at2 s) as [[g r]|].
  - now rewrite IH.
  - destruct s; [reflexivity | apply IH].
Qed.

Lemma extract_verbatim (t text : str) :
  _extract_code_blocks text (verbatim t) = Re.findall (block_at t) text.
Proof.
  unfold _extract_code_blocks, Re.findall. apply findall_fuel_ext.
  intros s. apply code_block_at_verbatim.
Qed.

(** Such a language is passed as it is written. *)
Lemma language_text_verbatim (t : str) :
  plain t = true -> language_text (verbatim t) = t.
Proof.
  induction t as [|c t IH]; [reflexivity|].
  cbn [plain forallb]. intros H. apply andb_true_iff in H as [Hc Ht].
  apply negb_true_iff in Hc.
  cbn [verbatim map language_text flat_map fst snd atom_text repetition_text].
  rewrite Hc. cbn [app]. f_equal. now apply IH.
Qed.



Lemma literal_ci_same (p q s : str) :
  lower q = lower p -> Re.literal_ci p (q ++ s) = Some s.
Proof.
  revert q; induction p as [|a p IH]; intros [|b q] H; try discriminate.
  - reflexivity.
  - simpl in *. injection H as Hb Hq. rewrite Hb.
    replace (ascii_eqb (lower_char a) (lower_char a)) with true
      by (symmetry; now apply ascii_eqb_eq).
    now apply IH.
Qed.







Lemma backtick_lower (b : ascii) :
  ascii_eqb (lower_char "`") (lower_char b) = ascii_eqb "`" b.
Proof. destruct b as [[] [] [] [] [] [] [] []]; reflexivity. Qed.

Lemma literal_ci_fence (s : str) :
  Re.literal_ci fence s <> None <-> startswith fence s = true.
Proof.
  unfold fence. cbn [lit list_ascii_of_string].
  destruct s as [|a [|b [|c s]]]; cbn [Re.literal_ci startswith];
    rewrite ?backtick_lower.
  - split; [congruence | discriminate].
  - destruct (ascii_eqb "`" a); cbn; split; congruence || discriminate.
  - destruct (ascii_eqb "`" a), (ascii_eqb "`" b); cbn;
      split; congruence || discriminate.
  - destruct (ascii_eqb "`" a), (ascii_eqb "`" b), (ascii_eqb "`" c); cbn;
      split; congruence || discriminate.
Qed.














End Extraction.



(** ** enhanced_ollama_agent.py: _execute_r_code *)

Section Execution.

Import LocalSkills Agent Notions.

Context {W : Type} {os : OS W}.

Lemma Qltb_lt (a b : Q) : Qltb a b = true <-> (a < b)%Q.
Proof.
  unfold Qltb. rewrite negb_true_iff. split.
  - intros H. apply Qnot_le_lt. intros Hle.
    apply Qle_bool_iff in Hle. congruence.
  - intros H. destruct (Qle_bool b a) eqn:E; [|reflexivity].
    apply Qle_bool_iff in E. exfalso. now apply (Qlt_not_le _ _ H).
Qed.

(** A scan that completes leaves the world as it was and adds the
    collected entries in directory order. *)
Lemma collect_plots_ok (files acc plots : list Path) (w w' : W) :
  collect_plots files acc w = (Ok plots, w') ->
  w' = w /\ plots = acc ++ filter (collected w) files.
Proof.
  revert acc; induction files as [|file files IH]; intros acc H.
  - injection H as <- <-. now rewrite app_nil_r.
  - cbn [collect_plots] in H. unfold bind at 1 in H. unfold collect_step in H.
    unfold bind, look, ret in H.
    cbn [filter]. unfold collected at 1.
    destruct (path_is_file file w
              && existsb (str_eqb (lower (suffix file))) plot_extensions).
    + destruct (stat_mtime file w) as [mtime|]; [|discriminate].
      destruct (getmtime_script w) as [script_mtime|]; [|discriminate].
      cbn [andb]. destruct (Qltb (script_mtime - 5) mtime); cbv beta iota in H.
      * apply IH in H as [-> ->]. now rewrite <- app_assoc.
      * now apply IH in H.
    + cbn [andb]. cbv beta iota in H. now apply IH in H.
Qed.

(** A scan raises only at an entry it would have to date. *)
Lemma collect_plots_all_dated (files acc : list Path) (w : W) :
  (forall file, In file files ->
     path_is_file file w
     && existsb (str_eqb (lower (suffix file))) plot_extensions = true ->
     (exists mtime, stat_mtime file w = Ok mtime)
     /\ (exists script_mtime, getmtime_script w = Ok script_mtime)) ->
  collect_plots files acc w = (Ok (acc ++ filter (collected w) files), w).
Proof.
  revert acc; induction files as [|file files IH]; intros acc H.
  - cbn. now rewrite app_nil_r.
  - cbn [collect_plots filter]. unfold bind at 1. unfold collect_step.
    unfold bind, look, ret, collected at 1.
    destruct (path_is_file file w
              && existsb (str_eqb (lower (suffix file))) plot_extensions) eqn:E.
    + destruct (H file (or_introl eq_refl) E) as [[mtime Hm] [smtime Hs]].
      rewrite Hm, Hs. cbn [andb].
      destruct (Qltb (smtime - 5) mtime).
      * rewrite IH by (intros f Hf; apply H; now right).
        now rewrite <- app_assoc.
      * apply IH. intros f Hf. apply H. now right.
    + cbn [andb]. apply IH. intros f Hf. apply H. now right.
Qed.

Lemma execute_after_run (r_code : str) (w w1 w2 : W) (result : CompletedProcess) :
  write_script r_code w = (Ok tt, w1) ->
  run_rscript w1 = (Ok result, w2) ->
  _execute_r_code r_code w
  = if negb (returncode result =? 0)%Z then
      ({| success := false;
          error := Some (stderr result ++ stdout result);
          output := lit "None";
          plot_files := [] |}, w2)
    else
      try_except
        (bind (look iterdir) (fun files =>
         bind (collect_plots files []) (fun plot_files =>
         ret {| success := true;
                output := stdout result;
                error := None;
                plot_files := plot_files |})))
        (fun e =>
           match exn_cls e with
           | TimeoutExpired =>
               {| success := false;
                  error := Some (lit "R script execution timed out (60s limit)");
                  output := [];
                  plot_files := [] |}
           | FileNotFoundError =>
               {| success := false;
                  error := Some (lit "Rscript not found. Make sure R is installed and in PATH.");
                  output := [];
                  plot_files := [] |}
           | _ =>
               {| success := false;
                  error := Some (exn_str e);
                  output := [];
                  plot_files := [] |}
           end) w2.
Proof.
  intros Hw Hr. unfold _execute_r_code, try_except.
  unfold bind at 1. rewrite Hw. unfold bind at 1. rewrite Hr.
  destruct (negb (returncode result =? 0)%Z); reflexivity.
Qed.


(** The scan reads and changes nothing. *)
Lemma collect_plots_world (files acc : list Path) (w w' : W)
    (r : res (list Path)) :
  collect_plots files acc w = (r, w') -> w' = w.
Proof.
  revert acc; induction files as [|file files IH]; intros acc H.
  - now injection H as _ <-.
  - cbn [collect_plots] in H. unfold bind at 1 in H. unfold collect_step in H.
    unfold bind, look, ret in H.
    destruct (path_is_file file w
              && existsb (str_eqb (lower (suffix file))) plot_extensions).
    + destruct (stat_mtime file w) as [mtime|];
        [|now injection H as _ <-].
      destruct (getmtime_script w) as [script_mtime|];
        [|now injection H as _ <-].
      destruct (Qltb (script_mtime - 5) mtime); cbv beta iota in H;
        now apply IH in H.
    + cbv beta iota in H. now apply IH in H.
Qed.

(** A scan that completes could date every entry it had to. *)
Lemma collect_plots_ok_datable (files acc plots : list Path) (w w' : W) :
  collect_plots files acc w = (Ok plots, w') ->
  forall file, In file files -> datable w file.
Proof.
  revert acc; induction files as [|file files IH]; intros acc H f Hf;
    [destruct Hf|].
  cbn [collect_plots] in H. unfold bind at 1 in H. unfold collect_step in H.
  unfold bind, look, ret in H.
  destruct Hf as [<-|Hf].
  - unfold datable, candidate.
    destruct (path_is_file file w
              && existsb (str_eqb (lower (suffix file))) plot_extensions);
      [|discriminate].
    destruct (stat_mtime file w) as [mtime|]; [|discriminate].
    destruct (getmtime_script w) as [script_mtime|]; [|discriminate].
    intros _. split; eexists; reflexivity.
  - assert (H' : exists acc', collect_plots files acc' w = (Ok plots, w')).
    { destruct (path_is_file file w
                && existsb (str_eqb (lower (suffix file))) plot_extensions).
      - destruct (stat_mtime file w) as [mtime|]; [|discriminate].
        destruct (getmtime_script w) as [script_mtime|]; [|discriminate].
        destruct (Qltb (script_mtime - 5) mtime); cbv beta iota in H; eauto.
      - cbv beta iota in H. eauto. }
    destruct H' as [acc' H']. exact (IH _ H' f Hf).
Qed.


(** After a zero exit status the result is decided by the scan. *)
Lemma execute_zero_exit (r_code : str) (w w1 w2 : W)
    (result : CompletedProcess) :
  write_script r_code w = (Ok tt, w1) ->
  run_rscript w1 = (Ok result, w2) ->
  returncode result = 0%Z ->
  (forall files,
      iterdir w2 = Ok files ->
      (forall file, In file files -> datable w2 file) ->
      _execute_r_code r_code w
      = ({| success := true;
            output := stdout result;
            error := None;
            plot_files := filter (collected w2) files |}, w2))
  /\ (~ scannable w2 ->
      exists e, _execute_r_code r_code w = (failure_of e, w2)).
Proof.
  intros Hw Hr Hrc.
  rewrite execute_after_run with (w1 := w1) (w2 := w2) (result := result)
    by assumption.
  rewrite Hrc. cbn [Z.eqb negb]. split.
  - intros files Hdir Hdated. unfold try_except, bind at 1, look.
    rewrite Hdir. unfold bind.
    now rewrite (collect_plots_all_dated files [] w2 Hdated).
  - intros Hno. unfold try_except, bind at 1, look.
    destruct (iterdir w2) as [files|e] eqn:Hdir.
    + unfold bind.
      destruct (collect_plots files [] w2) as [[plots|e] w3] eqn:Hscan.
      * exfalso. apply Hno. exists files. split; [exact Hdir|].
        exact (collect_plots_ok_datable _ _ _ Hscan).
      * apply collect_plots_world in Hscan as ->. exists e.
        unfold failure_of. now destruct (exn_cls e).
    + exists e. unfold failure_of. now destruct (exn_cls e).
Qed.


(** C3.  Whenever [_execute_r_code] reports [success = false], whatever
    raised and wherever, its [plot_files] is empty. *)
Theorem failure_has_no_plot_files (r_code : str) (w : W) :
  success (fst (_execute_r_code r_code w)) = false ->
  plot_files (fst (_execute_r_code r_code w)) = [].
Proof.
  unfold _execute_r_code, try_except.
  destruct (bind _ _ w) as [[result|e] w'] eqn:E; cbn [fst].
  - unfold bind at 1 in E.
    destruct (write_script r_code w) as [[[]|e0] w1]; [|discriminate].
    unfold bind at 1 in E.
    destruct (run_rscript w1) as [[cp|e0] w2]; [|discriminate].
    destruct (negb (returncode cp =? 0)%Z).
    + unfold ret in E. injection E as <- _. reflexivity.
    + unfold bind at 1, look in E.
      destruct (iterdir w2) as [files|e0]; [|discriminate].
      unfold bind in E.
      destruct (collect_plots files [] w2) as [[plots|e0] w3]; [|discriminate].
      unfold ret in E. injection E as <- _. discriminate.
  - now destruct (exn_cls e).
Qed.

(** C7.  After a run that exits with status 0, on a file system whose
    regular files have a modification time, the plot files of the result
    are exactly the entries of the plots directory itself that are
    regular files, whose suffix in lower case is one of [.png], [.pdf],
    [.jpg], [.jpeg], [.svg], and whose modification time is strictly
    greater than that of the script file less 5 seconds; they come in
    directory order.  Entries of subdirectories are not listed. *)
Theorem plot_files_collected (r_code : str) (w w1 w2 : W)
    (result : CompletedProcess) :
  write_script r_code w = (Ok tt, w1) ->
  run_rscript w1 = (Ok result, w2) ->
  returncode result = 0%Z ->
  (forall file,
      path_is_file file w2 = true -> exists mtime, stat_mtime file w2 = Ok mtime) ->
  (forall file,
      In file (plot_files (fst (_execute_r_code r_code w)))
      <-> exists files mtime script_mtime,
            iterdir w2 = Ok files
            /\ In file files
            /\ path_is_file file w2 = true
            /\ In (lower (suffix file))
                  [lit ".png"; lit ".pdf"; lit ".jpg"; lit ".jpeg"; lit ".svg"]
            /\ stat_mtime file w2 = Ok mtime
            /\ getmtime_script w2 = Ok script_mtime
            /\ (script_mtime - 5 < mtime)%Q)
  /\ (forall files script_mtime,
         iterdir w2 = Ok files ->
         getmtime_script w2 = Ok script_mtime ->
         _execute_r_code r_code w
         = ({| success := true;
               output := stdout result;
               error := None;
               plot_files := filter (collected w2) files |}, w2)).
Proof.
  intros Hw Hr Hrc Hfs.
  destruct (@execute_zero_exit r_code w w1 w2 result Hw Hr Hrc) as [Hok Hno].
  assert (Hdated : forall files script_mtime,
             getmtime_script w2 = Ok script_mtime ->
             forall file, In file files -> datable w2 file).
  { intros files script_mtime Hs file _ Hc. unfold candidate in Hc.
    apply andb_true_iff in Hc as [Hfile _].
    split; [now apply Hfs | now exists script_mtime]. }
  assert (Hin : forall files file,
             In file (filter (collected w2) files)
             <-> In file files
                 /\ path_is_file file w2 = true
                 /\ In (lower (suffix file))
                       [lit ".png"; lit ".pdf"; lit ".jpg"; lit ".jpeg";
                        lit ".svg"]
                 /\ exists mtime script_mtime,
                      stat_mtime file w2 = Ok mtime
                      /\ getmtime_script w2 = Ok script_mtime
                      /\ (script_mtime - 5 < mtime)%Q).
  { intros files file. rewrite filter_In. unfold collected.
    rewrite !andb_true_iff. split.
    - intros (Hf & (Hreg & Hext) & Hnew). repeat split; try assumption.
      + apply existsb_exists in Hext as (x & Hx & Heq).
        apply str_eqb_eq in Heq. now subst x.
      + destruct (stat_mtime file w2) as [mtime|]; [|discriminate].
        destruct (getmtime_script w2) as [script_mtime|]; [|discriminate].
        exists mtime, script_mtime. now rewrite <- Qltb_lt.
    - intros (Hf & Hreg & Hext & mtime & script_mtime & Hm & Hs & Hlt).
      rewrite Hm, Hs. repeat split; try assumption.
      + apply existsb_exists. exists (lower (suffix file)).
        split; [exact Hext | apply str_eqb_refl].
      + now apply Qltb_lt. }
  split.
  - intros file. split.
    + intros H.
      destruct (iterdir w2) as [files|e] eqn:Hdir.
      * destruct (collect_plots files [] w2) as [[plots|e] w3] eqn:Hscan.
        -- rewrite (Hok files eq_refl (collect_plots_ok_datable _ _ _ Hscan))
             in H.
           cbn [fst plot_files] in H.
           apply Hin in H as (Hf & Hreg & Hext & mtime & script_mtime & Hrest).
           exists files, mtime, script_mtime. tauto.
        -- exfalso.
           assert (Hnot : ~ scannable w2).
           { intros (files' & Hf & Hd). rewrite Hdir in Hf.
             injection Hf as <-.
             rewrite (collect_plots_all_dated files [] w2 Hd) in Hscan.
             discriminate. }
           destruct (Hno Hnot) as [x Hx]. rewrite Hx in H. exact H.
      * exfalso.
        assert (Hnot : ~ scannable w2).
        { intros (files' & Hf & _). rewrite Hdir in Hf. discriminate. }
        destruct (Hno Hnot) as [x Hx]. rewrite Hx in H. exact H.
    + intros (files & mtime & script_mtime & Hdir & Hf & Hreg & Hext & Hm
              & Hs & Hlt).
      rewrite (Hok files Hdir (Hdated files script_mtime Hs)).
      cbn [fst plot_files]. apply Hin. repeat split; try assumption.
      now exists mtime, script_mtime.
  - intros files script_mtime Hdir Hs.
    exact (Hok files Hdir (Hdated files script_mtime Hs)).
Qed.

End Execution.

Section ExecutionWitnesses.

Import LocalSkills Agent Notions Sim.

Lemma sim_regular_files_dated (w : world) (file : Path) :
  path_is_file file w = true -> exists mtime, stat_mtime file w = Ok mtime.
Proof.
  cbn [path_is_file stat_mtime sim_os]. unfold sim_stat.
  destruct (lookup_path file (sim_entries w)) as [[regular mtime]|];
    [|discriminate].
  intros _. now exists mtime.
Qed.


Lemma failure_has_no_plot_files_witness :
  plot_files (fst (_execute_r_code Demo.endless_script Demo.machine)) = [].
Proof.
  exact (@failure_has_no_plot_files world sim_os Demo.endless_script Demo.machine
           ltac:(reflexivity)).
Defined.

Lemma plot_files_collected_witness :
  In [lit "plots"; lit "plot.png"]
     (plot_files (fst (_execute_r_code Demo.plot_script Demo.machine)))
  /\ fst (_execute_r_code Demo.plot_script Demo.machine)
     = {| success := true;
          output := lit "[1] done";
          error := None;
          plot_files := [[lit "plots"; lit "plot.png"]] |}.
Proof.
  destruct (@plot_files_collected world sim_os Demo.plot_script Demo.machine
              (snd (sim_write_script Demo.plot_script Demo.machine))
              (snd (sim_run_rscript
                      (snd (sim_write_script Demo.plot_script Demo.machine))))
              {| returncode := 0; stdout := lit "[1] done"; stderr := [] |}
              ltac:(reflexivity) ltac:(reflexivity) ltac:(reflexivity)
              (sim_regular_files_dated _))
    as [Hin Hall].
  split.
  - apply Hin.
    exists [script_path; [lit "plots"; lit "plot.png"]], 101%Q, 100%Q.
    repeat split; try reflexivity.
    + right. now left.
    + now left.
  - rewrite (Hall [script_path; [lit "plots"; lit "plot.png"]] 100%Q
               ltac:(reflexivity) ltac:(reflexivity)).
    reflexivity.
Defined.

End ExecutionWitnesses.

Section ExecutionCounterexample.

Import LocalSkills Agent Notions Canned.


End ExecutionCounterexample.

(** ** enhanced_ollama_agent.py: chat and stream_chat *)

Section Turns.

Import LocalSkills Agent Notions.

Context {W : Type} {os : OS W}.

Lemma last_error_cons (r : ExecResult) (results : list ExecResult) :
  last_error (r :: results)
  = match last_error results with
    | Some x => Some x
    | None => if success r then None else Some (error r)
    end.
Proof.
  unfold last_error. cbn [filter].
  destruct (success r); cbn [negb]; [now destruct (rev _)|].
  cbn [rev]. now destruct (rev (filter _ results)).
Qed.

Lemma executions_length (self : EnhancedOllamaAgent) (blocks : list str) (w : W) :
  length (fst (executions self blocks w)) = length blocks.
Proof.
  revert w; induction blocks as [|b blocks IH]; intros w; [reflexivity|].
  cbn [executions]. destruct (_execute_r_code b w) as [r w1].
  specialize (IH (if success r then show_plots self r w1 else w1)).
  destruct (executions self blocks _) as [rs w']. cbn [fst length] in *.
  now rewrite IH.
Qed.

(** Block [i] is run in the world the blocks before it have left. *)
Lemma executions_nth (self : EnhancedOllamaAgent)
    (before : list str) (r_code : str) (after : list str) (w : W) :
  nth_error (fst (executions self (before ++ r_code :: after) w)) (length before)
  = Some (fst (_execute_r_code r_code (snd (executions self before w)))).
Proof.
  revert w; induction before as [|b before IH]; intros w.
  - cbn [app executions length snd]. destruct (_execute_r_code r_code w) as [r w1].
    now destruct (executions self after _).
  - cbn [app executions length]. destruct (_execute_r_code b w) as [r w1].
    specialize (IH (if success r then show_plots self r w1 else w1)).
    destruct (executions self (before ++ r_code :: after) _) as [rs w'].
    destruct (executions self before _) as [rs0 w0].
    exact IH.
Qed.

(** The loop of [chat] runs every block and sums up the results. *)
Lemma run_blocks_all (self : EnhancedOllamaAgent) (blocks : list str)
    (result : TurnResult) (w : W) :
  run_blocks self true blocks result w
  = ({| response := response result;
        skills_used := skills_used result;
        r_executed :=
          r_executed result || existsb success (fst (executions self blocks w));
        turn_plot_files :=
          turn_plot_files result
          ++ concat (map plot_files
                       (filter success (fst (executions self blocks w))));
        r_error :=
          match last_error (fst (executions self blocks w)) with
          | Some x => Some x
          | None => r_error result
          end |},
     snd (executions self blocks w)).
Proof.
  revert result w; induction blocks as [|b blocks IH]; intros result w.
  - cbn. rewrite orb_false_r, app_nil_r. now destruct result.
  - cbn [run_blocks executions]. destruct (_execute_r_code b w) as [r w1].
    destruct (success r) eqn:Hr.
    + rewrite IH.
      destruct (executions self blocks (show_plots self r w1)) as [rs w'].
      cbn [fst snd existsb filter map concat
           response skills_used r_executed turn_plot_files r_error].
      rewrite Hr, last_error_cons, Hr. cbn [map concat orb].
      rewrite orb_true_r, app_assoc. now destruct (last_error rs).
    + rewrite IH.
      destruct (executions self blocks w1) as [rs w'].
      cbn [fst snd existsb filter map concat
           response skills_used r_executed turn_plot_files r_error].
      rewrite Hr, last_error_cons, Hr. cbn [orb].
      now destruct (last_error rs).
Qed.

Lemma chat_answers (self : EnhancedOllamaAgent) (user_message : str)
    (temperature : Q) (w w1 : W) (assistant_message : str) :
  ollama_chat (model self)
    (build_messages self (select_for self user_message) user_message)
    temperature w = (Ok assistant_message, w1) ->
  chat self user_message temperature w
  = after_answer self true (select_for self user_message) user_message
      assistant_message w1.
Proof.
  intros H. unfold chat, try_except, bind, total. rewrite H.
  now destruct (after_answer _ _ _ _ _ w1).
Qed.

Lemma chat_raises (self : EnhancedOllamaAgent) (user_message : str)
    (temperature : Q) (w w1 : W) (e : exn) :
  ollama_chat (model self)
    (build_messages self (select_for self user_message) user_message)
    temperature w = (Raise e, w1) ->
  chat self user_message temperature w
  = (failed_turn self (lit "Error: " ++ exn_str e), w1).
Proof.
  intros H. unfold chat, try_except, bind. now rewrite H.
Qed.

Lemma stream_chat_raises (self : EnhancedOllamaAgent) (user_message : str)
    (temperature : Q) (w w1 : W) (chunks : list str) (e : exn) :
  ollama_chat_stream (model self)
    (build_messages self (select_for self user_message) user_message)
    temperature w = ((chunks, Some e), w1) ->
  stream_chat self user_message temperature w
  = (failed_turn self
       (match concat chunks with
        | _ :: _ => concat chunks
        | [] => lit "Error: " ++ exn_str e
        end), w1).
Proof.
  intros H. unfold stream_chat. now rewrite H.
Qed.

(** C5 (as amended).  When running R code is switched on and the model
    has answered, [chat] runs every extracted block, in order, each in the
    world the blocks before it have left, whether they failed or not; the
    error of a failed block is kept in [r_error], the last one standing;
    [r_executed] is true exactly when some block succeeded, and the plot
    files are those of the blocks that succeeded. *)
Theorem chat_runs_every_block (self : EnhancedOllamaAgent)
    (user_message : str) (temperature : Q) (w w1 : W) (assistant_message : str) :
  auto_execute_r self = true ->
  ollama_chat (model self)
    (build_messages self (select_for self user_message) user_message)
    temperature w = (Ok assistant_message, w1) ->
  let r_code_blocks := _extract_code_blocks assistant_message (verbatim (lit "r")) in
  let results := fst (executions self r_code_blocks w1) in
  let result := fst (fst (chat self user_message temperature w)) in
  length results = length r_code_blocks
  /\ (forall before r_code after,
         r_code_blocks = before ++ r_code :: after ->
         nth_error results (length before)
         = Some (fst (_execute_r_code r_code
                        (snd (executions self before w1)))))
  /\ snd (chat self user_message temperature w)
     = snd (executions self r_code_blocks w1)
  /\ r_executed result = existsb success results
  /\ turn_plot_files result = concat (map plot_files (filter success results))
  /\ r_error result = last_error results.
Proof.
  intros Hauto Hchat r_code_blocks results result.
  split; [apply executions_length|].
  split.
  { intros before r_code after E. unfold results. rewrite E.
    apply executions_nth. }
  unfold result, results. rewrite (chat_answers _ _ _ _ Hchat).
  unfold after_answer. fold r_code_blocks. rewrite Hauto.
  destruct r_code_blocks as [|b blocks] eqn:E.
  - cbn. repeat split.
  - rewrite run_blocks_all. cbn [fst snd r_executed turn_plot_files r_error].
    repeat split. now destruct (last_error _).
Qed.

(** C4 (as amended).  When the call of the model raises, [chat] returns a
    result whose response is [Error: ] followed by the description of the
    failure, and leaves the agent, and so the conversation history, as
    it was.  When the stream of [stream_chat] raises, it likewise leaves
    the agent as it was, and the response is the text received until then
    or, if there is none, [Error: ] followed by the description. *)
Theorem chat_failure_is_reported (self : EnhancedOllamaAgent)
    (user_message : str) (temperature : Q) (w w1 : W) (e : exn) :
  (ollama_chat (model self)
     (build_messages self (select_for self user_message) user_message)
     temperature w = (Raise e, w1) ->
   response (fst (fst (chat self user_message temperature w)))
   = lit "Error: " ++ exn_str e
   /\ snd (fst (chat self user_message temperature w)) = self
   /\ snd (chat self user_message temperature w) = w1)
  /\ (forall chunks,
         ollama_chat_stream (model self)
           (build_messages self (select_for self user_message) user_message)
           temperature w = ((chunks, Some e), w1) ->
         response (fst (fst (stream_chat self user_message temperature w)))
         = match concat chunks with
           | _ :: _ => concat chunks
           | [] => lit "Error: " ++ exn_str e
           end
         /\ snd (fst (stream_chat self user_message temperature w)) = self
         /\ snd (stream_chat self user_message temperature w) = w1).
Proof.
  split.
  - intros H. now rewrite (chat_raises _ _ _ _ H).
  - intros chunks H. now rewrite (stream_chat_raises _ _ _ _ H).
Qed.

(** C10.  When the call of the model raises, the result of [chat] and of
    [stream_chat] has an empty [skills_used], whatever skills had been
    selected for the turn. *)
Theorem failed_turn_names_no_skills (self : EnhancedOllamaAgent)
    (user_message : str) (temperature : Q) (w w1 : W) (e : exn) :
  (ollama_chat (model self)
     (build_messages self (select_for self user_message) user_message)
     temperature w = (Raise e, w1) ->
   skills_used (fst (fst (chat self user_message temperature w))) = [])
  /\ (forall chunks,
         ollama_chat_stream (model self)
           (build_messages self (select_for self user_message) user_message)
           temperature w = ((chunks, Some e), w1) ->
         skills_used (fst (fst (stream_chat self user_message temperature w)))
         = []).
Proof.
  split.
  - intros H. now rewrite (chat_raises _ _ _ _ H).
  - intros chunks H. now rewrite (stream_chat_raises _ _ _ _ H).
Qed.

End Turns.

Section TurnWitnesses.

Import LocalSkills Agent Notions Sim.

Lemma chat_runs_every_block_witness :
  ran (snd (chat Demo.agent (lit "Plot it") Demo.temperature Demo.machine))
  = [lit "png('a.png'); plot(1)" ++ [nl]; lit "stop('no data')" ++ [nl]]
  /\ r_executed (fst (fst (chat Demo.agent (lit "Plot it") Demo.temperature
                             Demo.machine))) = true
  /\ r_error (fst (fst (chat Demo.agent (lit "Plot it") Demo.temperature
                          Demo.machine)))
     = Some (Some (lit "Error: execution haltedLoading. ")).
Proof.
  destruct (@chat_runs_every_block world sim_os Demo.agent (lit "Plot it")
              Demo.temperature Demo.machine Demo.machine Demo.answer
              ltac:(reflexivity) ltac:(reflexivity))
    as (_ & _ & Hworld & Hexecuted & _ & Herror).
  split; [|split].
  - rewrite Hworld. reflexivity.
  - rewrite Hexecuted. reflexivity.
  - rewrite Herror. reflexivity.
Defined.

(** C5 as stated fails: with [auto_execute_r] off, an answer with two R
    blocks, the first of which would run well, has none of them run. *)
Lemma chat_runs_every_block_counterexample :
  _extract_code_blocks Demo.answer (verbatim (lit "r"))
  = [lit "png('a.png'); plot(1)" ++ [nl]; lit "stop('no data')" ++ [nl]]
  /\ success (fst (_execute_r_code (lit "png('a.png'); plot(1)" ++ [nl])
                     Demo.machine)) = true
  /\ r_executed (fst (fst (chat Demo.idle_agent (lit "Plot it") Demo.temperature
                             Demo.machine))) = false
  /\ ran (snd (chat Demo.idle_agent (lit "Plot it") Demo.temperature
                 Demo.machine)) = [].
Proof. repeat split. Qed.

Lemma chat_failure_is_reported_witness :
  response (fst (fst (chat Demo.agent Demo.query Demo.temperature Demo.offline)))
  = lit "Error: connection refused"
  /\ response (fst (fst (stream_chat Demo.agent Demo.query Demo.temperature
                           Demo.broken_stream)))
     = lit "Here is the pl".
Proof.
  split.
  - exact (proj1 (proj1 (@chat_failure_is_reported world sim_os Demo.agent
                           Demo.query Demo.temperature Demo.offline Demo.offline
                           Demo.refused)
                    ltac:(reflexivity))).
  - exact (proj1 (proj2 (@chat_failure_is_reported world sim_os Demo.agent
                           Demo.query Demo.temperature Demo.broken_stream
                           Demo.broken_stream Demo.refused)
                    [lit "Here is "; lit "the pl"] ltac:(reflexivity))).
Defined.

(** C4 as stated fails: after a call of the model that raised, the
    conversation history does not hold the user message that was sent;
    and the response of [stream_chat], once fragments had arrived, does
    not carry the description of the failure. *)
Lemma chat_failure_counterexample :
  fst (ollama_chat (model Demo.agent)
         (build_messages Demo.agent (select_for Demo.agent Demo.query) Demo.query)
         Demo.temperature Demo.offline) = Raise Demo.refused
  /\ conversation_history
       (snd (fst (chat Demo.agent Demo.query Demo.temperature Demo.offline)))
     = []
  /\ conversation_history
       (snd (fst (stream_chat Demo.agent Demo.query Demo.temperature
                    Demo.broken_stream)))
     = []
  /\ contains (exn_str Demo.refused)
       (response (fst (fst (stream_chat Demo.agent Demo.query Demo.temperature
                              Demo.broken_stream)))) = false.
Proof. repeat split. Qed.

Lemma failed_turn_names_no_skills_witness :
  map name (select_for Demo.agent Demo.query)
  = [lit "sales-report"; lit "Plotting"]
  /\ skills_used (fst (fst (chat Demo.agent Demo.query Demo.temperature
                              Demo.offline))) = []
  /\ skills_used (fst (fst (stream_chat Demo.agent Demo.query Demo.temperature
                              Demo.broken_stream))) = [].
Proof.
  split; [reflexivity|]. split.
  - exact (proj1 (@failed_turn_names_no_skills world sim_os Demo.agent
                    Demo.query Demo.temperature Demo.offline Demo.offline
                    Demo.refused)
             ltac:(reflexivity)).
  - exact (proj2 (@failed_turn_names_no_skills world sim_os Demo.agent
                    Demo.query Demo.temperature Demo.broken_stream
                    Demo.broken_stream Demo.refused)
             [lit "Here is "; lit "the pl"] ltac:(reflexivity)).
Defined.

End TurnWitnesses.

(** ** The scenarios of the specification, on the simulated machine *)

Section Scenarios.

Import LocalSkills Agent Notions Sim.

(** A registry with the one skill [sales-report] and a question about a
    sales report: the skill is selected and its body is in the prompt. *)
Example scenario_selection :
  select_relevant_skills [Demo.sales_report]
    (lit "Create a sales report for Q4") 2 = [Demo.sales_report]
  /\ contains (content Demo.sales_report)
       (_build_system_prompt [Demo.sales_report]) = true.
Proof. split; reflexivity. Qed.

(** An answer with one block that writes [plot.png] and exits with 0. *)
Example scenario_plot :
  let turn := chat Demo.agent (lit "Plot y = x^2 in R") Demo.temperature
                (boot (Ok Demo.plot_answer) ([], None)) in
  r_executed (fst (fst turn)) = true
  /\ turn_plot_files (fst (fst turn)) = [[lit "plots"; lit "plot.png"]]
  /\ r_error (fst (fst turn)) = None
  /\ shown (snd turn) = [[lit "plots"; lit "plot.png"]]
  /\ conversation_history (snd (fst turn))
     = [{| role := lit "user"; msg_content := lit "Plot y = x^2 in R" |};
        {| role := lit "assistant"; msg_content := Demo.plot_answer |}].
Proof. repeat split. Qed.

(** An answer with a block that exits with a non-zero status. *)
Example scenario_failure :
  let turn := chat Demo.agent (lit "Plot it") Demo.temperature
                (boot (Ok Demo.stop_answer) ([], None)) in
  r_executed (fst (fst turn)) = false
  /\ r_error (fst (fst turn)) = Some (Some (lit "Error: execution haltedLoading. "))
  /\ turn_plot_files (fst (fst turn)) = [].
Proof. repeat split. Qed.

(** A skills directory that does not exist. *)
Example scenario_no_skills_directory :
  exists d,
    _discover_skills Demo.toy_yaml Demo.bare [lit "skills"] = Ok d
    /\ skills d = []
    /\ resolve (tree d) [lit "skills"] = Some (Dir []).
Proof. eexists. repeat split. Qed.

End Scenarios.

(** * Further properties of the code *)

(** ** local_skills.py: more on select_relevant_skills *)

Section SelectionMore.

Import LocalSkills Notions.

Lemma lower_char_idem (c : ascii) : lower_char (lower_char c) = lower_char c.
Proof. destruct c as [[] [] [] [] [] [] [] []]; reflexivity. Qed.

Lemma lower_idem (s : str) : lower (lower s) = lower s.
Proof.
  unfold lower. rewrite map_map. apply map_ext. apply lower_char_idem.
Qed.

(** X1.  The case of the query does not matter: the query and its
    lower-cased form select the same skills, as do two queries that differ
    in case only. *)
Theorem select_ignores_query_case
    (self_skills : list Skill) (q1 q2 : str) (max_skills : Z) :
  lower q1 = lower q2 ->
  select_relevant_skills self_skills q1 max_skills
  = select_relevant_skills self_skills q2 max_skills
  /\ select_relevant_skills self_skills (lower q1) max_skills
     = select_relevant_skills self_skills q1 max_skills.
Proof.
  intros H. rewrite !select_relevant_skills_eq, lower_idem. now rewrite H.
Qed.

Lemma select_ignores_query_case_witness :
  select_relevant_skills Demo.registry (lit "CREATE a sales REPORT") 2
  = select_relevant_skills Demo.registry (lit "create A Sales report") 2.
Proof.
  exact (proj1 (select_ignores_query_case Demo.registry
                  (lit "CREATE a sales REPORT") (lit "create A Sales report") 2
                  ltac:(reflexivity))).
Defined.

Lemma score_zero_short (q : str) (sk : Skill) :
  (forall t, In t (split q) -> length t <= 3) ->
  skill_score (lower q) sk = 0.
Proof.
  intros H. rewrite skill_score_spec.
  replace (filter _ (split q)) with (@nil str); [reflexivity|].
  symmetry. induction (split q) as [|t ts IH]; [reflexivity|].
  cbn [filter].
  assert (Ht : (3 <? length t) = false)
    by (apply Nat.ltb_ge, H; now left).
  rewrite Ht. cbn [andb]. apply IH. intros u Hu. apply H. now right.
Qed.

(** X2.  A query without a word of more than three characters, the
    empty query among them, selects no skill, whatever the registry and
    [max_skills]. *)
Theorem short_words_select_nothing
    (self_skills : list Skill) (q : str) (max_skills : Z) :
  (forall t, In t (split q) -> length t <= 3) ->
  select_relevant_skills self_skills q max_skills = [].
Proof.
  intros H. rewrite select_relevant_skills_eq.
  replace (filter _ self_skills) with (@nil Skill).
  - unfold slice_to. cbn [map sort_reverse fold_right].
    now rewrite firstn_nil.
  - symmetry. induction self_skills as [|sk l IH]; [reflexivity|].
    cbn [filter]. now rewrite (@score_zero_short q sk H).
Qed.

Lemma short_words_select_nothing_witness :
  select_relevant_skills Demo.registry (lit "a R pie for Q4 ?") 3 = [].
Proof.
  apply short_words_select_nothing.
  intros t Ht. vm_compute in Ht.
  repeat (destruct Ht as [<-|Ht]; [vm_compute; lia|]). destruct Ht.
Defined.

Lemma ranking_length (self_skills : list Skill) (q : str) :
  length (sort_reverse
            (map (fun sk => (skill_score (lower q) sk, sk))
               (filter (fun sk => 0 <? skill_score (lower q) sk) self_skills)))
  <= length self_skills.
Proof.
  rewrite (Permutation_length (sort_reverse_perm _)), length_map.
  apply filter_length_le.
Qed.

(** X3.  Asking for more skills never changes the ones already
    returned: for [0 <= k <= k'] the result for [k] is the first [k] of
    the result for [k'], and from [k] = the size of the registry on, the
    result is the whole ranking. *)
Theorem select_is_prefix (self_skills : list Skill) (q : str) (k k' : Z) :
  (0 <= k <= k')%Z ->
  select_relevant_skills self_skills q k
  = firstn (Z.to_nat k) (select_relevant_skills self_skills q k')
  /\ ((Z.of_nat (length self_skills) <= k)%Z ->
      select_relevant_skills self_skills q k
      = select_relevant_skills self_skills q k').
Proof.
  intros [Hk Hkk']. rewrite !select_relevant_skills_eq.
  rewrite !slice_to_nonneg by lia. rewrite <- !firstn_map.
  split.
  - rewrite firstn_firstn. f_equal. lia.
  - intros Hall. pose proof (ranking_length self_skills q) as Hlen.
    rewrite !firstn_all2; [reflexivity| |]; rewrite length_map; lia.
Qed.

Lemma select_is_prefix_witness :
  select_relevant_skills Demo.registry Demo.query 1
  = firstn 1 (select_relevant_skills Demo.registry Demo.query 3).
Proof.
  exact (proj1 (select_is_prefix Demo.registry Demo.query (k := 1) (k' := 3)
                  ltac:(lia))).
Defined.

(** X4.  A negative [max_skills] is read as a slice bound from the end:
    the result is the whole ranking without its last [- max_skills]
    skills. *)
Theorem select_negative_drops_last
    (self_skills : list Skill) (q : str) (max_skills : Z) :
  (max_skills < 0)%Z ->
  let ranking :=
    select_relevant_skills self_skills q (Z.of_nat (length self_skills)) in
  select_relevant_skills self_skills q max_skills
  = firstn (length ranking - Z.to_nat (- max_skills)) ranking.
Proof.
  intros Hk ranking. unfold ranking.
  rewrite !select_relevant_skills_eq.
  pose proof (ranking_length self_skills q) as Hlen.
  rewrite (slice_to_nonneg (k := Z.of_nat (length self_skills))) by lia.
  rewrite Nat2Z.id.
  set (R := sort_reverse _) in *.
  rewrite (@firstn_all2 _ (length self_skills) R Hlen).
  unfold slice_to. apply Z.ltb_lt in Hk. rewrite Hk. apply Z.ltb_lt in Hk.
  rewrite <- firstn_map, length_map. f_equal. lia.
Qed.

Lemma select_negative_drops_last_witness :
  map name (select_relevant_skills Demo.registry Demo.query (-2))
  = [lit "sales-report"].
Proof.
  rewrite (select_negative_drops_last Demo.registry Demo.query
             (max_skills := -2) ltac:(lia)).
  reflexivity.
Defined.

Lemma filter_nonempty {A} (P : A -> bool) (l : list A) :
  0 < length (filter P l) <-> exists x, In x l /\ P x = true.
Proof.
  split.
  - intros H. destruct (filter P l) as [|x xs] eqn:E; [simpl in H; lia|].
    assert (Hin : In x (filter P l)) by (rewrite E; now left).
    apply filter_In in Hin. now exists x.
  - intros (x & Hin & Hx).
    assert (Hf : In x (filter P l)) by now apply filter_In.
    destruct (filter P l); [destruct Hf | simpl; lia].
Qed.

Lemma score_positive (q : str) (sk : Skill) :
  0 < skill_score (lower q) sk
  <-> exists word,
        In word (split q) /\ 3 < length word
        /\ contains (lower word)
             (lower (name sk ++ lit " " ++ description sk)) = true.
Proof.
  rewrite skill_score_spec, filter_nonempty. split.
  - intros (word & Hin & Hc). apply andb_true_iff in Hc as [Hl Hc].
    apply Nat.ltb_lt in Hl. now exists word.
  - intros (word & Hin & Hl & Hc). exists word. split; [exact Hin|].
    apply Nat.ltb_lt in Hl. now rewrite Hl, Hc.
Qed.

(** X5.  With [max_skills] at least the size of the registry, a skill is
    returned exactly when it is registered and some word of the query of
    more than three characters occurs, case ignored, in its name, a space
    and its description. *)
Theorem select_membership (self_skills : list Skill) (q : str)
    (max_skills : Z) (sk : Skill) :
  (Z.of_nat (length self_skills) <= max_skills)%Z ->
  In sk (select_relevant_skills self_skills q max_skills)
  <-> In sk self_skills
      /\ exists word,
           In word (split q) /\ 3 < length word
           /\ contains (lower word)
                (lower (name sk ++ lit " " ++ description sk)) = true.
Proof.
  intros Hk. rewrite select_relevant_skills_eq.
  pose proof (ranking_length self_skills q) as Hlen.
  rewrite slice_to_nonneg by lia. rewrite firstn_all2 by lia.
  rewrite <- score_positive.
  assert (Hperm : Permutation
                    (map snd (sort_reverse
                       (map (fun s => (skill_score (lower q) s, s))
                          (filter (fun s => 0 <? skill_score (lower q) s)
                             self_skills))))
                    (filter (fun s => 0 <? skill_score (lower q) s) self_skills)).
  { rewrite (Permutation_map snd (sort_reverse_perm _)).
    rewrite map_map. simpl. now rewrite map_id. }
  split.
  - intros H. apply (Permutation_in _ Hperm) in H.
    apply filter_In in H as [Hin Hpos]. now apply Nat.ltb_lt in Hpos.
  - intros [Hin Hpos]. apply (Permutation_in _ (Permutation_sym Hperm)).
    apply filter_In. split; [exact Hin | now apply Nat.ltb_lt].
Qed.

Lemma select_membership_witness :
  In Demo.sales_chart (select_relevant_skills Demo.registry Demo.query 3).
Proof.
  apply (select_membership Demo.registry Demo.query (max_skills := 3)
           Demo.sales_chart ltac:(simpl; lia)).
  split; [right; right; now left|].
  exists (lit "SALES"). repeat split; [vm_compute; tauto | vm_compute; lia].
Defined.

End SelectionMore.

(** ** local_skills.py: get_skill_by_name *)

Section Lookup.

Import LocalSkills Notions.

(** X6.  [get_skill_by_name] returns the first skill, in registry order,
    whose name equals the given one up to case, and [None] exactly when no
    skill has such a name; the case of the argument does not matter. *)
Theorem get_skill_by_name_first (self_skills : list Skill) (nm : str) :
  (forall sk,
      get_skill_by_name self_skills nm = Some sk
      <-> exists before after,
            self_skills = before ++ sk :: after
            /\ lower (name sk) = lower nm
            /\ Forall (fun s => lower (name s) <> lower nm) before)
  /\ (get_skill_by_name self_skills nm = None
      <-> Forall (fun s => lower (name s) <> lower nm) self_skills)
  /\ get_skill_by_name self_skills (lower nm)
     = get_skill_by_name self_skills nm.
Proof.
  split; [|split].
  - induction self_skills as [|s l IH]; intros sk; cbn [get_skill_by_name].
    + split; [discriminate|]. intros (before & after & E & _).
      now destruct before.
    + destruct (str_eqb (lower (name s)) (lower nm)) eqn:E.
      * apply str_eqb_eq in E. split.
        -- intros [= <-]. now exists [], l.
        -- intros ([|b before] & after & Hl & Hn & Hb).
           ++ now injection Hl as <- _.
           ++ injection Hl as <- _. inversion Hb. contradiction.
      * apply str_eqb_neq in E. rewrite IH. split.
        -- intros (before & after & -> & Hn & Hb).
           exists (s :: before), after. repeat split; [exact Hn|].
           now constructor.
        -- intros ([|b before] & after & Hl & Hn & Hb).
           ++ injection Hl as <- _. contradiction.
           ++ injection Hl as <- ->. inversion Hb. now exists before, after.
  - induction self_skills as [|s l IH]; cbn [get_skill_by_name].
    + split; [constructor | reflexivity].
    + destruct (str_eqb (lower (name s)) (lower nm)) eqn:E.
      * apply str_eqb_eq in E. split; [discriminate|].
        intros H. inversion H. contradiction.
      * apply str_eqb_neq in E. rewrite IH. split.
        -- now constructor.
        -- intros H. now inversion H.
  - induction self_skills as [|s l IH]; cbn [get_skill_by_name];
      [reflexivity|].
    now rewrite lower_idem, IH.
Qed.

End Lookup.

(** ** local_skills.py: manifests *)

Section Manifests.

Import LocalSkills Notions.

Variable yaml_safe_load : str -> res yaml_doc.

Lemma literal_none (p s : str) :
  startswith p s = false -> Re.literal p s = None.
Proof.
  revert s; induction p as [|a p IH]; intros s H; [discriminate|].
  destruct s as [|b s]; [reflexivity|]. cbn in *.
  destruct (ascii_eqb a b); [now apply IH | reflexivity].
Qed.

Lemma literal_app (p s : str) : Re.literal p (p ++ s) = Some s.
Proof.
  induction p as [|a p IH]; [reflexivity|]. cbn.
  replace (ascii_eqb a a) with true by (symmetry; now apply ascii_eqb_eq).
  exact IH.
Qed.

Lemma literal_inv (p s r : str) : Re.literal p s = Some r -> s = p ++ r.
Proof.
  revert s; induction p as [|a p IH]; intros s H; cbn in H.
  - now injection H as ->.
  - destruct s as [|b s]; [discriminate|].
    destruct (ascii_eqb a b) eqn:E; [|discriminate].
    apply ascii_eqb_eq in E; subst b. cbn. f_equal. now apply IH.
Qed.

Lemma star_greedy_none {A} (cls : ascii -> bool) (s : str)
    (k : str -> option A) :
  (forall a b, s = a ++ b -> k b = None) ->
  Re.star_greedy cls s k = None.
Proof.
  induction s as [|c s IH]; intros H; cbn.
  - now apply (H [] []).
  - assert (Hs : k (c :: s) = None) by now apply (H []).
    destruct (cls c); [|exact Hs].
    rewrite IH; [exact Hs|].
    intros a b ->. now apply (H (c :: a)).
Qed.

Lemma star_lazy_none {A} (cls : ascii -> bool) (s : str)
    (k : str -> str -> option A) :
  (forall a b, s = a ++ b -> k a b = None) ->
  Re.star_lazy cls s k = None.
Proof.
  revert k; induction s as [|c s IH]; intros k H; cbn.
  - now rewrite (H [] []).
  - rewrite (H [] (c :: s)) by reflexivity.
    destruct (cls c); [|reflexivity].
    apply IH. intros a b ->. now apply (H (c :: a)).
Qed.

Lemma contains_app_r (p a b : str) :
  contains p (a ++ b) = false -> contains p b = false.
Proof.
  induction a as [|c a IH]; [trivial|]. cbn [app contains].
  intros H. apply orb_false_iff in H as [_ H]. now apply IH.
Qed.

Lemma contains_false_startswith (p s : str) :
  contains p s = false -> startswith p s = false.
Proof.
  destruct s; cbn [contains]; intros H; now apply orb_false_iff in H as [H _].
Qed.

(** Without a closing marker there is no frontmatter. *)
Lemma frontmatter_needs_marker (text : str) :
  contains (nl :: lit "---") text = false -> frontmatter_match text = None.
Proof.
  intros H. unfold frontmatter_match, opt_bind.
  destruct (Re.literal (lit "---") text) as [s1|] eqn:E1; [|reflexivity].
  assert (H1 : contains (nl :: lit "---") s1 = false).
  { apply literal_inv in E1. subst text. now apply contains_app_r in H. }
  apply star_greedy_none. intros a s2 ->.
  destruct (Re.literal [nl] s2) as [s3|] eqn:E3; [|reflexivity].
  assert (H3 : contains (nl :: lit "---") s3 = false).
  { apply contains_app_r in H1. apply literal_inv in E3. subst s2.
    now apply contains_app_r in H1. }
  apply star_lazy_none. intros g1 s4 ->.
  apply contains_app_r in H3.
  now rewrite (literal_none _ _ (contains_false_startswith _ _ H3)).
Qed.

Lemma load_without_frontmatter (skill_path : Path)
    (entries : list (str * node)) (text : str) :
  child SKILL_md entries = Some (File (Text text)) ->
  frontmatter_match text = None ->
  _load_skill yaml_safe_load skill_path entries
  = Ok {| path := skill_path;
          name := path_name skill_path;
          description := [];
          content := text;
          reference_files := index_reference_files skill_path entries |}.
Proof.
  intros Hc Hf. unfold _load_skill, read_text. cbn [resolve].
  rewrite Hc. cbn [res_bind]. now rewrite Hf.
Qed.

(** X7.  A manifest that does not begin with three dashes, or that has
    no line beginning with three dashes after its first, has no
    frontmatter: the skill loads with the name of its directory, an empty
    description and the whole text as content, and the YAML parser is not
    consulted. *)
Theorem manifest_without_frontmatter (skill_path : Path)
    (entries : list (str * node)) (text : str) :
  child SKILL_md entries = Some (File (Text text)) ->
  startswith (lit "---") text = false
  \/ contains (nl :: lit "---") text = false ->
  _load_skill yaml_safe_load skill_path entries
  = Ok {| path := skill_path;
          name := path_name skill_path;
          description := [];
          content := text;
          reference_files := index_reference_files skill_path entries |}.
Proof.
  intros Hc H. apply load_without_frontmatter with (text := text);
    [exact Hc|].
  destruct H as [H|H].
  - unfold frontmatter_match. now rewrite (literal_none _ _ H).
  - now apply frontmatter_needs_marker.
Qed.

End Manifests.

Lemma manifest_without_frontmatter_witness :
  LocalSkills.name
    (match LocalSkills._load_skill Demo.toy_yaml [lit "skills"; lit "plain"]
             Demo.plain_dir with
     | Ok sk => sk
     | Raise _ => Demo.split_word
     end) = lit "plain".
Proof.
  rewrite (manifest_without_frontmatter Demo.toy_yaml [lit "skills"; lit "plain"]
             Demo.plain_dir (text := lit "Just a body.")
             ltac:(reflexivity) ltac:(left; reflexivity)).
  reflexivity.
Defined.

Section Frontmatter.

Import LocalSkills Notions.

Lemma nl_is_space (c : ascii) : is_space c = false -> ascii_eqb nl c = false.
Proof.
  intros H. destruct (ascii_eqb nl c) eqn:E; [|reflexivity].
  apply ascii_eqb_eq in E. subst c. discriminate.
Qed.

Lemma no_marker_before_end (c : ascii) (b rest : str) :
  contains (nl :: lit "---") ((c :: b) ++ nl :: lit "--") = false ->
  Re.literal (nl :: lit "---") ((c :: b) ++ (nl :: lit "---") ++ rest) = None.
Proof.
  intros H. apply contains_false_startswith in H.
  apply literal_none.
  destruct (startswith (nl :: lit "---") ((c :: b) ++ (nl :: lit "---") ++ rest))
    eqn:E; [|reflexivity].
  rewrite <- H. clear H.
  destruct b as [|d [|e [|f b]]]; cbn in E |- *;
    repeat match goal with
           | H : context [ascii_eqb ?a ?b] |- _ =>
               destruct (ascii_eqb a b); cbn in H |- *
           end;
    congruence.
Qed.

Lemma marker_free_cons (c : ascii) (b : str) :
  contains (nl :: lit "---") ((c :: b) ++ nl :: lit "--") = false ->
  contains (nl :: lit "---") (b ++ nl :: lit "--") = false.
Proof.
  cbn [app contains]. intros H. now apply orb_false_iff in H as [_ H].
Qed.

(** The lazy group of the frontmatter pattern ends at the first line
    that begins with three dashes. *)
Lemma star_lazy_frontmatter {A} (K : str -> str -> option A) (b rest : str) (x : A) :
  contains (nl :: lit "---") (b ++ nl :: lit "--") = false ->
  K b rest = Some x ->
  Re.star_lazy Re.any (b ++ (nl :: lit "---") ++ rest)
    (fun cap s => opt_bind (Re.literal (nl :: lit "---") s) (K cap))
  = Some x.
Proof.
  revert K; induction b as [|c b IH]; intros K Hfree HK.
  - cbn [app].
    assert (E : Re.literal (nl :: lit "---") ((nl :: lit "---") ++ rest) = Some rest)
      by apply literal_app.
    cbn [app] in *. cbn [Re.star_lazy]. rewrite E. cbn [opt_bind].
    now rewrite HK.
  - pose proof (no_marker_before_end c b rest Hfree) as E.
    cbn [app] in *. cbn [Re.star_lazy]. rewrite E. cbn [opt_bind Re.any].
    apply (IH (fun cap => K (c :: cap))); [|exact HK].
    now apply marker_free_cons in Hfree.
Qed.

Lemma star_greedy_line_end {A} (k : str -> option A) (s : str) :
  starts_plain s = true ->
  (forall c t, s = c :: t -> k s = None) ->
  k [] = None ->
  Re.star_greedy is_space (nl :: s) k = k (nl :: s).
Proof.
  intros Hs Hk Hnil. cbn [Re.star_greedy].
  replace (is_space nl) with true by reflexivity.
  destruct s as [|c t]; cbn [Re.star_greedy].
  - now rewrite Hnil.
  - cbn in Hs. apply negb_true_iff in Hs. rewrite Hs.
    now rewrite (Hk c t eq_refl).
Qed.

Lemma frontmatter_match_render (fm text : str) :
  plain_frontmatter fm = true ->
  starts_plain text = true ->
  frontmatter_match (render_manifest fm text) = Some (fm, text).
Proof.
  intros Hfm Htext. unfold plain_frontmatter in Hfm.
  apply andb_true_iff in Hfm as [Hstart Hfree]. apply negb_true_iff in Hfree.
  unfold frontmatter_match, render_manifest.
  rewrite literal_app. cbn [opt_bind app].
  rewrite star_greedy_line_end.
  - cbn [Re.literal]. replace (ascii_eqb nl nl) with true by reflexivity.
    cbn [opt_bind].
    apply (star_lazy_frontmatter
             (fun g1 s5 =>
                Re.star_greedy is_space s5
                  (fun s6 => opt_bind (Re.literal [nl] s6)
                               (fun s7 => Some (g1, s7))))
             fm (nl :: text) (x := (fm, text)) Hfree).
    rewrite star_greedy_line_end.
    + cbn [Re.literal]. now replace (ascii_eqb nl nl) with true by reflexivity.
    + exact Htext.
    + intros c t ->. cbn in Htext. apply negb_true_iff in Htext.
      cbn [Re.literal]. now rewrite (nl_is_space _ Htext).
    + reflexivity.
  - destruct fm as [|c fm']; [discriminate|]. exact Hstart.
  - intros c t E. destruct fm as [|c' fm']; [discriminate|].
    cbn [app] in E. injection E as <- _.
    apply negb_true_iff in Hstart.
    cbn [app Re.literal]. now rewrite (nl_is_space _ Hstart).
  - reflexivity.
Qed.

Variable yaml_safe_load : str -> res yaml_doc.

(** X8.  A manifest made of a line of three dashes, a frontmatter that
    begins with a visible character and has no line beginning with three
    dashes, a line of three dashes and a text that does not begin with
    white space, is split into exactly that frontmatter and that text.
    With a frontmatter that parses to a mapping the skill loads with the
    text as content, the mapping's [name], or else the name of the
    directory, and its [description], or else the empty string; a
    frontmatter that parses to something else or does not parse makes
    the loading raise. *)
Theorem manifest_with_frontmatter (skill_path : Path)
    (entries : list (str * node)) (fm text : str) :
  plain_frontmatter fm = true ->
  starts_plain text = true ->
  child SKILL_md entries = Some (File (Text (render_manifest fm text))) ->
  frontmatter_match (render_manifest fm text) = Some (fm, text)
  /\ (forall fields,
         yaml_safe_load fm = Ok (YMapping fields) ->
         _load_skill yaml_safe_load skill_path entries
         = Ok {| path := skill_path;
                 name := match dict_get (lit "name") fields with
                         | Some n => n
                         | None => path_name skill_path
                         end;
                 description := match dict_get (lit "description") fields with
                                | Some d => d
                                | None => []
                                end;
                 content := text;
                 reference_files := index_reference_files skill_path entries |})
  /\ (yaml_safe_load fm = Ok YOther ->
      exists e, _load_skill yaml_safe_load skill_path entries = Raise e
                /\ exn_cls e = AttributeError)
  /\ (forall e,
         yaml_safe_load fm = Raise e ->
         _load_skill yaml_safe_load skill_path entries = Raise e).
Proof.
  intros Hfm Htext Hc.
  pose proof (frontmatter_match_render fm text Hfm Htext) as Hmatch.
  split; [exact Hmatch|].
  unfold _load_skill, read_text. cbn [resolve]. rewrite Hc.
  cbn [res_bind]. rewrite Hmatch.
  split; [|split].
  - intros fields ->. reflexivity.
  - intros ->. cbn [res_bind]. eexists. split; reflexivity.
  - intros e ->. reflexivity.
Qed.

End Frontmatter.

Lemma manifest_with_frontmatter_witness :
  LocalSkills._load_skill Demo.toy_yaml Demo.plotting_path Demo.plotting_dir
  = Ok Demo.loaded_plotting.
Proof.
  destruct (manifest_with_frontmatter Demo.toy_yaml Demo.plotting_path
              Demo.plotting_dir
              (fm := lit "name: Plotting" ++ [nl] ++ lit "description: Create a plot in R")
              (text := lit "Use ggplot2.")
              ltac:(reflexivity) ltac:(reflexivity) ltac:(reflexivity))
    as (_ & Hmap & _).
  rewrite (Hmap [(lit "name", lit "Plotting");
                 (lit "description", lit "Create a plot in R")]
             ltac:(reflexivity)).
  reflexivity.
Defined.

(** ** local_skills.py: reading reference files back *)

Section ReadBack.

Import LocalSkills Notions.

Lemma resolve_app (n : node) (p q : Path) :
  resolve n (p ++ q)
  = match resolve n p with
    | Some m => resolve m q
    | None => None
    end.
Proof.
  revert n; induction p as [|c p IH]; intros n; [reflexivity|].
  cbn [app resolve]. destruct n as [d|entries]; [reflexivity|].
  destruct (child c entries); [apply IH | reflexivity].
Qed.

Lemma rglob_from_prefix (n : node) :
  forall here rel m,
    In (rel, m) (rglob_from here n) ->
    exists rel', rel = here ++ rel' /\ rel' <> [].
Proof.
  induction n as [d|entries IH] using node_induction; intros here rel m H;
    [destruct H|].
  cbn [rglob_from] in H. apply in_flat_map in H as (e & He & H).
  rewrite Forall_forall in IH. destruct H as [H|H].
  - injection H as <- _. now exists [fst e].
  - destruct (IH e He _ _ _ H) as (rel' & -> & _).
    exists (fst e :: rel'). split; [now rewrite <- app_assoc | discriminate].
Qed.

(** Among entries with distinct paths, a name denotes the entry that
    carries it. *)
Lemma child_of_distinct (here : Path) (entries : list (str * node))
    (nm : str) (n : node) :
  NoDup (map (fun e => str_of_path (fst e)) (rglob_from here (Dir entries))) ->
  In (nm, n) entries ->
  child nm entries = Some n.
Proof.
  cbn [rglob_from]. induction entries as [|[k m] entries IH]; intros Hnd Hin;
    [destruct Hin|].
  cbn [flat_map map fst snd app] in Hnd. cbn [child].
  inversion Hnd as [|? ? Hk Hrest]; subst.
  rewrite map_app in Hrest, Hk.
  destruct Hin as [[= -> ->]|Hin].
  - now rewrite str_eqb_refl.
  - destruct (str_eqb k nm) eqn:E.
    + exfalso. apply str_eqb_eq in E. subst k. apply Hk.
      apply in_or_app. right. apply in_map_iff.
      exists (here ++ [nm], n). split; [reflexivity|].
      apply in_flat_map. exists (nm, n). split; [exact Hin | now left].
    + apply IH; [|exact Hin]. now apply NoDup_app_remove_l in Hrest.
Qed.

Lemma NoDup_flat_map_part {A B} (f : A -> list B) (l : list A) (x : A) :
  NoDup (flat_map f l) -> In x l -> NoDup (f x).
Proof.
  induction l as [|y l IH]; intros Hnd Hin; [destruct Hin|].
  cbn [flat_map] in Hnd. destruct Hin as [->|Hin].
  - now apply NoDup_app_remove_r in Hnd.
  - apply IH; [|exact Hin]. now apply NoDup_app_remove_l in Hnd.
Qed.

Lemma rglob_from_resolve (n : node) :
  forall here rel m,
    NoDup (map (fun e => str_of_path (fst e)) (rglob_from here n)) ->
    In (here ++ rel, m) (rglob_from here n) ->
    resolve n rel = Some m.
Proof.
  induction n as [d|entries IH] using node_induction; intros here rel m Hnd H;
    [destruct H|].
  pose proof H as H0. cbn [rglob_from] in H.
  apply in_flat_map in H as ([nm c] & He & H). cbn [fst snd] in H.
  rewrite Forall_forall in IH.
  assert (Hchild : child nm entries = Some c)
    by now apply (child_of_distinct here).
  assert (Hsub : NoDup (map (fun e => str_of_path (fst e))
                          (rglob_from (here ++ [nm]) c))).
  { cbn [rglob_from] in Hnd. rewrite flat_map_concat_map, concat_map, map_map in Hnd.
    rewrite <- flat_map_concat_map in Hnd.
    apply (NoDup_flat_map_part _ _ (nm, c)) in Hnd; [|exact He].
    cbn [map fst snd] in Hnd. now inversion Hnd. }
  destruct H as [H|H].
  - injection H as Hrel <-. apply app_inv_head in Hrel. subst rel.
    cbn [resolve]. now rewrite Hchild.
  - destruct (rglob_from_prefix _ _ _ _ H) as (rel' & Hrel & Hne).
    rewrite <- app_assoc in Hrel. apply app_inv_head in Hrel. subst rel.
    cbn [app resolve]. rewrite Hchild.
    apply (IH (nm, c) He (here ++ [nm])); [exact Hsub|].
    now rewrite <- app_assoc.
Qed.

Variable yaml_safe_load : str -> res yaml_doc.

(** X9.  For a skill loaded from a directory whose entries have distinct
    paths, every regular file found by the walk whose name is not
    [SKILL.md] can be read back under its relative path:
    [read_reference_file] returns its text if it decodes and the marker
    [[Binary file: path]] if not. *)
Theorem reference_file_read_back (cwd : node) (skill_path : Path)
    (entries : list (str * node)) (skill : Skill)
    (rel_path : Path) (data : file_data) :
  distinct_paths entries = true ->
  resolve cwd skill_path = Some (Dir entries) ->
  _load_skill yaml_safe_load skill_path entries = Ok skill ->
  In (rel_path, File data) (rglob entries) ->
  path_name rel_path <> SKILL_md ->
  read_reference_file cwd skill (str_of_path rel_path)
  = Ok (Some match data with
             | Text text => text
             | Undecodable =>
                 lit "[Binary file: " ++ str_of_path rel_path ++ lit "]"
             end).
Proof.
  intros Hdistinct Hcwd Hload Hin Hname.
  pose proof (load_skill_reference_files _ _ _ Hload) as Hrefs.
  rewrite index_reference_files_eq in Hrefs by exact Hdistinct.
  assert (Hget : dict_get (str_of_path rel_path) (reference_files skill)
                 = Some (skill_path ++ rel_path)).
  { rewrite Hrefs. apply dict_get_In; [now apply index_keys_NoDup|].
    apply in_map_iff. exists (rel_path, File data). split; [reflexivity|].
    apply filter_In. split; [exact Hin|].
    unfold indexed. cbn [fst snd is_file].
    apply str_eqb_neq in Hname. now rewrite Hname. }
  assert (Hres : resolve cwd (skill_path ++ rel_path) = Some (File data)).
  { rewrite resolve_app, Hcwd.
    apply (rglob_from_resolve (Dir entries) [] rel_path).
    - now apply distinct_NoDup.
    - exact Hin. }
  unfold read_reference_file, read_text. rewrite Hget, Hres.
  now destruct data.
Qed.

End ReadBack.

Lemma reference_file_read_back_witness :
  LocalSkills.read_reference_file Demo.cwd Demo.loaded_plotting
    (lit "refs/palette.txt") = Ok (Some (lit "viridis")).
Proof.
  apply (@reference_file_read_back Demo.toy_yaml Demo.cwd
           Demo.plotting_path Demo.plotting_dir Demo.loaded_plotting
           [lit "refs"; lit "palette.txt"]
           (LocalSkills.Text (lit "viridis"))
           ltac:(reflexivity) ltac:(reflexivity) ltac:(reflexivity)).
  - vm_compute. right. right. now left.
  - discriminate.
Defined.

(** ** enhanced_ollama_agent.py: more on _extract_code_blocks *)

Section ExtractionMore.

Import LocalSkills Agent Notions.

Lemma literal_ci_inv (p s r : str) :
  Re.literal_ci p s = Some r -> exists q, s = q ++ r /\ lower q = lower p.
Proof.
  revert s; induction p as [|a p IH]; intros s H; cbn in H.
  - injection H as ->. now exists [].
  - destruct s as [|b s]; [discriminate|].
    destruct (ascii_eqb (lower_char a) (lower_char b)) eqn:E; [|discriminate].
    apply ascii_eqb_eq in E. destruct (IH _ H) as (q & -> & Hq).
    exists (b :: q). split; [reflexivity|].
    unfold lower in *. cbn [map]. now rewrite Hq, E.
Qed.

Lemma literal_ci_lower (p q s : str) :
  lower p = lower q -> Re.literal_ci p s = Re.literal_ci q s.
Proof.
  revert q s; induction p as [|a p IH]; intros [|b q] s H; try discriminate;
    [reflexivity|].
  cbn in H. injection H as Hab Hpq. destruct s as [|c s]; [reflexivity|].
  cbn. rewrite Hab. destruct (ascii_eqb (lower_char b) (lower_char c));
    [now apply IH | reflexivity].
Qed.

Lemma literal_ci_fence_inv (s r : str) :
  Re.literal_ci fence s = Some r -> s = fence ++ r.
Proof.
  intros H.
  assert (Hs : startswith fence s = true)
    by (apply literal_ci_fence; congruence).
  destruct (startswith_inv _ _ Hs) as [t ->].
  rewrite literal_ci_same in H by reflexivity. now injection H as ->.
Qed.

(** The lazy star stops at the first place where what follows matches. *)
Lemma star_lazy_first {A} (cls : ascii -> bool) (s : str)
    (k : str -> str -> option A) (x : A) :
  Re.star_lazy cls s k = Some x ->
  exists cap rest,
    s = cap ++ rest /\ k cap rest = Some x
    /\ forall a b, cap = a ++ b -> b <> [] -> k a (b ++ rest) = None.
Proof.
  revert k; induction s as [|c s IH]; intros k H; cbn in H.
  - destruct (k [] []) eqn:E; [|discriminate]. injection H as ->.
    exists [], []. repeat split; [exact E|].
    intros a b Hab Hb. destruct a, b; try discriminate. congruence.
  - destruct (k [] (c :: s)) eqn:E.
    + injection H as ->. exists [], (c :: s). repeat split; [exact E|].
      intros a b Hab Hb. destruct a, b; try discriminate. congruence.
    + destruct (cls c); [|discriminate].
      destruct (IH _ H) as (cap & rest & -> & Hk & Hfirst).
      exists (c :: cap), rest. repeat split; [exact Hk|].
      intros [|a0 a] b Hab Hb.
      * cbn in Hab. subst b. exact E.
      * cbn in Hab. injection Hab as <- Hab. now apply Hfirst.
Qed.

(** A match of the pattern at the head of [s]: an opening fence of the
    language, the body, a fence, and the rest; the body holds no fence. *)
Lemma block_at_inv (language s g r : str) :
  block_at language s = Some (g, r) ->
  exists o,
    s = o ++ g ++ fence ++ r
    /\ lower o = lower (opener language)
    /\ contains fence g = false.
Proof.
  unfold block_at, opt_bind.
  destruct (Re.literal_ci (opener language) s) as [s1|] eqn:E1;
    [|discriminate].
  intros H. apply star_lazy_first in H as (cap & rest & -> & H & Hfirst).
  destruct (Re.literal_ci fence rest) as [s3|] eqn:E3; [|discriminate].
  injection H as <- <-.
  apply literal_ci_fence_inv in E3. subst rest.
  destruct (literal_ci_inv _ _ E1) as (o & -> & Ho).
  exists o. repeat split; [exact Ho|].
  destruct (contains fence cap) eqn:Ec; [|reflexivity].
  apply contains_spec in Ec as (a & b & ->).
  assert (Hne : fence ++ b <> []) by discriminate.
  specialize (Hfirst a (fence ++ b) eq_refl Hne).
  rewrite <- !app_assoc in Hfirst.
  rewrite literal_ci_same in Hfirst by reflexivity. discriminate.
Qed.

Lemma findall_fuel_sound (at_ : str -> option (str * str)) :
  (forall s g r, at_ s = Some (g, r) -> exists c, s = c ++ r) ->
  forall fuel s g,
    In g (Re.findall_fuel fuel at_ s) ->
    exists pre s' r, s = pre ++ s' /\ at_ s' = Some (g, r).
Proof.
  intros Hsuffix. induction fuel as [|fuel IH]; intros s g H; [destruct H|].
  cbn in H. destruct (at_ s) as [[g0 r0]|] eqn:E.
  - destruct H as [<-|H].
    + now exists [], s, r0.
    + destruct (IH _ _ H) as (pre & s' & r & -> & Hat).
      destruct (Hsuffix _ _ _ E) as [c ->].
      exists (c ++ pre), s', r. split; [now rewrite app_assoc | exact Hat].
  - destruct s as [|c s]; [destruct H|].
    destruct (IH _ _ H) as (pre & s' & r & -> & Hat).
    now exists (c :: pre), s', r.
Qed.

(** X10.  For a language in which every character stands for itself:
    whatever the text, every body [_extract_code_blocks] returns stands
    in the text between an opening fence of the language, in any case,
    and a fence, and holds no fence itself: nothing is returned that is
    not a closed block, and an opening that is never closed gives no
    body. *)
Theorem extracted_bodies_are_blocks (text language : str) :
  plain language = true ->
  Forall
    (fun b =>
       exists before o rest,
         text = before ++ o ++ b ++ fence ++ rest
         /\ lower o = lower (fence ++ language_text (verbatim language) ++ [nl])
         /\ contains fence b = false)
    (_extract_code_blocks text (verbatim language)).
Proof.
  intros Hplain. rewrite (language_text_verbatim _ Hplain).
  apply Forall_forall. intros b Hb.
  rewrite extract_verbatim in Hb. unfold Re.findall in Hb.
  apply findall_fuel_sound in Hb as (pre & s' & r & -> & Hat).
  - destruct (block_at_inv _ _ Hat) as (o & -> & Ho & Hc).
    now exists pre, o, r.
  - intros s g r H. destruct (block_at_inv _ _ H) as (o & -> & _).
    exists (o ++ g ++ fence). now rewrite <- !app_assoc.
Qed.

Lemma findall_fuel_size (at_ : str -> option (str * str)) (c : nat) :
  (forall s g r, at_ s = Some (g, r) -> c + length g + length r <= length s) ->
  forall fuel s,
    list_sum (map (fun g => c + length g) (Re.findall_fuel fuel at_ s))
    <= length s.
Proof.
  intros Hsize. induction fuel as [|fuel IH]; intros s;
    cbn [Re.findall_fuel]; [cbn; lia|].
  destruct (at_ s) as [[g r]|] eqn:E.
  - cbn [map list_sum fold_right]. specialize (IH r). apply Hsize in E.
    unfold list_sum in IH. lia.
  - destruct s as [|a s]; [cbn; lia|]. specialize (IH s). cbn [length]. lia.
Qed.

Lemma block_at_size (language s g r : str) :
  block_at language s = Some (g, r) ->
  (7 + length language) + length g + length r <= length s.
Proof.
  intros H. destruct (block_at_inv _ _ H) as (o & -> & Ho & _).
  assert (Hlen : length o = length (opener language))
    by (rewrite <- (length_lower o), Ho; apply length_lower).
  unfold opener in Hlen. rewrite !length_app in *.
  change (length fence) with 3 in *. cbn [length] in *. lia.
Qed.

Lemma list_sum_shift (c : nat) (l : list str) :
  list_sum (map (fun g => c + length g) l)
  = length l * c + list_sum (map (@length ascii) l).
Proof.
  induction l as [|g l IH]; [reflexivity|].
  cbn [map list_sum fold_right length]. unfold list_sum in IH. rewrite IH. lia.
Qed.

(** X11.  For a language in which every character stands for itself:
    the bodies returned, each with the seven characters of its two fences
    and line break and the characters of the language, fit in the text
    side by side: a text of n characters gives at most
    n / (7 + the length of the language) bodies. *)
Theorem extracted_bodies_fit (text language : str) :
  plain language = true ->
  length (_extract_code_blocks text (verbatim language))
  * (7 + length (language_text (verbatim language)))
  + list_sum (map (@length ascii)
                (_extract_code_blocks text (verbatim language)))
  <= length text.
Proof.
  intros Hplain. rewrite (language_text_verbatim _ Hplain).
  rewrite <- list_sum_shift, extract_verbatim. unfold Re.findall.
  apply findall_fuel_size. intros s g r. apply block_at_size.
Qed.

(** X12.  For languages in which every character stands for itself, the
    case of the language does not matter: two that differ in case only
    give the same bodies on every text. *)
Theorem extract_ignores_language_case (text l1 l2 : str) :
  plain l1 = true ->
  plain l2 = true ->
  lower (language_text (verbatim l1)) = lower (language_text (verbatim l2)) ->
  _extract_code_blocks text (verbatim l1)
  = _extract_code_blocks text (verbatim l2).
Proof.
  intros H1 H2. rewrite !language_text_verbatim by assumption. intros H.
  rewrite !extract_verbatim. unfold Re.findall.
  apply findall_fuel_ext. intros s. unfold block_at, opener.
  rewrite (literal_ci_lower (fence ++ l1 ++ [nl]) (fence ++ l2 ++ [nl])).
  - reflexivity.
  - unfold lower in *. rewrite !map_app. now rewrite H.
Qed.

End ExtractionMore.

Lemma extracted_bodies_are_blocks_witness :
  Forall
    (fun b =>
       exists before o rest,
         Demo.answer = before ++ o ++ b ++ Agent.fence ++ rest
         /\ lower o = lower (Agent.fence ++ lit "r" ++ [nl])
         /\ contains Agent.fence b = false)
    (Agent._extract_code_blocks Demo.answer (Agent.verbatim (lit "r"))).
Proof.
  exact (extracted_bodies_are_blocks Demo.answer (lit "r") ltac:(reflexivity)).
Defined.

Lemma extracted_bodies_fit_witness :
  length (Agent._extract_code_blocks Demo.answer (Agent.verbatim (lit "r")))
  * (7 + 1)
  + list_sum (map (@length ascii)
                (Agent._extract_code_blocks Demo.answer
                   (Agent.verbatim (lit "r"))))
  <= length Demo.answer.
Proof.
  exact (extracted_bodies_fit Demo.answer (lit "r") ltac:(reflexivity)).
Defined.

Lemma extract_ignores_language_case_witness :
  Agent._extract_code_blocks Demo.answer (Agent.verbatim (lit "R"))
  = Agent._extract_code_blocks Demo.answer (Agent.verbatim (lit "r")).
Proof.
  exact (extract_ignores_language_case Demo.answer (lit "R") (lit "r")
           ltac:(reflexivity) ltac:(reflexivity) ltac:(reflexivity)).
Defined.

(** ** enhanced_ollama_agent.py: more on _execute_r_code *)

Section ExecutionMore.

Import LocalSkills Agent Notions.

Context {W : Type} {os : OS W}.

Lemma execute_cases (r_code : str) (w : W) :
  (exists e, fst (_execute_r_code r_code w) = failure_of e)
  \/ (exists result,
        fst (_execute_r_code r_code w)
        = {| success := false;
             error := Some (stderr result ++ stdout result);
             output := lit "None";
             plot_files := [] |})
  \/ (exists result plots,
        fst (_execute_r_code r_code w)
        = {| success := true;
             output := stdout result;
             error := None;
             plot_files := plots |}).
Proof.
  unfold _execute_r_code, try_except.
  destruct (bind _ _ w) as [[res0|e] w'] eqn:E; cbn [fst].
  - unfold bind at 1 in E.
    destruct (write_script r_code w) as [[[]|e0] w1]; [|discriminate].
    unfold bind at 1 in E.
    destruct (run_rscript w1) as [[cp|e0] w2]; [|discriminate].
    destruct (negb (returncode cp =? 0)%Z).
    + unfold ret in E. injection E as <- _. right. left. now exists cp.
    + unfold bind at 1, look in E.
      destruct (iterdir w2) as [files|e0]; [|discriminate].
      unfold bind in E.
      destruct (collect_plots files [] w2) as [[plots|e0] w3]; [|discriminate].
      unfold ret in E. injection E as <- _. right. right. now exists cp, plots.
  - left. exists e. unfold failure_of. now destruct (exn_cls e).
Qed.

(** X13.  In every result of [_execute_r_code], success goes with no
    error and failure with an error text; and on failure the output is
    the word [None] or empty, never what the script printed. *)
Theorem execution_result_is_consistent (r_code : str) (w : W) :
  (success (fst (_execute_r_code r_code w)) = true
   <-> error (fst (_execute_r_code r_code w)) = None)
  /\ (success (fst (_execute_r_code r_code w)) = false
      <-> exists text, error (fst (_execute_r_code r_code w)) = Some text)
  /\ (success (fst (_execute_r_code r_code w)) = false ->
      output (fst (_execute_r_code r_code w)) = lit "None"
      \/ output (fst (_execute_r_code r_code w)) = []).
Proof.
  destruct (execute_cases r_code w) as [[e ->]|[[result ->]|(result & plots & ->)]];
    cbn [success error output failure_of].
  - repeat split; try discriminate; eauto.
  - repeat split; try discriminate; eauto.
  - repeat split; try discriminate; eauto. intros [text H]. discriminate.
Qed.

(** X14.  If the script cannot be written, [Rscript] is not started: the
    world is left as the failed write left it, and the result is the
    failure for the exception of the write.  For a [FileNotFoundError]
    that is the message about [Rscript] not being found. *)
Theorem unwritable_script_is_not_run (r_code : str) (w w1 : W) (e : exn) :
  write_script r_code w = (Raise e, w1) ->
  _execute_r_code r_code w = (failure_of e, w1)
  /\ (exn_cls e = FileNotFoundError ->
      error (fst (_execute_r_code r_code w))
      = Some (lit "Rscript not found. Make sure R is installed and in PATH.")).
Proof.
  intros Hw.
  assert (E : _execute_r_code r_code w = (failure_of e, w1)).
  { unfold _execute_r_code, try_except, bind at 1. rewrite Hw.
    unfold failure_of. now destruct (exn_cls e). }
  split; [exact E|]. intros Hcls. rewrite E. cbn. now rewrite Hcls.
Qed.

Lemma collect_plots_raises (before : list Path) (file : Path)
    (after acc : list Path) (w : W) (mtime : Q) (e : exn) :
  (forall f, In f before -> candidate w f = false) ->
  candidate w file = true ->
  stat_mtime file w = Ok mtime ->
  getmtime_script w = Raise e ->
  collect_plots (before ++ file :: after) acc w = (Raise e, w).
Proof.
  intros Hbefore Hfile Hstat Hscript.
  induction before as [|f before IH]; cbn [app collect_plots].
  - unfold bind at 1. unfold collect_step. unfold candidate in Hfile.
    rewrite Hfile. unfold bind, look. now rewrite Hstat, Hscript.
  - unfold bind at 1. unfold collect_step.
    assert (Hf : candidate w f = false) by (apply Hbefore; now left).
    unfold candidate in Hf. rewrite Hf. unfold ret.
    apply IH. intros g Hg. apply Hbefore. now right.
Qed.

(** X15.  A run that exits with status 0 is still reported as failed when
    the scan for plots raises: when the directory cannot be listed, or
    when the first entry to be dated has a time stamp but the script file
    has none (it is gone).  The result is the failure for that exception,
    with no plot files and without the output of the script. *)
Theorem scan_failure_fails_the_run (r_code : str) (w w1 w2 : W)
    (result : CompletedProcess) (e : exn) :
  write_script r_code w = (Ok tt, w1) ->
  run_rscript w1 = (Ok result, w2) ->
  returncode result = 0%Z ->
  (iterdir w2 = Raise e ->
   _execute_r_code r_code w = (failure_of e, w2))
  /\ (forall before file after mtime,
         iterdir w2 = Ok (before ++ file :: after) ->
         (forall f, In f before -> candidate w2 f = false) ->
         candidate w2 file = true ->
         stat_mtime file w2 = Ok mtime ->
         getmtime_script w2 = Raise e ->
         _execute_r_code r_code w = (failure_of e, w2)).
Proof.
  intros Hw Hr Hrc.
  assert (E : _execute_r_code r_code w
              = try_except
                  (bind (look iterdir) (fun files =>
                   bind (collect_plots files []) (fun plot_files =>
                   ret {| success := true;
                          output := stdout result;
                          error := None;
                          plot_files := plot_files |})))
                  failure_of w2).
  { rewrite execute_after_run with (w1 := w1) (w2 := w2) (result := result)
      by assumption.
    rewrite Hrc. cbn [Z.eqb negb]. unfold try_except.
    destruct (bind _ _ w2) as [[r|x] w3]; [reflexivity|].
    unfold failure_of. now destruct (exn_cls x). }
  split.
  - intros Hdir. rewrite E. unfold try_except, bind at 1, look.
    now rewrite Hdir.
  - intros before file after mtime Hdir Hbefore Hfile Hstat Hscript.
    rewrite E. unfold try_except, bind at 1, look. rewrite Hdir.
    unfold bind.
    now rewrite (collect_plots_raises before file after [] w2
                   Hbefore Hfile Hstat Hscript).
Qed.

End ExecutionMore.

Section ExecutionMoreWitnesses.

Import LocalSkills Agent Notions Canned.

Lemma unwritable_script_is_not_run_witness :
  _execute_r_code Demo.plot_script Demo.unwritable
  = (failure_of Demo.no_such_directory, Demo.unwritable).
Proof.
  exact (proj1 (@unwritable_script_is_not_run answers canned_os
                  Demo.plot_script Demo.unwritable Demo.unwritable
                  Demo.no_such_directory ltac:(reflexivity))).
Defined.

Lemma scan_failure_fails_the_run_witness :
  fst (_execute_r_code Demo.plot_script Demo.script_gone)
  = {| success := false;
       error := Some (lit "Rscript not found. Make sure R is installed and in PATH.");
       output := [];
       plot_files := [] |}.
Proof.
  destruct (@scan_failure_fails_the_run answers canned_os
              Demo.plot_script Demo.script_gone Demo.script_gone Demo.script_gone
              {| returncode := 0; stdout := lit "null device"; stderr := [] |}
              Demo.no_such_directory
              ltac:(reflexivity) ltac:(reflexivity) ltac:(reflexivity))
    as [_ H].
  rewrite (H [[lit "plots"; lit "notes.txt"]] [lit "plots"; lit "plot.png"] []
             101%Q ltac:(reflexivity)).
  - reflexivity.
  - intros f [<-|[]]. reflexivity.
  - reflexivity.
  - reflexivity.
  - reflexivity.
Defined.

End ExecutionMoreWitnesses.

(** ** enhanced_ollama_agent.py: the system prompt *)

Section Prompt.

Import LocalSkills Agent Notions.

Lemma prompt_fold (skills : list Skill) (prompt : str) :
  fold_left
    (fun prompt skill =>
       prompt ++ (lit "### " ++ name skill ++ [nl; nl])
              ++ (content skill ++ [nl; nl] ++ lit "---" ++ [nl; nl]))
    skills prompt
  = prompt ++ concat (map skill_section skills).
Proof.
  revert prompt; induction skills as [|sk skills IH]; intros prompt; cbn [fold_left map concat].
  - now rewrite app_nil_r.
  - rewrite IH. unfold skill_section. rewrite <- !app_assoc. reflexivity.
Qed.

(** X16.  Without skills the system prompt is the persona and a full
    stop.  With skills it is the persona, the heading of the active
    skills, and one section for each skill, name and whole content, in the
    order in which the skills were selected: the section of a skill stands
    after the sections of the skills before it and before those of the
    skills after it. *)
Theorem system_prompt_sections (before : list Skill) (skill : Skill)
    (after : list Skill) :
  _build_system_prompt [] = lit "You are a helpful AI assistant." ++ [nl; nl]
  /\ _build_system_prompt (before ++ skill :: after)
     = (lit "You are a helpful AI assistant with access to specialized skills."
        ++ [nl; nl] ++ lit "## Active Skills" ++ [nl; nl])
       ++ concat (map skill_section before)
       ++ skill_section skill
       ++ concat (map skill_section after)
  /\ contains (content skill) (_build_system_prompt (before ++ skill :: after))
     = true.
Proof.
  assert (E : _build_system_prompt (before ++ skill :: after)
              = (lit "You are a helpful AI assistant with access to specialized skills."
                 ++ [nl; nl] ++ lit "## Active Skills" ++ [nl; nl])
                ++ concat (map skill_section before)
                ++ skill_section skill
                ++ concat (map skill_section after)).
  { unfold _build_system_prompt.
    destruct (before ++ skill :: after) as [|s l] eqn:El;
      [now destruct before|].
    rewrite <- El, prompt_fold, map_app, concat_app. cbn [map concat].
    rewrite <- !app_assoc. reflexivity. }
  split; [reflexivity|]. split; [exact E|].
  rewrite E. apply contains_spec. unfold skill_section.
  exists ((lit "You are a helpful AI assistant with access to specialized skills."
            ++ [nl; nl] ++ lit "## Active Skills" ++ [nl; nl])
           ++ concat (map skill_section before)
           ++ (lit "### " ++ name skill ++ [nl; nl])),
         (([nl; nl] ++ lit "---" ++ [nl; nl])
          ++ concat (map skill_section after)).
  rewrite <- !app_assoc. reflexivity.
Qed.

End Prompt.
(** ** enhanced_ollama_agent.py: more on chat and stream_chat *)

Section TurnsMore.

Import LocalSkills Agent Notions.

Context {W : Type} {os : OS W}.

(** The loop over the blocks, for [chat] and for [stream_chat]. *)
Lemma run_blocks_any (self : EnhancedOllamaAgent) (record_error : bool)
    (blocks : list str) (result : TurnResult) (w : W) :
  run_blocks self record_error blocks result w
  = ({| response := response result;
        skills_used := skills_used result;
        r_executed :=
          r_executed result || existsb success (fst (executions self blocks w));
        turn_plot_files :=
          turn_plot_files result
          ++ concat (map plot_files
                       (filter success (fst (executions self blocks w))));
        r_error :=
          if record_error then
            match last_error (fst (executions self blocks w)) with
            | Some x => Some x
            | None => r_error result
            end
          else r_error result |},
     snd (executions self blocks w)).
Proof.
  revert result w; induction blocks as [|b blocks IH]; intros result w.
  - cbn. rewrite orb_false_r, app_nil_r. now destruct result, record_error.
  - cbn [run_blocks executions]. destruct (_execute_r_code b w) as [r w1].
    destruct (success r) eqn:Hr.
    + rewrite IH.
      destruct (executions self blocks (show_plots self r w1)) as [rs w'].
      cbn [fst snd existsb filter map concat
           response skills_used r_executed turn_plot_files r_error].
      rewrite Hr, last_error_cons, Hr. cbn [map concat orb].
      rewrite orb_true_r, app_assoc.
      now destruct record_error, (last_error rs).
    + rewrite IH.
      destruct (executions self blocks w1) as [rs w'].
      cbn [fst snd existsb filter map concat
           response skills_used r_executed turn_plot_files r_error].
      rewrite Hr, last_error_cons, Hr. cbn [orb].
      destruct record_error; cbn [response skills_used r_executed
                                   turn_plot_files r_error];
        [now destruct (last_error rs) | reflexivity].
Qed.

Lemma after_answer_fields (self : EnhancedOllamaAgent) (record_error : bool)
    (relevant_skills : list Skill) (user_message assistant_message : str) (w : W) :
  let turn := after_answer self record_error relevant_skills user_message
                assistant_message w in
  snd (fst turn) = record_turn self user_message assistant_message
  /\ response (fst (fst turn)) = assistant_message
  /\ skills_used (fst (fst turn)) = map name relevant_skills
  /\ (r_executed (fst (fst turn)) = false -> turn_plot_files (fst (fst turn)) = [])
  /\ (record_error = false -> r_error (fst (fst turn)) = None)
  /\ (auto_execute_r self = false ->
      snd turn = w /\ r_executed (fst (fst turn)) = false
      /\ turn_plot_files (fst (fst turn)) = []
      /\ r_error (fst (fst turn)) = None).
Proof.
  unfold after_answer.
  destruct (_extract_code_blocks assistant_message (verbatim (lit "r"))) as [|b blocks];
    [cbn; repeat split; congruence|].
  destruct (auto_execute_r self); [|cbn; repeat split; congruence].
  rewrite run_blocks_any. cbn [fst snd response skills_used r_executed
                               turn_plot_files r_error orb app].
  repeat split; try discriminate.
  - intros Hnone.
    induction (fst (executions self (b :: blocks) w)) as [|r rs IH];
      [reflexivity|].
    cbn [existsb] in Hnone. apply orb_false_iff in Hnone as [Hr Hrs].
    cbn [filter]. rewrite Hr. now apply IH.
  - now intros ->.
Qed.

Lemma stream_chat_answers (self : EnhancedOllamaAgent) (user_message : str)
    (temperature : Q) (w w1 : W) (chunks : list str) :
  ollama_chat_stream (model self)
    (build_messages self (select_for self user_message) user_message)
    temperature w = ((chunks, None), w1) ->
  stream_chat self user_message temperature w
  = after_answer self false (select_for self user_message) user_message
      (concat chunks) w1.
Proof. intros H. unfold stream_chat. now rewrite H. Qed.

(** X17.  When the model answers, [chat] and [stream_chat] add to the
    conversation history the user message and then the whole answer, for
    the stream the fragments put together, and change nothing else of
    the agent, whether the answer holds code or not and whether that code
    runs or fails; the response is the answer and [skills_used] are the
    names of the skills selected for the message. *)
Theorem answered_turn_is_recorded (self : EnhancedOllamaAgent)
    (user_message : str) (temperature : Q) (w w1 : W) :
  (forall assistant_message,
      ollama_chat (model self)
        (build_messages self (select_for self user_message) user_message)
        temperature w = (Ok assistant_message, w1) ->
      let turn := chat self user_message temperature w in
      conversation_history (snd (fst turn))
      = conversation_history self
        ++ [user_says user_message; assistant_says assistant_message]
      /\ snd (fst turn) = record_turn self user_message assistant_message
      /\ response (fst (fst turn)) = assistant_message
      /\ skills_used (fst (fst turn))
         = map name (select_for self user_message))
  /\ (forall chunks,
         ollama_chat_stream (model self)
           (build_messages self (select_for self user_message) user_message)
           temperature w = ((chunks, None), w1) ->
         let turn := stream_chat self user_message temperature w in
         conversation_history (snd (fst turn))
         = conversation_history self
           ++ [user_says user_message; assistant_says (concat chunks)]
         /\ snd (fst turn) = record_turn self user_message (concat chunks)
         /\ response (fst (fst turn)) = concat chunks
         /\ skills_used (fst (fst turn))
            = map name (select_for self user_message)).
Proof.
  split.
  - intros assistant_message H turn. unfold turn.
    rewrite (chat_answers _ _ _ _ H).
    destruct (after_answer_fields self true (select_for self user_message)
                user_message assistant_message w1) as (Ha & Hr & Hs & _).
    rewrite Ha. repeat split; try assumption.
    cbn [record_turn conversation_history]. now rewrite <- app_assoc.
  - intros chunks H turn. unfold turn.
    rewrite (stream_chat_answers _ _ _ _ H).
    destruct (after_answer_fields self false (select_for self user_message)
                user_message (concat chunks) w1) as (Ha & Hr & Hs & _).
    rewrite Ha. repeat split; try assumption.
    cbn [record_turn conversation_history]. now rewrite <- app_assoc.
Qed.

Lemma paired_app (h1 h2 : list Message) :
  paired h1 = true -> paired h2 = true -> paired (h1 ++ h2) = true.
Proof.
  intros H1 H2. remember (length h1) as n eqn:Hn.
  assert (Hle : length h1 <= n) by lia. clear Hn.
  revert h1 H1 Hle; induction n as [|n IH]; intros h1 H1 Hle.
  - destruct h1; [exact H2 | cbn [length] in Hle; lia].
  - destruct h1 as [|u [|a rest]]; [exact H2 | discriminate |].
    cbn [app paired] in *. apply andb_true_iff in H1 as [Hroles Hrest].
    rewrite Hroles. cbn [andb]. apply IH; [exact Hrest | cbn [length] in Hle; lia].
Qed.

Lemma chat_agent (self : EnhancedOllamaAgent) (user_message : str)
    (temperature : Q) (w : W) :
  snd (fst (chat self user_message temperature w)) = self
  \/ exists answer,
       snd (fst (chat self user_message temperature w))
       = record_turn self user_message answer.
Proof.
  destruct (ollama_chat (model self)
              (build_messages self (select_for self user_message) user_message)
              temperature w) as [[answer|e] w1] eqn:E.
  - right. exists answer. rewrite (chat_answers _ _ _ _ E).
    apply after_answer_fields.
  - left. now rewrite (chat_raises _ _ _ _ E).
Qed.

Lemma stream_chat_agent (self : EnhancedOllamaAgent) (user_message : str)
    (temperature : Q) (w : W) :
  snd (fst (stream_chat self user_message temperature w)) = self
  \/ exists answer,
       snd (fst (stream_chat self user_message temperature w))
       = record_turn self user_message answer.
Proof.
  destruct (ollama_chat_stream (model self)
              (build_messages self (select_for self user_message) user_message)
              temperature w) as [[chunks [e|]] w1] eqn:E.
  - left. now rewrite (stream_chat_raises _ _ _ _ E).
  - right. exists (concat chunks). rewrite (stream_chat_answers _ _ _ _ E).
    apply after_answer_fields.
Qed.

Lemma run_command_keeps (self : EnhancedOllamaAgent) (c : command) (w : W) :
  let self' := fst (run_command self c w) in
  (paired (conversation_history self) = true ->
   paired (conversation_history self') = true)
  /\ skill_manager self' = skill_manager self
  /\ model self' = model self
  /\ auto_execute_r self' = auto_execute_r self
  /\ auto_display_plots self' = auto_display_plots self.
Proof.
  destruct c as [m t|m t|]; cbn [run_command].
  - destruct (chat_agent self m t w) as [H|[answer H]];
      destruct (chat self m t w) as [[r a] w']; cbn [fst snd] in *; subst a;
      repeat split; trivial.
    intros Hp. cbn [record_turn conversation_history]. rewrite <- app_assoc.
    apply paired_app; [exact Hp | reflexivity].
  - destruct (stream_chat_agent self m t w) as [H|[answer H]];
      destruct (stream_chat self m t w) as [[r a] w']; cbn [fst snd] in *;
      subst a; repeat split; trivial.
    intros Hp. cbn [record_turn conversation_history]. rewrite <- app_assoc.
    apply paired_app; [exact Hp | reflexivity].
  - cbn. repeat split.
Qed.

(** X18.  Whatever sequence of [chat], [stream_chat] and [reset] calls is
    made and whatever the surroundings do, a conversation history made of
    whole turns, a user message and then an assistant message, stays
    one, and the model, the skills and the two switches of the agent stay
    as they were. *)
Theorem history_stays_paired (cs : list command)
    (self : EnhancedOllamaAgent) (w : W) :
  paired (conversation_history self) = true ->
  let self' := fst (run_commands self cs w) in
  paired (conversation_history self') = true
  /\ skill_manager self' = skill_manager self
  /\ model self' = model self
  /\ auto_execute_r self' = auto_execute_r self
  /\ auto_display_plots self' = auto_display_plots self.
Proof.
  revert self w; induction cs as [|c cs IH]; intros self w Hp; [now cbn|].
  cbn [run_commands].
  destruct (run_command_keeps self c w) as (Hc & Hs & Hm & He & Hd).
  destruct (run_command self c w) as [self1 w1]. cbn [fst] in *.
  destruct (IH self1 w1 (Hc Hp)) as (Hp' & Hs' & Hm' & He' & Hd').
  cbn zeta. repeat split; congruence.
Qed.

(** X19.  With [auto_execute_r] off, a turn that the model answers runs
    nothing: the world is as the call of the model left it, [r_executed]
    is false, and there are neither plot files nor an error. *)
Theorem no_execution_when_switched_off (self : EnhancedOllamaAgent)
    (user_message : str) (temperature : Q) (w w1 : W) :
  auto_execute_r self = false ->
  (forall assistant_message,
      ollama_chat (model self)
        (build_messages self (select_for self user_message) user_message)
        temperature w = (Ok assistant_message, w1) ->
      let turn := chat self user_message temperature w in
      snd turn = w1 /\ r_executed (fst (fst turn)) = false
      /\ turn_plot_files (fst (fst turn)) = []
      /\ r_error (fst (fst turn)) = None)
  /\ (forall chunks,
         ollama_chat_stream (model self)
           (build_messages self (select_for self user_message) user_message)
           temperature w = ((chunks, None), w1) ->
         let turn := stream_chat self user_message temperature w in
         snd turn = w1 /\ r_executed (fst (fst turn)) = false
         /\ turn_plot_files (fst (fst turn)) = []
         /\ r_error (fst (fst turn)) = None).
Proof.
  intros Hoff. split.
  - intros assistant_message H turn. unfold turn.
    rewrite (chat_answers _ _ _ _ H). now apply after_answer_fields.
  - intros chunks H turn. unfold turn.
    rewrite (stream_chat_answers _ _ _ _ H). now apply after_answer_fields.
Qed.

(** X20.  The result of [stream_chat] never has an [r_error]: a block
    that fails is printed, not reported to the caller. *)
Theorem stream_chat_reports_no_error (self : EnhancedOllamaAgent)
    (user_message : str) (temperature : Q) (w : W) :
  r_error (fst (fst (stream_chat self user_message temperature w))) = None.
Proof.
  destruct (ollama_chat_stream (model self)
              (build_messages self (select_for self user_message) user_message)
              temperature w) as [[chunks [e|]] w1] eqn:E.
  - now rewrite (stream_chat_raises _ _ _ _ E).
  - rewrite (stream_chat_answers _ _ _ _ E).
    destruct (after_answer_fields self false (select_for self user_message)
                user_message (concat chunks) w1) as (_ & _ & _ & _ & H & _).
    now apply H.
Qed.

(** X21.  In every result of [chat] and of [stream_chat], plot files come
    with [r_executed]: when [r_executed] is false there are no plot
    files. *)
Theorem plot_files_need_execution (self : EnhancedOllamaAgent)
    (user_message : str) (temperature : Q) (w : W) :
  (r_executed (fst (fst (chat self user_message temperature w))) = false ->
   turn_plot_files (fst (fst (chat self user_message temperature w))) = [])
  /\ (r_executed (fst (fst (stream_chat self user_message temperature w))) = false ->
      turn_plot_files (fst (fst (stream_chat self user_message temperature w))) = []).
Proof.
  split.
  - destruct (ollama_chat (model self)
                (build_messages self (select_for self user_message) user_message)
                temperature w) as [[answer|e] w1] eqn:E.
    + rewrite (chat_answers _ _ _ _ E). apply after_answer_fields.
    + now rewrite (chat_raises _ _ _ _ E).
  - destruct (ollama_chat_stream (model self)
                (build_messages self (select_for self user_message) user_message)
                temperature w) as [[chunks [e|]] w1] eqn:E.
    + now rewrite (stream_chat_raises _ _ _ _ E).
    + rewrite (stream_chat_answers _ _ _ _ E). apply after_answer_fields.
Qed.

End TurnsMore.

Section TurnsMoreWitnesses.

Import LocalSkills Agent Notions Sim.

Lemma answered_turn_is_recorded_witness :
  conversation_history
    (snd (fst (chat Demo.agent (lit "Plot it") Demo.temperature Demo.machine)))
  = [user_says (lit "Plot it"); assistant_says Demo.answer]
  /\ conversation_history
       (snd (fst (stream_chat Demo.agent (lit "Plot it") Demo.temperature
                    Demo.machine)))
     = [user_says (lit "Plot it"); assistant_says Demo.answer].
Proof.
  split.
  - exact (proj1 (proj1 (@answered_turn_is_recorded world sim_os Demo.agent
                           (lit "Plot it") Demo.temperature Demo.machine
                           Demo.machine)
                    Demo.answer ltac:(reflexivity))).
  - exact (proj1 (proj2 (@answered_turn_is_recorded world sim_os Demo.agent
                           (lit "Plot it") Demo.temperature Demo.machine
                           Demo.machine)
                    [Demo.answer] ltac:(reflexivity))).
Defined.

Lemma history_stays_paired_witness :
  paired
    (conversation_history
       (fst (run_commands Demo.agent
               [DoChat (lit "Plot it") Demo.temperature;
                DoReset;
                DoStreamChat Demo.query Demo.temperature;
                DoChat (lit "And again") Demo.temperature]
               Demo.machine)))
  = true.
Proof.
  exact (proj1 (@history_stays_paired world sim_os
                  [DoChat (lit "Plot it") Demo.temperature;
                   DoReset;
                   DoStreamChat Demo.query Demo.temperature;
                   DoChat (lit "And again") Demo.temperature]
                  Demo.agent Demo.machine ltac:(reflexivity))).
Defined.

Lemma no_execution_when_switched_off_witness :
  snd (chat Demo.idle_agent (lit "Plot it") Demo.temperature Demo.machine)
  = Demo.machine
  /\ r_executed (fst (fst (stream_chat Demo.idle_agent (lit "Plot it")
                             Demo.temperature Demo.machine))) = false.
Proof.
  split.
  - exact (proj1 (proj1 (@no_execution_when_switched_off world sim_os
                           Demo.idle_agent (lit "Plot it") Demo.temperature
                           Demo.machine Demo.machine ltac:(reflexivity))
                    Demo.answer ltac:(reflexivity))).
  - exact (proj1 (proj2 (proj2 (@no_execution_when_switched_off world sim_os
                           Demo.idle_agent (lit "Plot it") Demo.temperature
                           Demo.machine Demo.machine ltac:(reflexivity))
                    [Demo.answer] ltac:(reflexivity)))).
Defined.

End TurnsMoreWitnesses.

(** ** enhanced_ollama_agent.py: the loop of interactive_mode *)

Section Interactive.

Import LocalSkills Agent Notions.

Context {W : Type} {os : OS W}.

Lemma lstrip_spaces (s : str) : forallb is_space s = true -> lstrip s = [].
Proof.
  induction s as [|c s IH]; [reflexivity|]. cbn [forallb lstrip].
  intros H. apply andb_true_iff in H as [Hc Hs]. rewrite Hc. now apply IH.
Qed.

Lemma idle_round (agent : EnhancedOllamaAgent) (line : str) (w : W) :
  idle_line line = true -> interactive_round agent line w = ((true, agent), w).
Proof.
  unfold idle_line, interactive_round.
  destruct (strip line) as [|c s] eqn:E; [reflexivity|].
  intros H. apply orb_true_iff in H as [H|H]; apply str_eqb_eq in H;
    rewrite H; reflexivity.
Qed.

Lemma quit_round (agent : EnhancedOllamaAgent) (line : str) (w : W) :
  strip line = lit "/quit" -> interactive_round agent line w = ((false, agent), w).
Proof. unfold interactive_round. now intros ->. Qed.

Lemma interactive_rounds_app (agent : EnhancedOllamaAgent) (l1 l2 : list str)
    (w : W) :
  interactive_rounds agent (l1 ++ l2) w
  = if fst (fst (interactive_rounds agent l1 w))
    then interactive_rounds (snd (fst (interactive_rounds agent l1 w))) l2
           (snd (interactive_rounds agent l1 w))
    else interactive_rounds agent l1 w.
Proof.
  revert agent w; induction l1 as [|line l1 IH]; intros agent w; [reflexivity|].
  cbn [app interactive_rounds].
  destruct (interactive_round agent line w) as [[[|] agent1] w1];
    [apply IH | reflexivity].
Qed.

Lemma interactive_rounds_stopped (agent : EnhancedOllamaAgent)
    (lines : list str) (w : W) :
  fst (fst (interactive_rounds agent lines w)) = false ->
  exists before line after,
    lines = before ++ line :: after /\ strip line = lit "/quit".
Proof.
  revert agent w; induction lines as [|line lines IH]; intros agent w;
    [discriminate|].
  cbn [interactive_rounds].
  destruct (interactive_round agent line w) as [[[|] agent1] w1] eqn:E.
  - intros H. destruct (IH _ _ H) as (before & l & after & -> & Hq).
    now exists (line :: before), l, after.
  - intros _. exists [], line, lines. split; [reflexivity|].
    unfold interactive_round in E.
    destruct (strip line) as [|c s]; [discriminate|].
    destruct (str_eqb (c :: s) (lit "/quit")) eqn:Eq;
      [now apply str_eqb_eq in Eq|].
    repeat match type of E with
           | (if ?b then _ else _) = _ => destruct b; [discriminate|]
           end.
    destruct (stream_chat agent (c :: s) 0.7 w) as [[? ?] ?]. discriminate.
Qed.

(** X22.  A line that is [/quit] once the whitespace around it is
    stripped ends the loop: no line after it is read, whatever it says,
    and no other line ends the loop. *)
Theorem interactive_quit_stops (agent : EnhancedOllamaAgent)
    (before : list str) (line : str) (after : list str) (w : W) :
  strip line = lit "/quit" ->
  interactive_rounds agent (before ++ line :: after) w
  = interactive_rounds agent (before ++ [line]) w
  /\ fst (fst (interactive_rounds agent (before ++ [line]) w)) = false
  /\ (forall lines,
         fst (fst (interactive_rounds agent lines w)) = false ->
         exists before' line' after',
           lines = before' ++ line' :: after' /\ strip line' = lit "/quit").
Proof.
  intros Hq. rewrite !interactive_rounds_app.
  destruct (fst (fst (interactive_rounds agent before w))) eqn:Eb.
  - cbn [interactive_rounds]. rewrite (quit_round _ _ _ Hq).
    repeat split. intros lines. apply interactive_rounds_stopped.
  - repeat split; [exact Eb|]. intros lines. apply interactive_rounds_stopped.
Qed.

Lemma interactive_round_keeps (agent : EnhancedOllamaAgent) (line : str)
    (w : W) :
  let agent' := snd (fst (interactive_round agent line w)) in
  (paired (conversation_history agent) = true ->
   paired (conversation_history agent') = true)
  /\ skill_manager agent' = skill_manager agent
  /\ model agent' = model agent
  /\ auto_display_plots agent' = auto_display_plots agent
  /\ (strip line <> lit "/toggle" ->
      auto_execute_r agent' = auto_execute_r agent).
Proof.
  unfold interactive_round.
  destruct (strip line) as [|c s]; [now cbn [fst snd]|].
  destruct (str_eqb (c :: s) (lit "/quit")); [now cbn [fst snd]|].
  destruct (str_eqb (c :: s) (lit "/reset")); [now cbn [fst snd reset]|].
  destruct (str_eqb (c :: s) (lit "/skills")); [now cbn [fst snd]|].
  destruct (str_eqb (c :: s) (lit "/plots")); [now cbn [fst snd]|].
  destruct (str_eqb (c :: s) (lit "/toggle")) eqn:Et.
  - apply str_eqb_eq in Et. cbn [fst snd toggle conversation_history
      skill_manager model auto_display_plots auto_execute_r].
    repeat split; trivial. intros H. now destruct H.
  - destruct (stream_chat_agent agent (c :: s) 0.7 w) as [H|[answer H]];
      destruct (stream_chat agent (c :: s) 0.7 w) as [[r a] w'];
      cbn [fst snd] in *; subst a; repeat split; trivial.
    intros Hp. cbn [record_turn conversation_history]. rewrite <- app_assoc.
    apply paired_app; [exact Hp | reflexivity].
Qed.

(** X23.  Through a whole session of [interactive_mode] the history
    stays made of whole turns, and the skills, the model and
    [auto_display_plots] stay as they were; [auto_execute_r] stays as it
    was unless a line says [/toggle]. *)
Theorem interactive_session_keeps (lines : list str)
    (agent : EnhancedOllamaAgent) (w : W) :
  paired (conversation_history agent) = true ->
  let agent' := snd (fst (interactive_rounds agent lines w)) in
  paired (conversation_history agent') = true
  /\ skill_manager agent' = skill_manager agent
  /\ model agent' = model agent
  /\ auto_display_plots agent' = auto_display_plots agent
  /\ ((forall line, In line lines -> strip line <> lit "/toggle") ->
      auto_execute_r agent' = auto_execute_r agent).
Proof.
  revert agent w; induction lines as [|line lines IH]; intros agent w Hp;
    [now cbn [interactive_rounds fst snd]|].
  cbn [interactive_rounds].
  destruct (interactive_round_keeps agent line w) as (Hc & Hs & Hm & Hd & He).
  destruct (interactive_round agent line w) as [[go_on agent1] w1].
  cbn [fst snd] in *.
  destruct go_on.
  - destruct (IH agent1 w1 (Hc Hp)) as (Hp' & Hs' & Hm' & Hd' & He').
    cbn zeta. repeat split; try congruence.
    intros Hno. rewrite He', He; [reflexivity | |]; intros; apply Hno;
      [now left | now right].
  - cbn [fst snd]. repeat split; auto. intros Hno. apply He, Hno. now left.
Qed.

(** X24.  Lines of whitespace only, [/skills] and [/plots] change
    neither the agent nor the surroundings: a session runs as it does
    without them. *)
Theorem idle_lines_change_nothing (lines : list str)
    (agent : EnhancedOllamaAgent) (w : W) :
  interactive_rounds agent (filter (fun line => negb (idle_line line)) lines) w
  = interactive_rounds agent lines w
  /\ (forall line, forallb is_space line = true -> idle_line line = true).
Proof.
  split.
  - revert agent w; induction lines as [|line lines IH]; intros agent w;
      [reflexivity|].
    cbn [filter]. destruct (idle_line line) eqn:E; cbn [negb].
    + cbn [interactive_rounds]. rewrite (idle_round _ _ _ E). apply IH.
    + cbn [interactive_rounds].
      destruct (interactive_round agent line w) as [[[|] agent1] w1];
        [apply IH | reflexivity].
  - intros line H. unfold idle_line, strip.
    now rewrite (lstrip_spaces _ H).
Qed.

End Interactive.

Section InteractiveWitnesses.

Import LocalSkills Agent Notions Sim.

Lemma interactive_quit_stops_witness :
  interactive_rounds Demo.agent
    ([lit "Plot it"] ++ lit " /quit " :: [lit "Plot it again"]) Demo.machine
  = interactive_rounds Demo.agent ([lit "Plot it"] ++ [lit " /quit "])
      Demo.machine.
Proof.
  exact (proj1 (@interactive_quit_stops world sim_os Demo.agent
                  [lit "Plot it"] (lit " /quit ") [lit "Plot it again"]
                  Demo.machine ltac:(reflexivity))).
Defined.

Lemma interactive_session_keeps_witness :
  paired
    (conversation_history
       (snd (fst (interactive_rounds Demo.agent
                    [lit "Plot it"; lit "/reset"; lit "/toggle"; lit "Plot it"]
                    Demo.machine))))
  = true.
Proof.
  exact (proj1 (@interactive_session_keeps world sim_os
                  [lit "Plot it"; lit "/reset"; lit "/toggle"; lit "Plot it"]
                  Demo.agent Demo.machine ltac:(reflexivity))).
Defined.

End InteractiveWitnesses.

(** ** local_skills.py: summaries, the full context and the placeholder chat *)

Section LocalAgent.

Import LocalSkills Notions.

Lemma summary_lines_numbered (i : nat) (skills : list Skill) (summary : str) :
  summary_lines i skills summary = summary ++ numbered i skills.
Proof.
  revert i summary; induction skills as [|sk skills IH]; intros i summary;
    cbn [summary_lines numbered].
  - now rewrite app_nil_r.
  - rewrite IH. unfold summary_line, get_summary. now rewrite <- !app_assoc.
Qed.

Lemma numbered_app (i : nat) (a b : list Skill) :
  numbered i (a ++ b) = numbered i a ++ numbered (length a + i) b.
Proof.
  revert i; induction a as [|sk a IH]; intros i; [reflexivity|].
  cbn [app numbered length]. rewrite IH, <- app_assoc.
  now rewrite Nat.add_succ_r.
Qed.

(** X25.  [get_all_skills_summary] numbers the skills by their place in
    the registry, from 1: the skill that has [n] skills before it gets the
    line with the number [n + 1], its name and its description, after the
    lines of the skills before it and before those of the skills after it.
    Without skills the summary is the one sentence. *)
Theorem summary_numbers_skills (before : list Skill) (skill : Skill)
    (after : list Skill) :
  get_all_skills_summary [] = lit "No skills available."
  /\ get_all_skills_summary (before ++ skill :: after)
     = (lit "Available Skills:" ++ [nl; nl])
       ++ numbered 1 before
       ++ summary_line (S (length before)) skill
       ++ numbered (S (S (length before))) after.
Proof.
  split; [reflexivity|]. unfold get_all_skills_summary.
  destruct (before ++ skill :: after) as [|s l] eqn:E; [now destruct before|].
  rewrite <- E, summary_lines_numbered, numbered_app. cbn [numbered].
  now rewrite !Nat.add_1_r.
Qed.

Lemma references_fold (refs : dict Path) (context : str) :
  fold_left (fun context kv => context ++ (lit "- " ++ fst kv ++ [nl]))
    refs context
  = context ++ concat (map (fun kv => lit "- " ++ fst kv ++ [nl]) refs).
Proof.
  revert context; induction refs as [|kv refs IH]; intros context;
    cbn [fold_left map concat].
  - now rewrite app_nil_r.
  - rewrite IH. now rewrite <- !app_assoc.
Qed.

Lemma startswith_app_app (p a b : str) : startswith p ((p ++ a) ++ b) = true.
Proof. rewrite <- app_assoc. apply startswith_app. Qed.

Lemma context_fold (skills : list Skill) (system_prompt : str) :
  fold_left
    (fun system_prompt skill =>
       system_prompt ++ (get_full_context skill ++ [nl; nl]))
    skills system_prompt
  = system_prompt
    ++ concat (map (fun skill => get_full_context skill ++ [nl; nl]) skills).
Proof.
  revert system_prompt; induction skills as [|sk skills IH];
    intros system_prompt; cbn [fold_left map concat].
  - now rewrite app_nil_r.
  - rewrite IH. now rewrite <- !app_assoc.
Qed.

(** X26.  The prompt [build_system_prompt] makes holds the full context
    of every skill it is given; the full context of a skill starts with
    its name, its description and its whole content, and has a line for
    every reference file, under its relative path; a skill without
    reference files has nothing after the content. *)
Theorem local_prompt_holds_full_context (before : list Skill) (skill : Skill)
    (after : list Skill) :
  contains (get_full_context skill)
    (build_system_prompt (before ++ skill :: after)) = true
  /\ startswith
       ((lit "# Skill: " ++ name skill ++ [nl; nl])
        ++ (lit "Description: " ++ description skill ++ [nl; nl])
        ++ content skill)
       (get_full_context skill) = true
  /\ (forall rel_path file_path,
         In (rel_path, file_path) (reference_files skill) ->
         contains (lit "- " ++ rel_path ++ [nl]) (get_full_context skill) = true)
  /\ (reference_files skill = [] ->
      get_full_context skill
      = (lit "# Skill: " ++ name skill ++ [nl; nl])
        ++ (lit "Description: " ++ description skill ++ [nl; nl])
        ++ content skill).
Proof.
  split; [|split; [|split]].
  - unfold build_system_prompt.
    destruct (before ++ skill :: after) as [|s l] eqn:E; [now destruct before|].
    rewrite <- E, context_fold, map_app, concat_app. cbn [map concat].
    apply contains_spec.
    exists ((lit "You are a helpful AI assistant with access to specialized skills."
             ++ [nl; nl]
             ++ lit "When a user's request matches one of your available skills, you should reference and follow the instructions in that skill."
             ++ [nl; nl])
            ++ (lit "## Active Skills" ++ [nl; nl])
            ++ concat (map (fun sk => get_full_context sk ++ [nl; nl]) before)),
           ([nl; nl]
            ++ concat (map (fun sk => get_full_context sk ++ [nl; nl]) after)
            ++ (lit "---" ++ [nl; nl])
            ++ (lit "Respond to the user's query using the skills above when relevant."
                ++ [nl])).
    now rewrite <- !app_assoc.
  - unfold get_full_context. destruct (reference_files skill) as [|kv refs].
    + rewrite <- (app_nil_r (_ ++ _ ++ content skill)) at 2.
      apply startswith_app.
    + rewrite references_fold. apply startswith_app_app.
  - intros rel_path file_path Hin. unfold get_full_context.
    apply in_split in Hin as (l1 & l2 & ->).
    destruct (l1 ++ (rel_path, file_path) :: l2) as [|kv refs] eqn:E;
      [now destruct l1|].
    rewrite <- E, references_fold, map_app, concat_app. cbn [map concat fst].
    apply contains_spec.
    exists (((lit "# Skill: " ++ name skill ++ [nl; nl])
             ++ (lit "Description: " ++ description skill ++ [nl; nl])
             ++ content skill)
            ++ ([nl; nl] ++ lit "## Reference Files" ++ [nl])
            ++ concat (map (fun kv => lit "- " ++ fst kv ++ [nl]) l1)),
           (concat (map (fun kv => lit "- " ++ fst kv ++ [nl]) l2)).
    now rewrite <- !app_assoc.
  - intros E. unfold get_full_context. now rewrite E.
Qed.

Lemma selected_is_scored (self_skills : list Skill) (q : str) (k : Z)
    (sk : Skill) :
  In sk (select_relevant_skills self_skills q k) ->
  In sk self_skills /\ 0 < skill_score (lower q) sk.
Proof.
  rewrite select_relevant_skills_eq. unfold slice_to. intros H.
  apply in_map_iff in H as ([n s] & <- & H). apply In_firstn in H.
  apply (Permutation_in _ (sort_reverse_perm _)) in H.
  apply in_map_iff in H as (s' & E & H). injection E as <- <-.
  apply filter_In in H as [Hin Hpos]. now apply Nat.ltb_lt in Hpos.
Qed.

(** X27.  [LocalLLMSkillsAgent.chat] adds to the history the user
    message and then its answer, and leaves the skills alone.  It names at
    most three skills, each of them registered and matched by the
    message, and none when [use_skills] is off, where the prompt is the one
    without skills.  The answer quotes at most the first 500 characters of
    the prompt, so it is never longer than 575 characters. *)
Theorem local_chat_turn (self : LocalLLMSkillsAgent) (user_message : str)
    (use_skills : bool) :
  let reply := fst (local_chat self user_message use_skills) in
  let self' := snd (local_chat self user_message use_skills) in
  agent_history self'
  = agent_history self
    ++ [user_entry user_message; assistant_entry (reply_response reply)]
  /\ agent_skills self' = agent_skills self
  /\ length (reply_skills_used reply) <= 3
  /\ (forall nm, In nm (reply_skills_used reply) ->
        exists skill, In skill (agent_skills self) /\ name skill = nm
                      /\ 0 < skill_score (lower user_message) skill)
  /\ (use_skills = false ->
      reply_skills_used reply = []
      /\ reply_system_prompt reply = build_system_prompt [])
  /\ reply_response reply
     = lit "[This is where the LLM response would go]" ++ [nl; nl]
       ++ lit "System prompt would include:" ++ [nl]
       ++ firstn 500 (reply_system_prompt reply) ++ lit "..."
  /\ length (reply_response reply) <= 575.
Proof.
  cbn zeta. unfold local_chat.
  cbn [fst snd agent_history agent_skills reply_response reply_skills_used
       reply_system_prompt].
  split; [now rewrite <- app_assoc|]. split; [reflexivity|].
  split; [|split; [|split; [|split]]].
  - rewrite length_map. destruct use_skills; [|cbn; lia].
    rewrite select_relevant_skills_eq, slice_to_nonneg by lia.
    rewrite length_map, length_firstn. cbn. lia.
  - intros nm H. apply in_map_iff in H as (skill & <- & H).
    destruct use_skills; [|destruct H].
    apply selected_is_scored in H. now exists skill.
  - now intros ->.
  - now rewrite slice_to_nonneg by lia.
  - rewrite slice_to_nonneg by lia.
    rewrite !length_app, length_firstn.
    change (length (lit "[This is where the LLM response would go]")) with 41.
    change (length (lit "System prompt would include:")) with 28.
    cbn [length lit list_ascii_of_string]. lia.
Qed.

Lemma local_chat_turn_witness :
  agent_history
    (snd (local_chat {| agent_skills := Demo.registry; agent_history := [] |}
            Demo.query true))
  = [user_entry Demo.query;
     assistant_entry
       (reply_response
          (fst (local_chat {| agent_skills := Demo.registry;
                              agent_history := [] |} Demo.query true)))].
Proof.
  exact (proj1 (local_chat_turn {| agent_skills := Demo.registry;
                                   agent_history := [] |} Demo.query true)).
Defined.

End LocalAgent.
